(** * Dependency-size analyzer ([fsize.py]): a shallow embedding and its properties

    The development follows the layout of the analyzer:

    - [Py]: the fragment of the Python runtime that the analyzer relies on
      (text, the [re] patterns it uses, JSON-shaped values, binary64 floats);
    - the analyzer itself, one definition per method of
      [LocalRequirementsAnalyzer], written against an explicit [World]
      (file system, registries, audit tools) and an explicit analyzer state
      (the two size caches and the trace of external interactions);
    - the command line ([main] and the script), written against a [Host];
    - the properties of the parser, the resolver, the cache, the conflict
      detector, the size estimator, the orchestrator and the command line. *)

From Stdlib Require Import ZArith Lia Ascii String List Bool.
From Stdlib Require Import Floats.SpecFloat.
From stdpp Require Import base option list gmap strings pretty.

Local Open Scope Z_scope.

(** ** The Python fragment *)
Module Py.

(** *** Text

    A [str] is modelled by [string]; a character stands for the code point of
    the same number, so the model covers the code points below 256. *)

Definition ord (c : ascii) : N := N_of_ascii c.

Definition in_range (lo hi : N) (c : ascii) : bool :=
  ((lo <=? ord c) && (ord c <=? hi))%N.

(** [str.isspace] on one character: TAB..CR, FS..US, SPACE, NEL, NBSP. *)
Definition isspace (c : ascii) : bool :=
  in_range 9 13 c || in_range 28 32 c || (ord c =? 133)%N || (ord c =? 160)%N.

Definition isdigit (c : ascii) : bool := in_range 48 57 c.
Definition isupper (c : ascii) : bool := in_range 65 90 c.
Definition islower (c : ascii) : bool := in_range 97 122 c.

Fixpoint take_while (p : ascii → bool) (s : string) : string :=
  match s with
  | String c s' => if p c then String c (take_while p s') else ""
  | "" => ""
  end.

Fixpoint drop_while (p : ascii → bool) (s : string) : string :=
  match s with
  | String c s' => if p c then drop_while p s' else s
  | "" => ""
  end.

Fixpoint rev_onto (s acc : string) : string :=
  match s with
  | String c s' => rev_onto s' (String c acc)
  | "" => acc
  end.

Definition reverse (s : string) : string := rev_onto s "".

Definition lstrip (s : string) : string := drop_while isspace s.
Definition rstrip (s : string) : string := reverse (drop_while isspace (reverse s)).

(** [s.strip()] *)
Definition strip (s : string) : string := rstrip (lstrip s).

(** [s.startswith(pre)] *)
Fixpoint startswith (pre s : string) : bool :=
  match pre, s with
  | "", _ => true
  | String a pre', String b s' => bool_decide (a = b) && startswith pre' s'
  | String _ _, "" => false
  end.

Fixpoint all_chars (p : ascii → bool) (s : string) : bool :=
  match s with
  | String c s' => p c && all_chars p s'
  | "" => true
  end.

(** truth value of a [str] *)
Definition nonempty (s : string) : bool :=
  match s with "" => false | String _ _ => true end.

Fixpoint prefix_of_length (n : nat) (s : string) : string :=
  match n, s with
  | S n', String c s' => String c (prefix_of_length n' s')
  | _, _ => ""
  end.

(** [needle in hay] for two strings *)
Fixpoint contains (needle hay : string) : bool :=
  startswith needle hay ||
  match hay with
  | String _ hay' => contains needle hay'
  | "" => false
  end.

(** Iterating over a text file yields its lines, each one with its
    terminator; in text mode every terminator (LF, CR LF, CR) reads as LF. *)
Fixpoint lines_from (cur : string) (s : string) : list string :=
  match s with
  | "" => match cur with "" => [] | _ => [reverse cur] end
  | String c s' =>
      if bool_decide (c = "010"%char) then
        reverse (String "010"%char cur) :: lines_from "" s'
      else if bool_decide (c = "013"%char) then
        reverse (String "010"%char cur) ::
          match s' with
          | String c' s'' =>
              if bool_decide (c' = "010"%char) then lines_from "" s''
              else lines_from "" s'
          | "" => []
          end
      else lines_from (String c cur) s'
  end.

Definition readlines (text : string) : list string := lines_from "" text.

(** *** The [re] patterns of the analyzer

    A backtracking matcher in continuation-passing style for the operators
    the two patterns of the analyzer are built from.  Repetition applies to
    character sets only, which keeps the matcher structural. *)

Inductive regex :=
  | RBol                            (* ^ *)
  | RPlus (cls : ascii → bool)      (* [...]+ , greedy *)
  | RStar (cls : ascii → bool)      (* [...]* , greedy *)
  | RSeq (r1 r2 : regex)
  | ROpt (r : regex)                (* (?:...)? , greedy *)
  | RGroup (i : nat) (r : regex).   (* capturing group number i *)

(** The outcome of a match: the text after the match and the groups that
    took part in it. *)
Definition captures := gmap nat string.
Definition outcome := option (string * captures).
Definition cont := string → captures → outcome.

(** Greedy repetition of a character set: the longest run first, then one
    character less at a time until the continuation accepts. *)
Fixpoint star (cls : ascii → bool) (s : string) (k : string → outcome) : outcome :=
  match s with
  | String c s' =>
      if cls c then
        match star cls s' k with
        | Some r => Some r
        | None => k s
        end
      else k s
  | "" => k s
  end.

Definition consumed (s rest : string) : string :=
  prefix_of_length (String.length s - String.length rest) s.

Fixpoint run (r : regex) (whole s : string) (caps : captures) (k : cont) : outcome :=
  match r with
  | RBol =>
      if bool_decide (String.length s = String.length whole) then k s caps else None
  | RPlus cls =>
      match s with
      | String c s' => if cls c then star cls s' (λ rest, k rest caps) else None
      | "" => None
      end
  | RStar cls => star cls s (λ rest, k rest caps)
  | RSeq r1 r2 => run r1 whole s caps (λ rest caps', run r2 whole rest caps' k)
  | ROpt r' =>
      match run r' whole s caps k with
      | Some out => Some out
      | None => k s caps
      end
  | RGroup i r' =>
      run r' whole s caps (λ rest caps', k rest (<[i := consumed s rest]> caps'))
  end.

(** [re.match(pattern, s)]: a match anchored at the first character. *)
Definition re_match (r : regex) (s : string) : outcome :=
  run r s s ∅ (λ rest caps, Some (rest, caps)).

(** [re.sub(pattern, repl, s)] for a pattern that starts with [^]: such a
    pattern matches at offset 0 only, so at most that one match is replaced. *)
Definition re_sub_anchored (r : regex) (repl s : string) : string :=
  match re_match r s with
  | Some (rest, _) => repl +:+ rest
  | None => s
  end.

(** *** Exceptions and results *)

Inductive exn :=
  | FileNotFoundError | IsADirectoryError | OSError
  | ValueError | JSONDecodeError | UnicodeDecodeError
  | KeyError | IndexError | TypeError | AttributeError | OverflowError
  | RecursionError
  | Timeout | ConnectionError.

Global Instance exn_eq_dec : EqDecision exn.
Proof. solve_decision. Defined.

(** What evaluating an expression gives: a value, or a raised exception. *)
Inductive result (A : Type) :=
  | Ok (a : A)
  | Raise (e : exn).
Global Arguments Ok {A} a.
Global Arguments Raise {A} e.

Definition rbind {A B} (r : result A) (f : A → result B) : result B :=
  match r with
  | Ok a => f a
  | Raise e => Raise e
  end.

Notation "x ←! r ; k" := (rbind r (λ x, k))
  (at level 20, r at level 100, k at level 200, only parsing).

(** *** Values

    The values a decoded JSON document is made of.  Numbers are the integers:
    documents with fractional numbers are outside the model.  A [dict] keeps
    its items in insertion order. *)

#[local] Unset Elimination Schemes.
Inductive value :=
  | VNone
  | VBool (b : bool)
  | VInt (z : Z)
  | VStr (s : string)
  | VList (l : list value)
  | VDict (d : list (string * value)).
#[local] Set Elimination Schemes.

Definition dict := list (string * value).

Fixpoint dict_get (d : dict) (k : string) : option value :=
  match d with
  | (k', v) :: d' => if bool_decide (k' = k) then Some v else dict_get d' k
  | [] => None
  end.

(** [d[k] = v]: an existing key keeps its place, a new key goes last. *)
Fixpoint dict_set (d : dict) (k : string) (v : value) : dict :=
  match d with
  | (k', v') :: d' =>
      if bool_decide (k' = k) then (k, v) :: d' else (k', v') :: dict_set d' k v
  | [] => [(k, v)]
  end.

(** [{**d1, **d2}] *)
Definition dict_merge (d1 d2 : dict) : dict :=
  foldl (λ acc kv, dict_set acc kv.1 kv.2) [] (d1 ++ d2).

(** [bool(v)] *)
Definition truthy (v : value) : bool :=
  match v with
  | VNone => false
  | VBool b => b
  | VInt z => negb (z =? 0)
  | VStr s => nonempty s
  | VList l => match l with [] => false | _ => true end
  | VDict d => match d with [] => false | _ => true end
  end.

(** [a == b] *)
Fixpoint eqb (a b : value) {struct a} : bool :=
  let fix all2 (l1 l2 : list value) {struct l1} : bool :=
    match l1, l2 with
    | [], [] => true
    | x :: l1', y :: l2' => eqb x y && all2 l1' l2'
    | _, _ => false
    end in
  let fix included (d1 : dict) (d2 : dict) {struct d1} : bool :=
    match d1 with
    | [] => true
    | (k, x) :: d1' =>
        match dict_get d2 k with
        | Some y => eqb x y && included d1' d2
        | None => false
        end
    end in
  match a, b with
  | VNone, VNone => true
  | VBool x, VBool y => bool_decide (x = y)
  | VBool x, VInt y => (if x then 1 else 0) =? y
  | VInt x, VBool y => x =? (if y then 1 else 0)
  | VInt x, VInt y => x =? y
  | VStr x, VStr y => bool_decide (x = y)
  | VList x, VList y => all2 x y
  | VDict x, VDict y => bool_decide (length x = length y) && included x y
  | _, _ => false
  end.

(** Whether a value can be a [dict] key or be looked up in a [dict]. *)
Definition hashable (v : value) : bool :=
  match v with
  | VList _ | VDict _ => false
  | _ => true
  end.

(** The integer a value stands for when it is used as an index. *)
Definition as_index (v : value) : option Z :=
  match v with
  | VInt z => Some z
  | VBool b => Some (if b then 1 else 0)
  | _ => None
  end.

(** [seq[i]] for a sequence of length [n]: negative indices count from the
    end. *)
Definition index_in {A} (l : list A) (i : Z) : result A :=
  let n := Z.of_nat (length l) in
  let j := if i <? 0 then i + n else i in
  if (0 <=? j) && (j <? n) then
    match l !! Z.to_nat j with
    | Some a => Ok a
    | None => Raise IndexError
    end
  else Raise IndexError.

Fixpoint chars (s : string) : list string :=
  match s with
  | String c s' => String c "" :: chars s'
  | "" => []
  end.

(** [c[k]] *)
Definition getitem (c k : value) : result value :=
  match c with
  | VDict d =>
      match k with
      | VStr key =>
          match dict_get d key with
          | Some v => Ok v
          | None => Raise KeyError
          end
      | _ => if hashable k then Raise KeyError else Raise TypeError
      end
  | VList l =>
      match as_index k with
      | Some i => index_in l i
      | None => Raise TypeError
      end
  | VStr s =>
      match as_index k with
      | Some i => v ←! index_in (chars s) i; Ok (VStr v)
      | None => Raise TypeError
      end
  | _ => Raise TypeError
  end.

(** [x in c] *)
Definition contains_value (x c : value) : result bool :=
  match c with
  | VDict d =>
      match x with
      | VStr key => Ok (bool_decide (is_Some (dict_get d key)))
      | _ => if hashable x then Ok false else Raise TypeError
      end
  | VList l => Ok (existsb (eqb x) l)
  | VStr s =>
      match x with
      | VStr sub => Ok (contains sub s)
      | _ => Raise TypeError
      end
  | _ => Raise TypeError
  end.

(** [c.get(key, default)]: only a [dict] has the method. *)
Definition get_method (c : value) (key : string) (default : value) : result value :=
  match c with
  | VDict d => Ok (from_option id default (dict_get d key))
  | _ => Raise AttributeError
  end.

(** [for x in c]: the items a value yields when iterated over. *)
Definition iterate (c : value) : result (list value) :=
  match c with
  | VList l => Ok l
  | VDict d => Ok (map (λ kv, VStr kv.1) d)
  | VStr s => Ok (map VStr (chars s))
  | _ => Raise TypeError
  end.

(** [a + b] with an [int] on the left, as in [sum] started from [0]. *)
Definition int_add (a : Z) (b : value) : result Z :=
  match as_index b with
  | Some z => Ok (a + z)
  | None => Raise TypeError
  end.

(** *** binary64 floats

    [float] is IEEE 754 binary64 with rounding to nearest, ties to even; the
    specification of the Standard Library is used as it is. *)

Definition prec : Z := 53.
Definition emax : Z := 1024.

(** [float(z)], the conversion applied to the [int] operand of a mixed
    product: correctly rounded, [OverflowError] beyond the finite range. *)
Definition float_of_int (z : Z) : result spec_float :=
  match binary_normalize prec emax z 0 false with
  | S754_infinity _ => Raise OverflowError
  | f => Ok f
  end.

(** [x * y] on floats *)
Definition float_mul (x y : spec_float) : spec_float := SFmul prec emax x y.

(** [int(x)]: truncation towards zero *)
Definition int_of_float (x : spec_float) : result Z :=
  match x with
  | S754_zero _ => Ok 0
  | S754_finite s m e =>
      let magnitude := if 0 <=? e then Z.pos m * 2 ^ e else Z.pos m / 2 ^ (- e) in
      Ok (if s then - magnitude else magnitude)
  | S754_infinity _ => Raise OverflowError
  | S754_nan => Raise ValueError
  end.

(** The literal [0.15]: the double nearest to 15/100, [0x1.3333333333333p-3]. *)
Definition lit_0_15 : spec_float := S754_finite false 5404319552844595 (-55).

(** [z * 0.15] for an [int] [z] *)
Definition int_times_float (z : Z) (y : spec_float) : result spec_float :=
  x ←! float_of_int z; Ok (float_mul x y).

End Py.

(** ** Requirement lines ([_analyze_python_requirements], the parsing part) *)

(** the set [[a-zA-Z0-9\-._]] *)
Definition is_name_char (c : ascii) : bool :=
  Py.islower c || Py.isupper c || Py.isdigit c ||
  bool_decide (c = "-"%char) || bool_decide (c = "."%char) || bool_decide (c = "_"%char).

(** the set [[=<>!]] *)
Definition is_cmp_char (c : ascii) : bool :=
  bool_decide (c = "="%char) || bool_decide (c = "<"%char) ||
  bool_decide (c = ">"%char) || bool_decide (c = "!"%char).

(** [^([a-zA-Z0-9\-._]+)(?:[=<>!]+([a-zA-Z0-9\-._]+))?] *)
Definition requirement_pattern : Py.regex :=
  Py.RSeq Py.RBol
    (Py.RSeq (Py.RGroup 1 (Py.RPlus is_name_char))
       (Py.ROpt (Py.RSeq (Py.RPlus is_cmp_char)
                         (Py.RGroup 2 (Py.RPlus is_name_char))))).

(** Lines 70 to 75: what one line of the file contributes, before any
    lookup: nothing, or a package name and a version ([version or ""]). *)
Definition requirement_of_line (line : string) : option (string * string) :=
  let line := Py.strip line in
  if Py.nonempty line && negb (Py.startswith "#" line) then
    match Py.re_match requirement_pattern line with
    | Some (_, groups) =>
        let package_name := default "" (groups !! 1%nat) in
        let version := groups !! 2%nat in
        Some (package_name, default "" version)
    | None => None
    end
  else None.


(** ** The analyzer and its environment *)

Import Py.

(** [PackageInfo].  The registry decides what [size], [description] and
    [latest_version] hold, so they are values; the other fields are built by
    the analyzer itself. *)
Record PackageInfo := {
  name : string;
  size : value;
  is_paid : bool;
  version : string;
  description : value;
  latest_version : value;
  vulnerabilities : string;
}.

Record DockerSizeInfo := {
  full : Z;
  slim : Z;
  alpine : Z;
}.

(** *** The world outside the analyzer *)

Inductive file :=
  | RegularFile (text : string)
  | Directory.

(** An HTTP response: its status and what [response.json()] gives
    ([None] when the body does not decode). *)
Record response := {
  status_code : Z;
  json_body : option value;
}.

Inductive lookup := SizeLookup | DescriptionLookup | VersionLookup.

Global Instance lookup_eq_dec : EqDecision lookup.
Proof. solve_decision. Defined.

(** How [subprocess.run(argv, capture_output=True).stdout.decode()] ends:
    with the decoded output of the tool, or with the exception of a tool
    that could not be started, or of an output that is not UTF-8. *)
Inductive tool_outcome :=
  | Printed (stdout : string)
  | MissingExecutable
  | LaunchFailed
  | Undecodable.

(** What the analyzer does to the outside, in order. *)
Inductive event :=
  | Request (purpose : lookup) (url : string)
  | Subprocess (argv : list string)
  | Print (message : string)
  | PrintError (message : string) (e : exn).

Global Instance event_eq_dec : EqDecision event.
Proof. solve_decision. Defined.

(** How [json.load(f)] fails on a file: the content is not JSON; the
    content is not text in the encoding of [open], so that reading it fails;
    an integer literal has more digits than [int] takes from a string; the
    nesting is deeper than the recursion limit. *)
Inductive load_failure :=
  | NotJSON
  | NotText
  | IntegerTooLong
  | NestingTooDeep.

(** The exception each failure raises. *)
Definition raised_by (failure : load_failure) : exn :=
  match failure with
  | NotJSON => JSONDecodeError
  | NotText => UnicodeDecodeError
  | IntegerTooLong => ValueError
  | NestingTooDeep => RecursionError
  end.

(** The environment answers each interaction; the answer may depend on the
    moment, counted in interactions so far, so that a registry which fails
    once may answer later.
    - [fs]: the file system, for [os.path.exists] and [open];
    - [json_loads]: what [json.load] returns on a file of the given content,
      [None] when it raises;
    - [json_failure]: how [json.load] fails on such a file, when it does;
    - [requests_get]: [requests.get(url)], a response or an exception;
    - [run_tool]: [subprocess.run(argv, capture_output=True).stdout.decode()]. *)
Record World := {
  fs : string → option file;
  json_loads : string → option value;
  json_failure : string → load_failure;
  requests_get : nat → string → result response;
  run_tool : nat → list string → tool_outcome;
}.

(** *** The analyzer object: the two caches, and the trace of what it did *)
Record analyzer := {
  pypi_cache : gmap string value;
  npm_cache : gmap string value;
  trace : list event;
}.

(** [LocalRequirementsAnalyzer()] *)
Definition init : analyzer :=
  {| pypi_cache := ∅; npm_cache := ∅; trace := [] |}.

Definition known_paid_services (package_type : string) : option (list string) :=
  if bool_decide (package_type = "python") then Some ["private-package"; "enterprise-pkg"]
  else if bool_decide (package_type = "node") then Some ["private-module"; "enterprise-pkg"]
  else None.

Definition MiB : Z := 1024 * 1024.

Definition base_sizes (package_type : string) : option DockerSizeInfo :=
  if bool_decide (package_type = "python") then
    Some {| full := 100 * MiB; slim := 40 * MiB; alpine := 15 * MiB |}
  else if bool_decide (package_type = "node") then
    Some {| full := 85 * MiB; slim := 35 * MiB; alpine := 12 * MiB |}
  else None.

(** *** Computations of the analyzer: state passing with exceptions *)

Definition M (A : Type) : Type := analyzer → result A * analyzer.

Definition ret {A} (a : A) : M A := λ st, (Ok a, st).

Definition bind {A B} (m : M A) (f : A → M B) : M B :=
  λ st, match m st with
        | (Ok a, st') => f a st'
        | (Raise e, st') => (Raise e, st')
        end.

Notation "x ←$ m ; k" := (bind m (λ x, k))
  (at level 20, m at level 100, k at level 200, only parsing).

Definition lift {A} (r : result A) : M A := λ st, (r, st).

(** [try: m except Exception as e: h e] *)
Definition try_except {A} (m : M A) (h : exn → M A) : M A :=
  λ st, match m st with
        | (Raise e, st') => h e st'
        | out => out
        end.

(** [try: m except json.JSONDecodeError: h] *)
Definition try_except_json {A} (m : M A) (h : M A) : M A :=
  λ st, match m st with
        | (Raise JSONDecodeError, st') => h st'
        | out => out
        end.

Definition emit (ev : event) : M unit :=
  λ st, (Ok tt, {| pypi_cache := pypi_cache st; npm_cache := npm_cache st;
                   trace := trace st ++ [ev] |}).

Definition print (message : string) : M unit := emit (Print message).

Definition print_error (message : string) (e : exn) : M unit :=
  emit (PrintError message e).

Definition pypi_cache_put (k : string) (v : value) : M unit :=
  λ st, (Ok tt, {| pypi_cache := <[k := v]> (pypi_cache st); npm_cache := npm_cache st;
                   trace := trace st |}).

Definition npm_cache_put (k : string) (v : value) : M unit :=
  λ st, (Ok tt, {| pypi_cache := pypi_cache st; npm_cache := <[k := v]> (npm_cache st);
                   trace := trace st |}).

Definition pypi_url (package_name : string) : string :=
  "https://pypi.org/pypi/" +:+ package_name +:+ "/json".

Definition npm_url (package_name : string) : string :=
  "https://registry.npmjs.org/" +:+ package_name.

(** [response.json()] *)
Definition json (r : response) : result value :=
  match json_body r with
  | Some data => Ok data
  | None => Raise JSONDecodeError
  end.

(** [[f for f in files if f['packagetype'] == packagetype]] *)
Fixpoint of_packagetype (packagetype : string) (files : list value) : result (list value) :=
  match files with
  | [] => Ok []
  | f :: files' =>
      t ←! getitem f (VStr "packagetype");
      rest ←! of_packagetype packagetype files';
      Ok (if eqb t (VStr packagetype) then f :: rest else rest)
  end.

(** Lines 132 to 141: the size in a PyPI answer, [None] when one of the two
    guards sends control to the final [return 0]. *)
Definition pypi_release_size (data : value) : result (option value) :=
  has_info ←! contains_value (VStr "info") data;
  has_version ←!
    (if has_info then
       info ←! getitem data (VStr "info"); contains_value (VStr "version") info
     else Ok false);
  if has_version then
    info ←! getitem data (VStr "info");
    latest_version ←! getitem info (VStr "version");
    releases ←! getitem data (VStr "releases");
    listed ←! contains_value latest_version releases;
    if listed then
      files ←! getitem releases latest_version;
      items ←! iterate files;
      wheel_files ←! of_packagetype "bdist_wheel" items;
      size ←!
        match wheel_files with
        | wheel :: _ => getitem wheel (VStr "size")
        | [] =>
            sdist_files ←! of_packagetype "sdist" items;
            match sdist_files with
            | sdist :: _ => getitem sdist (VStr "size")
            | [] => Ok (VInt 0)
            end
        end;
      Ok (Some size)
    else Ok None
  else Ok None.

(** Lines 156 to 159, likewise for an npm answer. *)
Definition npm_version_size (data : value) : result (option value) :=
  tags ←! getitem data (VStr "dist-tags");
  latest_version ←! get_method tags "latest" (VStr "");
  if truthy latest_version then
    versions ←! getitem data (VStr "versions");
    listed ←! contains_value latest_version versions;
    if listed then
      version_data ←! getitem versions latest_version;
      dist ←! getitem version_data (VStr "dist");
      fallback ←! get_method dist "size" (VInt 0);
      size ←! get_method dist "unpackedSize" fallback;
      Ok (Some size)
    else Ok None
  else Ok None.

Section Analyzer.

Variable w : World.

(** [requests.get(url, ...)], made for the given purpose *)
Definition get (purpose : lookup) (url : string) : M response :=
  λ st, (requests_get w (length (trace st)) url,
         {| pypi_cache := pypi_cache st; npm_cache := npm_cache st;
            trace := trace st ++ [Request purpose url] |}).

(** [subprocess.run(argv, capture_output=True).stdout.decode()] *)
Definition run_and_decode (argv : list string) : M string :=
  λ st, (match run_tool w (length (trace st)) argv with
         | Printed stdout => Ok stdout
         | MissingExecutable => Raise FileNotFoundError
         | LaunchFailed => Raise OSError
         | Undecodable => Raise UnicodeDecodeError
         end,
         {| pypi_cache := pypi_cache st; npm_cache := npm_cache st;
            trace := trace st ++ [Subprocess argv] |}).

Definition _get_pypi_package_size (package_name : string) : M value :=
  λ st,
    match pypi_cache st !! package_name with
    | Some size => ret size st
    | None =>
        (found ←$ try_except
                    (response ←$ get SizeLookup (pypi_url package_name);
                     if status_code response =? 200 then
                       data ←$ lift (json response);
                       found ←$ lift (pypi_release_size data);
                       match found with
                       | Some size =>
                           _ ←$ pypi_cache_put package_name size; ret (Some size)
                       | None => ret None
                       end
                     else ret None)
                    (λ e, _ ←$ print_error
                                 ("Error fetching PyPI package size for " +:+ package_name) e;
                          ret None);
         ret (default (VInt 0) found)) st
    end.

Definition _get_npm_package_size (package_name : string) : M value :=
  λ st,
    match npm_cache st !! package_name with
    | Some size => ret size st
    | None =>
        (found ←$ try_except
                    (response ←$ get SizeLookup (npm_url package_name);
                     if status_code response =? 200 then
                       data ←$ lift (json response);
                       found ←$ lift (npm_version_size data);
                       match found with
                       | Some size =>
                           _ ←$ npm_cache_put package_name size; ret (Some size)
                       | None => ret None
                       end
                     else ret None)
                    (λ e, _ ←$ print_error
                                 ("Error fetching npm package size for " +:+ package_name) e;
                          ret None);
         ret (default (VInt 0) found)) st
    end.

Definition _is_paid_package (package_name package_type : string) : result bool :=
  match known_paid_services package_type with
  | Some names => Ok (bool_decide (package_name ∈ names))
  | None => Raise KeyError
  end.

Definition no_description : value := VStr "No description available".

Definition _get_pypi_package_description (package_name : string) : M value :=
  found ←$ try_except
             (response ←$ get DescriptionLookup (pypi_url package_name);
              if status_code response =? 200 then
                data ←$ lift (json response);
                info ←$ lift (getitem data (VStr "info"));
                text ←$ lift (get_method info "description" no_description);
                ret (Some text)
              else ret None)
             (λ e, _ ←$ print_error
                          ("Error fetching PyPI package description for " +:+ package_name) e;
                   ret None);
  ret (default no_description found).

Definition _get_npm_package_description (package_name : string) : M value :=
  found ←$ try_except
             (response ←$ get DescriptionLookup (npm_url package_name);
              if status_code response =? 200 then
                data ←$ lift (json response);
                text ←$ lift (get_method data "description" no_description);
                ret (Some text)
              else ret None)
             (λ e, _ ←$ print_error
                          ("Error fetching NPM package description for " +:+ package_name) e;
                   ret None);
  ret (default no_description found).

Definition _check_security_vulnerabilities (package_name package_type : string) : M string :=
  if bool_decide (package_type = "python") then
    out ←$ run_and_decode ["safety"; "check"; "--bare"; "--dependency"; package_name];
    ret (strip out)
  else if bool_decide (package_type = "node") then
    out ←$ run_and_decode ["npm"; "audit"; "package"; package_name];
    ret (strip out)
  else ret "No security audit available".

Definition _get_latest_pypi_version (package_name : string) : M value :=
  found ←$ try_except
             (response ←$ get VersionLookup (pypi_url package_name);
              if status_code response =? 200 then
                data ←$ lift (json response);
                info ←$ lift (getitem data (VStr "info"));
                latest ←$ lift (getitem info (VStr "version"));
                ret (Some latest)
              else ret None)
             (λ e, _ ←$ print_error
                          ("Error fetching PyPI package version for " +:+ package_name) e;
                   ret None);
  ret (default (VStr "") found).

Definition _get_latest_npm_version (package_name : string) : M value :=
  found ←$ try_except
             (response ←$ get VersionLookup (npm_url package_name);
              if status_code response =? 200 then
                data ←$ lift (json response);
                tags ←$ lift (getitem data (VStr "dist-tags"));
                latest ←$ lift (getitem tags (VStr "latest"));
                ret (Some latest)
              else ret None)
             (λ e, _ ←$ print_error
                          ("Error fetching npm package version for " +:+ package_name) e;
                   ret None);
  ret (default (VStr "") found).

(** Lines 77 to 91: the five lookups for one requirement of a
    requirements file, and the record built from them. *)
Definition python_package (package_name version : string) : M PackageInfo :=
  size ←$ _get_pypi_package_size package_name;
  is_paid ←$ lift (_is_paid_package package_name "python");
  description ←$ _get_pypi_package_description package_name;
  latest_version ←$ _get_latest_pypi_version package_name;
  vulnerabilities ←$ _check_security_vulnerabilities package_name "python";
  ret {| name := package_name; size := size; is_paid := is_paid; version := version;
         description := description; latest_version := latest_version;
         vulnerabilities := vulnerabilities |}.

(** [open(path, 'r')] followed by reading the whole text *)
Definition open_read (path : string) : M string :=
  lift match fs w path with
       | Some (RegularFile text) => Ok text
       | Some Directory => Raise IsADirectoryError
       | None => Raise FileNotFoundError
       end.

(** The loop of lines 69 to 91 over the lines still to read. *)
Fixpoint python_lines (lines : list string) (results : list PackageInfo)
    : M (list PackageInfo) :=
  match lines with
  | [] => ret results
  | line :: lines' =>
      match requirement_of_line line with
      | Some (package_name, version) =>
          info ←$ python_package package_name version;
          python_lines lines' (results ++ [info])
      | None => python_lines lines' results
      end
  end.

Definition _analyze_python_requirements (requirements_path : string)
    : M (list PackageInfo) :=
  text ←$ open_read requirements_path;
  python_lines (readlines text) [].

(** What [**x] accepts inside a dict display. *)
Definition as_mapping (v : value) : result dict :=
  match v with
  | VDict d => Ok d
  | _ => Raise TypeError
  end.

(** Line 100:
    [{**package_data.get('dependencies', {}), **package_data.get('devDependencies', {})}] *)
Definition all_deps_of (package_data : value) : result dict :=
  dependencies ←! get_method package_data "dependencies" (VDict []);
  d1 ←! as_mapping dependencies;
  dev_dependencies ←! get_method package_data "devDependencies" (VDict []);
  d2 ←! as_mapping dev_dependencies;
  Ok (dict_merge d1 d2).

(** [^[^0-9]*] *)
Definition version_prefix_pattern : regex :=
  RSeq RBol (RStar (λ c, negb (isdigit c))).

(** Line 103: [re.sub(r'^[^0-9]*', '', version)] *)
Definition clean_version_of (version : value) : result string :=
  match version with
  | VStr v => Ok (re_sub_anchored version_prefix_pattern "" v)
  | _ => Raise TypeError
  end.

(** Lines 103 to 118 for one item of [all_deps]. *)
Definition node_package (package_name : string) (version : value) : M PackageInfo :=
  clean_version ←$ lift (clean_version_of version);
  size ←$ _get_npm_package_size package_name;
  is_paid ←$ lift (_is_paid_package package_name "node");
  description ←$ _get_npm_package_description package_name;
  latest_version ←$ _get_latest_npm_version package_name;
  vulnerabilities ←$ _check_security_vulnerabilities package_name "node";
  ret {| name := package_name; size := size; is_paid := is_paid; version := clean_version;
         description := description; latest_version := latest_version;
         vulnerabilities := vulnerabilities |}.

Fixpoint node_items (items : dict) (results : list PackageInfo) : M (list PackageInfo) :=
  match items with
  | [] => ret results
  | (package_name, version) :: items' =>
      info ←$ node_package package_name version;
      node_items items' (results ++ [info])
  end.

(** [json.load(f)] *)
Definition json_load (text : string) : result value :=
  match json_loads w text with
  | Some data => Ok data
  | None => Raise (raised_by (json_failure w text))
  end.

Definition _analyze_node_requirements (package_json_path : string)
    : M (list PackageInfo) :=
  text ←$ open_read package_json_path;
  try_except_json
    (package_data ←$ lift (json_load text);
     all_deps ←$ lift (all_deps_of package_data);
     node_items all_deps [])
    (_ ←$ print "Error: Invalid package.json file"; ret []).

(** [os.path.exists(path)] *)
Definition path_exists (path : string) : bool := bool_decide (is_Some (fs w path)).

Definition analyze_requirements (file_path file_type : string) : M (list PackageInfo) :=
  if negb (path_exists file_path) then lift (Raise FileNotFoundError)
  else if bool_decide (file_type = "python") then _analyze_python_requirements file_path
  else if bool_decide (file_type = "node") then _analyze_node_requirements file_path
  else lift (Raise ValueError).

Fixpoint all_projects (file_paths : list string) (file_type : string)
    (all_packages : list PackageInfo) : M (list PackageInfo) :=
  match file_paths with
  | [] => ret all_packages
  | path :: file_paths' =>
      packages ←$ analyze_requirements path file_type;
      all_projects file_paths' file_type (all_packages ++ packages)
  end.

Definition analyze_multiple_projects (file_paths : list string) (file_type : string)
    : M (list PackageInfo) :=
  all_projects file_paths file_type [].

End Analyzer.

(** *** The estimator and the conflict detector *)

(** [sum(pkg.size for pkg in packages)], from the running total [acc] *)
Fixpoint sum_sizes (acc : Z) (packages : list PackageInfo) : result Z :=
  match packages with
  | [] => Ok acc
  | pkg :: packages' => acc' ←! int_add acc (size pkg); sum_sizes acc' packages'
  end.

Definition estimate_docker_sizes (packages : list PackageInfo) (package_type : string)
    : result DockerSizeInfo :=
  packages_size ←! sum_sizes 0 packages;
  product ←! int_times_float packages_size lit_0_15;
  overhead ←! int_of_float product;
  base ←! match base_sizes package_type with
          | Some sizes => Ok sizes
          | None => Raise KeyError
          end;
  Ok {| full := full base + packages_size + overhead;
        slim := slim base + packages_size + overhead;
        alpine := alpine base + packages_size + overhead |}.

Definition conflict : Type := string * string * string.

Fixpoint conflicts_from (package_list : list PackageInfo)
    (version_map : gmap string string) (conflicts : list conflict) : list conflict :=
  match package_list with
  | [] => conflicts
  | package :: package_list' =>
      match version_map !! name package with
      | None =>
          conflicts_from package_list'
            (<[name package := version package]> version_map) conflicts
      | Some seen =>
          if bool_decide (seen ≠ version package) then
            conflicts_from package_list' version_map
              (conflicts ++ [(name package, seen, version package)])
          else conflicts_from package_list' version_map conflicts
      end
  end.

Definition _check_for_conflicts (package_list : list PackageInfo) : list conflict :=
  conflicts_from package_list ∅ [].

(** ** Notions used to state the properties *)

(** A package declared with a name and a version, nothing resolved. *)
Definition declared (n v : string) : PackageInfo :=
  {| name := n; size := VInt 0; is_paid := false; version := v;
     description := VStr ""; latest_version := VStr ""; vulnerabilities := "" |}.

(** The version recorded for a name: the one on the map, else the one of
    the first package of that name in the list. *)
Definition first_seen (version_map : gmap string string) (l : list PackageInfo)
    (n : string) : option string :=
  match version_map !! n with
  | Some v => Some v
  | None => version <$> find (λ q, bool_decide (name q = n)) l
  end.

(** The record a package gives rise to, if any, given the first version
    seen for its name. *)
Definition conflict_against (seen : option string) (p : PackageInfo) : option conflict :=
  match seen with
  | Some v => if bool_decide (v ≠ version p) then Some (name p, v, version p) else None
  | None => None
  end.

(** A world to run the analyzer in: a requirements file, three manifests
    (one declaring [a] twice, one declaring nothing, one that is not JSON),
    a registry that knows [flask] and times out on everything else, and
    audit tools that print nothing. *)
Definition flask_answer : response :=
  {| status_code := 200;
     json_body := Some (VDict
       [("info", VDict [("version", VStr "3.0.0"); ("description", VStr "A microframework")]);
        ("releases", VDict
           [("3.0.0", VList
               [VDict [("packagetype", VStr "sdist"); ("size", VInt 680000)];
                VDict [("packagetype", VStr "bdist_wheel"); ("size", VInt 101000)]])])]) |}.

Definition sample_world : World :=
  {| fs := λ path,
       if bool_decide (path = "requirements.txt") then
         Some (RegularFile ("flask==2.0.1" +:+ String "010" ("requests" +:+ String "010" "")))
       else if bool_decide (path = "package.json") then Some (RegularFile "{a, a}")
       else if bool_decide (path = "empty.json") then Some (RegularFile "{}")
       else if bool_decide (path = "broken.json") then Some (RegularFile "{")
       else None;
     json_loads := λ text,
       if bool_decide (text = "{a, a}") then
         Some (VDict [("name", VStr "demo");
                      ("dependencies", VDict [("a", VStr "^1.0.0")]);
                      ("devDependencies", VDict [("a", VStr "2.0.0")])])
       else if bool_decide (text = "{}") then Some (VDict [])
       else None;
     json_failure := λ _, NotJSON;
     requests_get := λ _ url,
       if bool_decide (url = pypi_url "flask") then Ok flask_answer else Raise Timeout;
     run_tool := λ _ _, Printed "" |}.

(** The same world on a machine where [safety] is not installed. *)
Definition world_without_safety : World :=
  {| fs := fs sample_world;
     json_loads := json_loads sample_world;
     json_failure := json_failure sample_world;
     requests_get := requests_get sample_world;
     run_tool := λ _ argv,
       match argv with
       | "safety" :: _ => MissingExecutable
       | _ => Printed ""
       end |}.

(** A computation that never raises. *)
Definition total {A} (m : M A) : Prop :=
  ∀ st, ∃ a st', m st = (Ok a, st').

(** A mapping from names to version strings, as a manifest declares it. *)
Definition text_items (d : list (string * string)) : dict :=
  map (λ kv, (kv.1, VStr kv.2)) d.

Fixpoint lookup_text (d : list (string * string)) (k : string) : option string :=
  match d with
  | (k', v) :: d' => if bool_decide (k' = k) then Some v else lookup_text d' k
  | [] => None
  end.

(** The version a manifest declares for a name: the [devDependencies] entry
    when there is one, else the [dependencies] entry. *)
Definition declared_version (deps devs : list (string * string)) (n : string)
    : option string :=
  match lookup_text devs n with
  | Some raw => Some raw
  | None => lookup_text deps n
  end.

(** A version string without its leading characters that are not digits. *)
Definition bare_version (raw : string) : string :=
  drop_while (λ c, negb (isdigit c)) raw.

(** *** The size caches *)

Inductive registry := PyPI | Npm.

Global Instance registry_eq_dec : EqDecision registry.
Proof. solve_decision. Defined.

Definition cache_of (r : registry) (st : analyzer) : gmap string value :=
  match r with PyPI => pypi_cache st | Npm => npm_cache st end.

Definition other (r : registry) : registry :=
  match r with PyPI => Npm | Npm => PyPI end.

Definition url_of (r : registry) (package_name : string) : string :=
  match r with PyPI => pypi_url package_name | Npm => npm_url package_name end.

Definition get_package_size (w : World) (r : registry) : string → M value :=
  match r with PyPI => _get_pypi_package_size w | Npm => _get_npm_package_size w end.

(** The size a registry answer carries: there is one when the request
    returns, with status 200 and a body that decodes, and the walk through
    the document reaches the statement that stores the size. *)
Definition answered_size (r : registry) (answer : result response) : option value :=
  match answer with
  | Ok resp =>
      if status_code resp =? 200 then
        match json_body resp with
        | Some data =>
            match match r with
                  | PyPI => pypi_release_size data
                  | Npm => npm_version_size data
                  end with
            | Ok (Some v) => Some v
            | _ => None
            end
        | None => None
        end
      else None
  | Raise _ => None
  end.

(** The [t]-th interaction of the run is a size lookup for the package. *)
Definition looked_up (st : analyzer) (r : registry) (n : string) (t : nat) : Prop :=
  trace st !! t = Some (Request SizeLookup (url_of r n)).

(** What a size lookup for the package made at moment [t] is answered. *)
Definition succeeded (w : World) (r : registry) (n : string) (t : nat) : option value :=
  answered_size r (requests_get w t (url_of r n)).

(** The caches against the trace: a cached size was obtained by a lookup of
    this run that succeeded; a lookup that succeeded is cached; and no size
    lookup for a package comes after one that succeeded. *)
Record cache_invariant (w : World) (st : analyzer) : Prop := {
  cached_was_fetched : ∀ r n v,
    cache_of r st !! n = Some v →
    ∃ t, looked_up st r n t ∧ succeeded w r n t = Some v;
  fetched_is_cached : ∀ r n t v,
    looked_up st r n t → succeeded w r n t = Some v → cache_of r st !! n = Some v;
  no_lookup_after_success : ∀ r n t t',
    looked_up st r n t → is_Some (succeeded w r n t) → looked_up st r n t' → (t' ≤ t)%nat;
}.

(** The later state keeps every cache entry and every event of the earlier. *)
Definition extends (st st' : analyzer) : Prop :=
  (∀ r, cache_of r st ⊆ cache_of r st') ∧ trace st `prefix_of` trace st'.

(** Events that are not size lookups. *)
Definition quiet (evs : list event) : Prop :=
  Forall (λ ev, ∀ url, ev ≠ Request SizeLookup url) evs.

(** A computation that keeps the invariant of the caches. *)
Definition preserving (w : World) {A} (m : M A) : Prop :=
  ∀ st r st', m st = (r, st') →
    cache_invariant w st → cache_invariant w st' ∧ extends st st'.

(** An analyzer that has looked [flask] up on PyPI and cached its size. *)
Definition warm : analyzer :=
  {| pypi_cache := {["flask" := VInt 101000]};
     npm_cache := ∅;
     trace := [Request SizeLookup "https://pypi.org/pypi/flask/json"] |}.

(** The least total of sizes for which the overhead computed in floating
    point is not the floor of 15 % of the total (about 6.67 PiB). *)
Definition first_inexact_total : Z := 7505999378950833.

(** A resolved package of the given size. *)
Definition sized (z : Z) : PackageInfo :=
  {| name := "dataset"; size := VInt z; is_paid := false; version := "";
     description := VStr ""; latest_version := VStr ""; vulnerabilities := "" |}.

(** *** Registry documents *)

(** The [packagetype] entry of a release file, when the file is a [dict]
    that has one. *)
Definition packagetype_of (f : value) : option value :=
  match f with
  | VDict d => dict_get d "packagetype"
  | _ => None
  end.

(** A release file of the given kind. *)
Definition is_kind (packagetype : string) (f : value) : bool :=
  match packagetype_of f with
  | Some t => eqb t (VStr packagetype)
  | None => false
  end.

(** *** The lookups of one resolution *)

(** The two lookups that are made afresh for every package. *)
Inductive detail := Description | LatestVersion.

Definition get_detail (w : World) (r : registry) (d : detail) : string → M value :=
  match r, d with
  | PyPI, Description => _get_pypi_package_description w
  | Npm, Description => _get_npm_package_description w
  | PyPI, LatestVersion => _get_latest_pypi_version w
  | Npm, LatestVersion => _get_latest_npm_version w
  end.

Definition purpose_of (d : detail) : lookup :=
  match d with Description => DescriptionLookup | LatestVersion => VersionLookup end.

(** What a detail lookup returns when it gets nothing from the registry. *)
Definition fallback_of (d : detail) : value :=
  match d with Description => no_description | LatestVersion => VStr "" end.

(** The events in which the analyzer reaches out: requests and tool runs,
    as opposed to what it prints. *)
Definition is_interaction (ev : event) : bool :=
  match ev with
  | Request _ _ | Subprocess _ => true
  | Print _ | PrintError _ _ => false
  end.

Definition interactions (evs : list event) : list event := List.filter is_interaction evs.

(** An error reported from a handler. *)
Definition is_report (ev : event) : bool :=
  match ev with PrintError _ _ => true | _ => false end.

Definition ecosystem (r : registry) : string :=
  match r with PyPI => "python" | Npm => "node" end.

(** The resolution of one declared package, in either ecosystem. *)
Definition resolve (w : World) (r : registry) (package_name version : string)
    : M PackageInfo :=
  match r with
  | PyPI => python_package w package_name version
  | Npm => node_package w package_name (VStr version)
  end.

Definition recorded_version (r : registry) (version : string) : string :=
  match r with PyPI => version | Npm => bare_version version end.

Definition audit_argv (r : registry) (package_name : string) : list string :=
  match r with
  | PyPI => ["safety"; "check"; "--bare"; "--dependency"; package_name]
  | Npm => ["npm"; "audit"; "package"; package_name]
  end.

(** ** The rest of the analyzer, and the command line *)

(** [_get_package_cost_estimation] *)
Definition _get_package_cost_estimation (package_name package_type : string) : string :=
  if bool_decide (package_name ∈ default [] (known_paid_services package_type))
  then "The enterprise package for " +:+ package_name +:+ " costs $XYZ/month"
  else "This package is free.".

(** What [main] needs from the machine besides the world of the analyzer:
    [open_for_writing] is [open(path, 'w')], and [to_string] is the layout
    pandas gives to the rows of the overview,
    [pd.DataFrame(rows).to_string(index=False)]. *)
Record Host := {
  world : World;
  open_for_writing : string → result unit;
  to_string : list (string * value * string) → string;
}.

(** How a run of the program ends. *)
Inductive ending :=
  | Finished
  | Exit (code : Z)
  | Uncaught (e : exn).

(** An execution of the program: how it ends, everything it did to the outside
    and printed, in order, and the packages written to
    [analysis_output.json], if the file was opened. *)
Record execution := {
  ended : ending;
  console : list event;
  saved : option (list PackageInfo);
}.

(** The exceptions the two handlers of [main] catch: [FileNotFoundError],
    and [ValueError] with its subclasses. *)
Definition caught_by_main (e : exn) : bool :=
  match e with
  | FileNotFoundError | ValueError | JSONDecodeError | UnicodeDecodeError => true
  | _ => false
  end.

(** The row of a package in the overview. *)
Definition concise (package : PackageInfo) : string * value * string :=
  (name package, size package, if is_paid package then "Yes" else "No").

Definition sizes_line (docker_sizes : DockerSizeInfo) : string :=
  String "010" "Docker Sizes Estimate (full/slim/alpine): " +:+
  pretty (full docker_sizes) +:+ "/" +:+ pretty (slim docker_sizes) +:+ "/" +:+
  pretty (alpine docker_sizes) +:+ " bytes".

Definition conflict_line (c : conflict) : string :=
  c.1.1 +:+ ": Version conflict between " +:+ c.1.2 +:+ " and " +:+ c.2.

Fixpoint print_all (lines : list string) : M unit :=
  match lines with
  | [] => ret tt
  | line :: lines' => _ ←$ print line; print_all lines'
  end.

(** Lines 309 to 332: what [main] does once the result file is written. *)
Definition after_saving (h : Host) (packages : list PackageInfo) (file_type : string)
    : M unit :=
  _ ←$ print "Analysis details saved to: analysis_output.json";
  _ ←$ print (String "010" "Dependency Overview:");
  _ ←$ print (to_string h (concise <$> packages));
  docker_sizes ←$ lift (estimate_docker_sizes packages file_type);
  _ ←$ print (sizes_line docker_sizes);
  match _check_for_conflicts packages with
  | [] => print (String "010" "No version conflicts detected.")
  | conflicts =>
      _ ←$ print (String "010" "Conflicts Detected:");
      print_all (conflict_line <$> conflicts)
  end.

(** The two [except] clauses of [main]: an exception they catch is printed
    after "Error", any other one leaves [main]. *)
Definition handled (e : exn) (st : analyzer) (saved : option (list PackageInfo)) : execution :=
  if caught_by_main e then
    {| ended := Finished; console := trace st ++ [PrintError "Error" e]; saved := saved |}
  else {| ended := Uncaught e; console := trace st; saved := saved |}.

Definition main (h : Host) (file_paths : list string) (file_type : string) : execution :=
  match analyze_multiple_projects (world h) file_paths file_type init with
  | (Raise e, st) => handled e st None
  | (Ok packages, st) =>
      match open_for_writing h "analysis_output.json" with
      | Raise e => handled e st None
      | Ok _ =>
          match after_saving h packages file_type st with
          | (Raise e, st') => handled e st' (Some packages)
          | (Ok _, st') =>
              {| ended := Finished; console := trace st'; saved := Some packages |}
          end
      end
  end.

(** [s.split(sep)] for a separator of one character, from the text [cur]
    (reversed) read since the last separator *)
Fixpoint split_from (sep : ascii) (cur : string) (s : string) : list string :=
  match s with
  | "" => [reverse cur]
  | String c s' =>
      if bool_decide (c = sep) then reverse cur :: split_from sep "" s'
      else split_from sep (String c cur) s'
  end.

Definition split (sep : ascii) (s : string) : list string := split_from sep "" s.

(** Lines 339 to 347: the script, run with [sys.argv]. *)
Definition script (h : Host) (argv : list string) : execution :=
  match argv with
  | _ :: files :: file_type :: _ => main h (split "," files) file_type
  | _ =>
      {| ended := Exit 1;
         console := [Print "Usage: python script.py <file_paths> <file_type>"];
         saved := None |}
  end.

(** A machine on which the result file can be written; the layout of the
    overview is left out. *)
Definition host_of (w : World) : Host :=
  {| world := w; open_for_writing := λ _, Ok tt; to_string := λ _, "" |}.

(** The part of a comma-separated list before its first comma. *)
Definition first_path (files : string) : string :=
  take_while (λ c, negb (bool_decide (c = ","%char))) files.

(** [_get_release_notes], written against what [requests.get] answers for
    a URL: the method makes one request, outside any [try]. *)
Definition no_release_notes : value := VStr "No release notes available.".

Definition _get_release_notes (requests_get : string → result response)
    (package_name package_type : string) : result value :=
  if bool_decide (package_type = "python") then
    response ←! requests_get (pypi_url package_name);
    data ←! json response;
    releases ←! get_method data "releases" (VDict []);
    latest ←! get_method releases "latest" (VDict []);
    get_method latest "changelog" no_release_notes
  else if bool_decide (package_type = "node") then
    response ←! requests_get (npm_url package_name);
    data ←! json response;
    versions ←! get_method data "versions" (VDict []);
    latest ←! get_method versions "latest" (VDict []);
    get_method latest "changelog" no_release_notes
  else Ok (VStr "").

(** The entry of a registry document that lists the versions of a package. *)
Definition versions_key (r : registry) : string :=
  match r with PyPI => "releases" | Npm => "versions" end.

(** A request for a size. *)
Definition is_size_request (ev : event) : bool :=
  match ev with Request SizeLookup _ => true | _ => false end.

(** What the resolution of a package asks of the outside besides its size:
    the description, the latest version, and the audit. *)
Definition lookups_of (r : registry) (package_name : string) : list event :=
  [Request DescriptionLookup (url_of r package_name);
   Request VersionLookup (url_of r package_name);
   Subprocess (audit_argv r package_name)].

(** *** Manifests and sizes that are not what the analyzer expects *)

Fixpoint digits (n : nat) (c : ascii) : string :=
  match n with
  | O => ""
  | S n' => String c (digits n' c)
  end.

(** The answer of a registry that gives [null] for the unpacked size. *)
Definition null_size_answer : response :=
  {| status_code := 200;
     json_body := Some (VDict
       [("dist-tags", VDict [("latest", VStr "1.0.0")]);
        ("versions", VDict
           [("1.0.0", VDict [("dist", VDict [("unpackedSize", VNone)])])])]) |}.

(** A world of manifests that load to something else than the analyzer
    expects, or that fail to load otherwise than by being malformed: a JSON
    array; an object whose [dependencies] is an array; a number of 4301
    digits; a file whose only byte, 0xFF, is not text; and a manifest that
    declares the package [a], for which the registry answers a size of
    [null].  The audit tools print nothing. *)
Definition manifest_world : World :=
  {| fs := λ path,
       if bool_decide (path = "array.json") then Some (RegularFile "[]")
       else if bool_decide (path = "deps.json") then Some (RegularFile "{dependencies: []}")
       else if bool_decide (path = "long.json") then Some (RegularFile (digits 4301 "9"))
       else if bool_decide (path = "bytes.json") then Some (RegularFile (String "255" ""))
       else if bool_decide (path = "a.json") then Some (RegularFile "{dependencies: {a}}")
       else None;
     json_loads := λ text,
       if bool_decide (text = "[]") then Some (VList [])
       else if bool_decide (text = "{dependencies: []}") then
         Some (VDict [("dependencies", VList [])])
       else if bool_decide (text = "{dependencies: {a}}") then
         Some (VDict [("dependencies", VDict [("a", VStr "1.0.0")])])
       else None;
     json_failure := λ text,
       if bool_decide (text = digits 4301 "9") then IntegerTooLong
       else if bool_decide (text = String "255" "") then NotText
       else NotJSON;
     requests_get := λ _ url,
       if bool_decide (url = npm_url "a") then Ok null_size_answer
       else Raise ConnectionError;
     run_tool := λ _ _, Printed "" |}.

(** A size that is not a number: [None], a string, a list or an object. *)
Definition not_a_number (v : value) : bool :=
  match v with
  | VNone | VStr _ | VList _ | VDict _ => true
  | VBool _ | VInt _ => false
  end.

(** An integer size: an [int], or a [bool], which counts for 0 or 1. *)
Definition integral (v : value) : bool :=
  match v with
  | VInt _ | VBool _ => true
  | _ => false
  end.

(** ** Properties of the Python fragment *)

Section TextFacts.

Implicit Types (s : string) (p : ascii → bool).

Lemma length_drop_while p s :
  (String.length (drop_while p s) ≤ String.length s)%nat.
Proof.
  induction s as [|c s IH]; simpl; [lia|].
  destruct (p c); simpl; lia.
Qed.

Lemma consumed_drop_while p s : consumed s (drop_while p s) = take_while p s.
Proof.
  unfold consumed. induction s as [|c s IH]; simpl; [done|].
  destruct (p c) eqn:Hc; simpl.
  - pose proof (length_drop_while p s) as Hle.
    replace (S (String.length s) - String.length (drop_while p s))%nat
      with (S (String.length s - String.length (drop_while p s))) by lia.
    simpl. by rewrite IH.
  - by rewrite Nat.sub_diag.
Qed.

Lemma drop_while_stops p s c s' :
  drop_while p s = String c s' → p c = false.
Proof.
  induction s as [|a s IH]; simpl; [done|].
  destruct (p a) eqn:Ha; [done|]. intros [= -> ->]. done.
Qed.

(** Greedy repetition settles on the longest run as soon as the
    continuation accepts there. *)
Lemma star_accepts p s k :
  is_Some (k (drop_while p s)) → star p s k = k (drop_while p s).
Proof.
  induction s as [|c s IH]; simpl; [done|].
  destruct (p c); [|done]. intros [r Hr]. rewrite IH by eauto. by rewrite Hr.
Qed.

(** Giving characters back does not help a continuation that rejects every
    text starting inside the run. *)
Lemma star_longest_only p s k :
  (∀ c s', p c = true → k (String c s') = None) →
  star p s k = k (drop_while p s).
Proof.
  intros Hk. induction s as [|c s IH]; simpl; [done|].
  destruct (p c) eqn:Hc; [|done].
  rewrite IH. destruct (k (drop_while p s)); [done|]. by apply Hk.
Qed.

Lemma app_cons c s t : String c s +:+ t = String c (s +:+ t).
Proof. done. Qed.

Lemma rev_onto_snoc s c acc :
  rev_onto (s +:+ String c "") acc = String c (rev_onto s acc).
Proof.
  revert acc. induction s as [|a s IH]; intros acc; [done|].
  rewrite app_cons. simpl. apply IH.
Qed.

Lemma rev_onto_app s acc : rev_onto s acc = reverse s +:+ acc.
Proof.
  unfold reverse. revert acc. induction s as [|a s IH]; intros acc; [done|].
  simpl. rewrite IH, (IH (String a "")).
  generalize (rev_onto s ""). intros r.
  induction r as [|b r IHr]; [done|]. rewrite !app_cons. by rewrite IHr.
Qed.

Lemma drop_while_snoc_stop p s c :
  p c = false →
  drop_while p (s +:+ String c "") = drop_while p s +:+ String c "".
Proof.
  intros Hc. induction s as [|a s IH]; simpl.
  - change ("" +:+ String c "") with (String c ""). simpl. by rewrite Hc.
  - destruct (p a); [done|]. done.
Qed.

(** Stripping on the right keeps a first character that is not a space. *)
Lemma rstrip_cons c s :
  isspace c = false → ∃ s', rstrip (String c s) = String c s'.
Proof.
  intros Hc. unfold rstrip, reverse at 2. simpl.
  rewrite rev_onto_app, (drop_while_snoc_stop _ _ _ Hc).
  unfold reverse. rewrite rev_onto_snoc. eauto.
Qed.

Lemma strip_first line :
  match lstrip line with
  | "" => strip line = ""
  | String c _ => ∃ s', strip line = String c s'
  end.
Proof.
  unfold strip. destruct (lstrip line) as [|c s] eqn:Hl; [done|].
  apply rstrip_cons. by apply (drop_while_stops isspace line c s).
Qed.

Lemma drop_while_all p s : all_chars p s = true → drop_while p s = "".
Proof.
  induction s as [|c s IH]; simpl; [done|].
  destruct (p c); simpl; [done|done].
Qed.

End TextFacts.

(** ** The parser of requirement lines *)

Lemma cmp_char_not_name c : is_cmp_char c = true → is_name_char c = false.
Proof. by destruct c as [[] [] [] [] [] [] [] []]. Qed.

Lemma consumed_run p c s :
  p c = true →
  consumed (String c s) (drop_while p s) = String c (take_while p s).
Proof.
  intros Hc. pose proof (consumed_drop_while p (String c s)) as H.
  simpl in H. by rewrite Hc in H.
Qed.

Lemma requirement_pattern_match l :
  re_match requirement_pattern l =
    let pkg := take_while is_name_char l in
    let rest := drop_while is_name_char l in
    let ops := take_while is_cmp_char rest in
    let after := drop_while is_cmp_char rest in
    let ver := take_while is_name_char after in
    if nonempty pkg then
      if nonempty ops && nonempty ver
      then Some (drop_while is_name_char after, <[2%nat := ver]> (<[1%nat := pkg]> ∅))
      else Some (rest, <[1%nat := pkg]> ∅)
    else None.
Proof.
  unfold re_match, requirement_pattern.
  cbn [run]. rewrite bool_decide_true by done.
  destruct l as [|c s]; [done|]. simpl.
  destruct (is_name_char c) eqn:Hc; [|done]. simpl.
  rewrite star_accepts.
  2:{ match goal with |- is_Some (match ?x with _ => _ end) => destruct x; eauto end. }
  rewrite (consumed_run _ _ _ Hc).
  destruct (drop_while is_name_char s) as [|c0 s0]; [done|]. simpl.
  destruct (is_cmp_char c0) eqn:Hc0; [|done]. simpl.
  rewrite star_longest_only.
  2:{ intros a s' Ha. by rewrite (cmp_char_not_name a Ha). }
  destruct (drop_while is_cmp_char s0) as [|c1 s1]; [done|]. simpl.
  destruct (is_name_char c1) eqn:Hc1; [|done]. simpl.
  rewrite star_accepts by eauto.
  by rewrite (consumed_run _ _ _ Hc1).
Qed.

(** What a line contributes, read off the stripped line without the
    matcher: the leading run of name characters, then, when a run of
    comparators and a run of name characters follow, that second run. *)
Lemma requirement_of_line_runs line :
  let l := strip line in
  let pkg := take_while is_name_char l in
  let rest := drop_while is_name_char l in
  let ops := take_while is_cmp_char rest in
  let ver := take_while is_name_char (drop_while is_cmp_char rest) in
  requirement_of_line line =
    if nonempty pkg
    then Some (pkg, if nonempty ops && nonempty ver then ver else "")
    else None.
Proof.
  cbv zeta. unfold requirement_of_line. generalize (strip line) as l. intros l.
  destruct (nonempty l && negb (startswith "#" l)) eqn:Hguard.
  - rewrite requirement_pattern_match. cbv zeta.
    destruct (nonempty (take_while is_name_char l)); [|done].
    destruct (nonempty _ && nonempty _); by simplify_map_eq.
  - destruct l as [|c s]; [done|]. simpl in *.
    rewrite andb_true_r in Hguard. apply negb_false_iff, bool_decide_eq_true in Hguard.
    by subst c.
Qed.

Lemma requirement_of_line_none line :
  requirement_of_line line = None ↔
  match lstrip line with
  | String c _ => is_name_char c = false
  | "" => True
  end.
Proof.
  rewrite requirement_of_line_runs. cbv zeta. pose proof (strip_first line) as Hs.
  destruct (lstrip line) as [|c s].
  - by rewrite Hs.
  - destruct Hs as [s' ->]. simpl. destruct (is_name_char c); naive_solver.
Qed.

(** ** The conflict detector *)

Lemma omap_cons {A B} (f : A → option B) (x : A) (l : list A) :
  omap f (x :: l) = match f x with Some y => y :: omap f l | None => omap f l end.
Proof. done. Qed.

Lemma omap_pointwise {A B} (f g : A → option B) (l : list A) :
  (∀ x, f x = g x) → omap f l = omap g l.
Proof.
  intros Hfg. induction l as [|x l IH]; [done|].
  by rewrite !omap_cons, Hfg, IH.
Qed.

Lemma conflicts_from_first_seen l : ∀ version_map conflicts,
  conflicts_from l version_map conflicts =
  conflicts ++ omap (λ p, conflict_against (first_seen version_map l (name p)) p) l.
Proof.
  induction l as [|p l IH]; intros m acc.
  - simpl. by rewrite app_nil_r.
  - rewrite omap_cons. cbn [conflicts_from].
    unfold first_seen at 1. destruct (m !! name p) as [seen|] eqn:Hp.
    + assert (omap (λ q, conflict_against (first_seen m (p :: l) (name q)) q) l =
              omap (λ q, conflict_against (first_seen m l (name q)) q) l) as ->.
      { apply omap_pointwise. intros q. unfold first_seen. simpl.
        destruct (m !! name q) eqn:Hq; [done|].
        rewrite bool_decide_false; [done|]. congruence. }
      unfold conflict_against at 1. case_bool_decide; rewrite IH; [|done].
      by rewrite <- app_assoc.
    + cbn [find]. rewrite bool_decide_true by done.
      unfold conflict_against at 1. cbn [fmap option_fmap option_map].
      rewrite bool_decide_false by naive_solver. rewrite IH. f_equal.
      apply omap_pointwise. intros q. unfold first_seen. cbn [find].
      destruct (decide (name p = name q)) as [Heq|Hne].
      * rewrite <- Heq, lookup_insert_eq, Hp. by rewrite bool_decide_true.
      * rewrite lookup_insert_ne by done. by rewrite (bool_decide_false _ Hne).
Qed.

(** C4: conflict detection compares every package against the first version
    seen for its name and reports each later occurrence that differs: the
    result is, in input order, one record (name, first version, this version)
    for every package whose version differs from that of the first package
    of the same name in the list, and nothing for the others.  Hence three
    packages of one name whose second and third versions differ from the
    first give two records, both against the first; an empty first version
    against a non-empty one is a conflict; and the list
    x 1.0, y 2.0, x 1.0, x 2.0 gives the single record (x, 1.0, 2.0). *)
Theorem conflicts_against_first_seen :
  (∀ l, _check_for_conflicts l =
        omap (λ p, conflict_against
                     (version <$> find (λ q, bool_decide (name q = name p)) l) p) l) ∧
  (∀ p1 p2 p3,
     name p2 = name p1 → name p3 = name p1 →
     version p2 ≠ version p1 → version p3 ≠ version p1 →
     _check_for_conflicts [p1; p2; p3] =
       [(name p1, version p1, version p2); (name p1, version p1, version p3)]) ∧
  (∀ n v, v ≠ "" →
     _check_for_conflicts [declared n ""; declared n v] = [(n, "", v)]) ∧
  _check_for_conflicts
    [declared "x" "1.0"; declared "y" "2.0"; declared "x" "1.0"; declared "x" "2.0"] =
    [("x", "1.0", "2.0")].
Proof.
  assert (∀ l, _check_for_conflicts l =
        omap (λ p, conflict_against
                     (version <$> find (λ q, bool_decide (name q = name p)) l) p) l) as Hall.
  { intros l. unfold _check_for_conflicts. rewrite conflicts_from_first_seen.
    simpl. apply omap_pointwise. intros p. unfold first_seen.
    by rewrite lookup_empty. }
  split_and!; [done| | |by vm_compute].
  - intros p1 p2 p3 H2 H3 Hv2 Hv3. rewrite Hall. rewrite !omap_cons. cbn [find].
    rewrite H2, H3. rewrite !bool_decide_true by done. cbn.
    rewrite (bool_decide_false (version p1 ≠ version p1)) by naive_solver.
    rewrite (bool_decide_true (version p1 ≠ version p2)) by done.
    rewrite (bool_decide_true (version p1 ≠ version p3)) by done.
    by rewrite H2, H3.
  - intros n v Hv. rewrite Hall. rewrite !omap_cons. cbn.
    rewrite !bool_decide_true by done. cbn.
    rewrite (bool_decide_false ("" ≠ "")) by naive_solver.
    by rewrite (bool_decide_true ("" ≠ v)).
Qed.

Lemma conflicts_against_first_seen_witness :
  _check_for_conflicts [declared "x" "1.0"; declared "x" "1.1"; declared "x" "1.2"] =
    [("x", "1.0", "1.1"); ("x", "1.0", "1.2")] ∧
  _check_for_conflicts [declared "x" ""; declared "x" "1.0"] = [("x", "", "1.0")].
Proof.
  split.
  - apply (proj1 (proj2 conflicts_against_first_seen)
             (declared "x" "1.0") (declared "x" "1.1") (declared "x" "1.2"));
      [reflexivity | reflexivity | discriminate | discriminate].
  - apply (proj1 (proj2 (proj2 conflicts_against_first_seen)) "x" "1.0"). discriminate.
Defined.

(** ** Computations of the analyzer *)

Section MonadFacts.

Context {A B : Type}.
Implicit Types (m : M A) (f : A → M B).

Lemma bind_ok m f st a st' :
  m st = (Ok a, st') → bind m f st = f a st'.
Proof. unfold bind. by intros ->. Qed.

Lemma bind_raise m f st e st' :
  m st = (Raise e, st') → bind m f st = (Raise e, st').
Proof. unfold bind. by intros ->. Qed.

Lemma bind_inv m f st r st'' :
  bind m f st = (r, st'') →
  (∃ a st', m st = (Ok a, st') ∧ f a st' = (r, st'')) ∨
  (∃ e, m st = (Raise e, st'') ∧ r = Raise e).
Proof.
  unfold bind. destruct (m st) as [[a|e] st']; [eauto|].
  intros [= <- <-]. eauto.
Qed.

Lemma total_ret (a : A) : total (ret a).
Proof. intros st. by eexists _, _. Qed.

Lemma total_bind m f : total m → (∀ a, total (f a)) → total (bind m f).
Proof.
  intros Hm Hf st. destruct (Hm st) as (a & st' & Hst).
  rewrite (bind_ok _ _ _ _ _ Hst). apply Hf.
Qed.

(** A handler that never raises makes the whole [try] statement safe,
    whatever its body does. *)
Lemma total_try_except m (h : exn → M A) : (∀ e, total (h e)) → total (try_except m h).
Proof.
  intros Hh st. unfold try_except. destruct (m st) as [[a|e] st'].
  - by eexists _, _.
  - apply Hh.
Qed.

End MonadFacts.

Lemma total_emit ev : total (emit ev).
Proof. intros st. by eexists _, _. Qed.

Lemma total_print_error message e : total (print_error message e).
Proof. apply total_emit. Qed.

Create HintDb total.
#[local] Hint Resolve total_ret total_bind total_try_except total_emit
  total_print_error : total.

(** The three kinds of registry lookup absorb every failure. *)
Lemma total_get_pypi_package_size w n : total (_get_pypi_package_size w n).
Proof.
  intros st. unfold _get_pypi_package_size.
  destruct (pypi_cache st !! n); [by eexists _, _|].
  apply total_bind; auto with total.
Qed.

Lemma total_get_npm_package_size w n : total (_get_npm_package_size w n).
Proof.
  intros st. unfold _get_npm_package_size.
  destruct (npm_cache st !! n); [by eexists _, _|].
  apply total_bind; auto with total.
Qed.

Lemma total_get_pypi_package_description w n : total (_get_pypi_package_description w n).
Proof. apply total_bind; auto with total. Qed.

Lemma total_get_npm_package_description w n : total (_get_npm_package_description w n).
Proof. apply total_bind; auto with total. Qed.

Lemma total_get_latest_pypi_version w n : total (_get_latest_pypi_version w n).
Proof. apply total_bind; auto with total. Qed.

Lemma total_get_latest_npm_version w n : total (_get_latest_npm_version w n).
Proof. apply total_bind; auto with total. Qed.

#[local] Hint Resolve total_get_pypi_package_size total_get_npm_package_size
  total_get_pypi_package_description total_get_npm_package_description
  total_get_latest_pypi_version total_get_latest_npm_version : total.

(** A size lookup that ends in an exception, a timeout for one, gives 0. *)
Lemma size_lookup_failure_gives_zero w n st e :
  pypi_cache st !! n = None →
  requests_get w (length (trace st)) (pypi_url n) = Raise e →
  (_get_pypi_package_size w n st).1 = Ok (VInt 0).
Proof.
  intros Hmiss Hfail. unfold _get_pypi_package_size. rewrite Hmiss.
  unfold bind, try_except, get. by rewrite Hfail.
Qed.

(** ** Resolution and the security audit *)

Lemma python_package_audit w n v st :
  ∃ sz d lv st1,
    python_package w n v st =
      bind (_check_security_vulnerabilities w n "python")
        (λ vulnerabilities,
           ret {| name := n; size := sz; is_paid := bool_decide (n ∈ ["private-package"; "enterprise-pkg"]);
                  version := v; description := d; latest_version := lv;
                  vulnerabilities := vulnerabilities |}) st1.
Proof.
  unfold python_package.
  destruct (total_get_pypi_package_size w n st) as (sz & st1 & H1).
  rewrite (bind_ok _ _ _ _ _ H1).
  rewrite (bind_ok _ _ st1 (bool_decide (n ∈ ["private-package"; "enterprise-pkg"])) st1)
    by done.
  destruct (total_get_pypi_package_description w n st1) as (d & st2 & H2).
  rewrite (bind_ok _ _ _ _ _ H2).
  destruct (total_get_latest_pypi_version w n st2) as (lv & st3 & H3).
  rewrite (bind_ok _ _ _ _ _ H3). by exists sz, d, lv, st3.
Qed.

(** Apart from the audit, nothing in resolution can raise: when the audit
    tool runs, a record is produced whatever the registry answers. *)
Lemma python_package_total_when_audit_runs w n v :
  (∀ t argv, ∃ out, run_tool w t argv = Printed out) →
  total (python_package w n v).
Proof.
  intros Haudit st.
  destruct (python_package_audit w n v st) as (sz & d & lv & st1 & ->).
  unfold _check_security_vulnerabilities. rewrite bool_decide_true by done.
  unfold bind, run_and_decode.
  destruct (Haudit (length (trace st1)) ["safety"; "check"; "--bare"; "--dependency"; n])
    as [out ->].
  by eexists _, _.
Qed.

(** C1: resolution does not absorb a failure of the security audit.  When
    the audit tool cannot be started, [subprocess.run] raises
    [FileNotFoundError]; nothing around the call catches it, so resolving the
    requirement raises instead of producing a record, and the analysis stops
    there: in the sample run the second requirement of the file is never
    looked up. *)
Theorem audit_failure_escapes_resolution :
  (∀ w n v st,
     (∀ t, run_tool w t ["safety"; "check"; "--bare"; "--dependency"; n] = MissingExecutable) →
     (python_package w n v st).1 = Raise FileNotFoundError) ∧
  (analyze_multiple_projects world_without_safety ["requirements.txt"] "python" init).1 =
    Raise FileNotFoundError ∧
  trace (analyze_multiple_projects world_without_safety ["requirements.txt"] "python" init).2 =
    [Request SizeLookup "https://pypi.org/pypi/flask/json";
     Request DescriptionLookup "https://pypi.org/pypi/flask/json";
     Request VersionLookup "https://pypi.org/pypi/flask/json";
     Subprocess ["safety"; "check"; "--bare"; "--dependency"; "flask"]].
Proof.
  split_and!; [|by vm_compute..].
  intros w n v st Hmissing.
  destruct (python_package_audit w n v st) as (sz & d & lv & st1 & ->).
  unfold _check_security_vulnerabilities. rewrite bool_decide_true by done.
  unfold bind, run_and_decode. by rewrite Hmissing.
Qed.

Lemma audit_failure_escapes_resolution_witness :
  (python_package world_without_safety "flask" "2.0.1" init).1 = Raise FileNotFoundError.
Proof.
  apply (proj1 audit_failure_escapes_resolution world_without_safety "flask" "2.0.1" init).
  intros t. reflexivity.
Defined.

(** ** Requirements files *)

(** The record of a requirement carries the name and the version parsed
    from its line, and the records of a file follow its lines. *)
Lemma python_package_record w n v st info st' :
  python_package w n v st = (Ok info, st') → name info = n ∧ version info = v.
Proof.
  destruct (python_package_audit w n v st) as (sz & d & lv & st1 & ->).
  intros Hrun. apply bind_inv in Hrun as [(out & st2 & _ & Hrun)|(? & _ & [=])].
  by injection Hrun as <- _.
Qed.

Lemma python_lines_records w lines : ∀ results st out st',
  python_lines w lines results st = (Ok out, st') →
  (λ p, (name p, version p)) <$> out =
    ((λ p, (name p, version p)) <$> results) ++ omap requirement_of_line lines.
Proof.
  induction lines as [|line lines IH]; intros results st out st'; cbn [python_lines].
  - intros [= <- <-]. by rewrite app_nil_r.
  - rewrite omap_cons. destruct (requirement_of_line line) as [[n v]|]; [|apply IH].
    intros Hrun. apply bind_inv in Hrun as [(info & st1 & Hinfo & Hrun)|(? & _ & [=])].
    apply python_package_record in Hinfo as [Hn Hv]. apply IH in Hrun.
    rewrite Hrun, fmap_app, <- app_assoc. simpl. by rewrite Hn, Hv.
Qed.

Lemma analyze_python_requirements_records w path text st out st' :
  fs w path = Some (RegularFile text) →
  _analyze_python_requirements w path st = (Ok out, st') →
  (λ p, (name p, version p)) <$> out = omap requirement_of_line (readlines text).
Proof.
  intros Hfile. unfold _analyze_python_requirements, open_read, bind at 1, lift at 1.
  rewrite Hfile. intros Hrun. by apply python_lines_records in Hrun.
Qed.

(** C7: the requirements parser on the lines of the specification:
    ["flask==2.0.1"] gives the name ["flask"] with the version ["2.0.1"],
    ["flask"] gives the name ["flask"] with an empty version, and a line made
    of white space only, or whose first character after leading white space
    is ['#'], gives no record.  The records that analysing a file returns
    carry, line after line, the names and versions so parsed. *)
Theorem requirement_line_examples :
  requirement_of_line "flask==2.0.1" = Some ("flask", "2.0.1") ∧
  requirement_of_line "flask" = Some ("flask", "") ∧
  (∀ line, all_chars isspace line = true → requirement_of_line line = None) ∧
  (∀ line rest, lstrip line = String "#" rest → requirement_of_line line = None) ∧
  (∀ w path text st out st',
     fs w path = Some (RegularFile text) →
     _analyze_python_requirements w path st = (Ok out, st') →
     (λ p, (name p, version p)) <$> out = omap requirement_of_line (readlines text)).
Proof.
  split_and!; [by vm_compute..| | |].
  - intros line Hblank. apply requirement_of_line_none.
    unfold lstrip. by rewrite drop_while_all.
  - intros line rest Hhash. apply requirement_of_line_none. by rewrite Hhash.
  - apply analyze_python_requirements_records.
Qed.

Lemma requirement_line_examples_witness :
  requirement_of_line (String "009" (String " " (String "010" ""))) = None ∧
  requirement_of_line "  # pinned below" = None ∧
  [("flask", "2.0.1"); ("requests", "")] =
    omap requirement_of_line
      (readlines ("flask==2.0.1" +:+ String "010" ("requests" +:+ String "010" ""))).
Proof.
  destruct requirement_line_examples as (_ & _ & Hblank & Hcomment & Hfile).
  split_and!.
  - apply Hblank. reflexivity.
  - apply (Hcomment _ " pinned below"). reflexivity.
  - apply (Hfile sample_world "requirements.txt" _ init
             [{| name := "flask"; size := VInt 101000; is_paid := false; version := "2.0.1";
                 description := VStr "A microframework"; latest_version := VStr "3.0.0";
                 vulnerabilities := "" |};
              {| name := "requests"; size := VInt 0; is_paid := false; version := "";
                 description := VStr "No description available"; latest_version := VStr "";
                 vulnerabilities := "" |}]
             (_analyze_python_requirements sample_world "requirements.txt" init).2).
    + reflexivity.
    + vm_compute. reflexivity.
Defined.

(** C10: the pattern is anchored at the start of the stripped line only.
    The name of the record is the longest leading run of name characters of
    the stripped line; the version is the run of name characters that
    follows a run of comparators right after the name, and is empty when
    there is no such pair of runs; whatever comes after is ignored.  A line
    gives no record exactly when no name character comes first after its
    leading white space. *)
Theorem requirement_line_anchored_at_start (line : string) :
  let l := strip line in
  let pkg := take_while is_name_char l in
  let rest := drop_while is_name_char l in
  let ops := take_while is_cmp_char rest in
  let ver := take_while is_name_char (drop_while is_cmp_char rest) in
  requirement_of_line line =
    (if nonempty pkg
     then Some (pkg, if nonempty ops && nonempty ver then ver else "")
     else None) ∧
  (requirement_of_line line = None ↔
   match lstrip line with
   | String c _ => is_name_char c = false
   | "" => True
   end) ∧
  requirement_of_line "flask==2.0.1 trailing-junk" = Some ("flask", "2.0.1") ∧
  requirement_of_line "flask==" = Some ("flask", "").
Proof.
  split_and!.
  - apply requirement_of_line_runs.
  - apply requirement_of_line_none.
  - by vm_compute.
  - by vm_compute.
Qed.

(** ** Manifests that do not decode, paths that do not exist *)

(** C2, counterexample: parsing a manifest that is malformed JSON does not
    fail; the caller gets the empty list, the very value a manifest without
    packages gives. *)
Lemma malformed_manifest_not_reported :
  json_load sample_world "{" = Raise JSONDecodeError ∧
  (analyze_requirements sample_world "broken.json" "node" init).1 = Ok [] ∧
  (analyze_requirements sample_world "broken.json" "node" init).1 =
    (analyze_requirements sample_world "empty.json" "node" init).1.
Proof. by vm_compute. Qed.

(** C2, as the code has it: a manifest that is malformed JSON, on which
    [json.load] raises [JSONDecodeError], is handled inside the parser: the
    message is printed and the empty list is returned, no exception reaches
    the caller; a manifest that loads to an object without [dependencies]
    and [devDependencies] returns the empty list as well, without the
    message.  A manifest that fails to load in another way (a content that
    is not text, an integer literal that is too long, a nesting that is too
    deep) does fail: the exception of [json.load], which is then
    [UnicodeDecodeError], [ValueError] or [RecursionError], reaches the
    caller, and nothing is printed. *)
Theorem malformed_manifest_yields_empty_list :
  (∀ w path text st,
     fs w path = Some (RegularFile text) →
     json_load w text = Raise JSONDecodeError →
     _analyze_node_requirements w path st =
       (Ok [], {| pypi_cache := pypi_cache st; npm_cache := npm_cache st;
                  trace := trace st ++ [Print "Error: Invalid package.json file"] |})) ∧
  (∀ w path text d st,
     fs w path = Some (RegularFile text) →
     json_loads w text = Some (VDict d) →
     dict_get d "dependencies" = None →
     dict_get d "devDependencies" = None →
     _analyze_node_requirements w path st = (Ok [], st)) ∧
  (∀ w path text e st,
     fs w path = Some (RegularFile text) →
     json_load w text = Raise e → e ≠ JSONDecodeError →
     _analyze_node_requirements w path st = (Raise e, st) ∧
     (e = UnicodeDecodeError ∨ e = ValueError ∨ e = RecursionError)).
Proof.
  split_and!.
  - intros w path text st Hfile Hjson.
    unfold _analyze_node_requirements, open_read, bind at 1, lift at 1.
    rewrite Hfile. unfold try_except_json, bind at 1, lift at 1.
    by rewrite Hjson.
  - intros w path text d st Hfile Hjson Hdeps Hdev.
    unfold _analyze_node_requirements, open_read, bind at 1, lift at 1.
    rewrite Hfile. unfold try_except_json, bind at 1, lift at 1, json_load.
    rewrite Hjson. unfold bind at 1, lift at 1, all_deps_of. simpl.
    by rewrite Hdeps, Hdev.
  - intros w path text e st Hfile Hjson He.
    unfold _analyze_node_requirements, open_read, bind at 1, lift at 1.
    rewrite Hfile. unfold try_except_json, bind at 1, lift at 1.
    rewrite Hjson. split; [by destruct e|].
    unfold json_load in Hjson. destruct (json_loads w text); [done|].
    injection Hjson as <-. destruct (json_failure w text); simpl in *; tauto.
Qed.

Lemma malformed_manifest_yields_empty_list_witness :
  _analyze_node_requirements sample_world "broken.json" init =
    (Ok [], {| pypi_cache := ∅; npm_cache := ∅;
               trace := [Print "Error: Invalid package.json file"] |}) ∧
  _analyze_node_requirements sample_world "empty.json" init = (Ok [], init) ∧
  _analyze_node_requirements manifest_world "long.json" init = (Raise ValueError, init) ∧
  _analyze_node_requirements manifest_world "bytes.json" init =
    (Raise UnicodeDecodeError, init).
Proof.
  split_and!.
  - apply (proj1 malformed_manifest_yields_empty_list sample_world "broken.json" "{" init);
      reflexivity.
  - apply (proj1 (proj2 malformed_manifest_yields_empty_list)
             sample_world "empty.json" "{}" [] init); reflexivity.
  - apply (proj2 (proj2 malformed_manifest_yields_empty_list)
             manifest_world "long.json" (digits 4301 "9") ValueError init);
      [reflexivity | by vm_compute | discriminate].
  - apply (proj2 (proj2 malformed_manifest_yields_empty_list)
             manifest_world "bytes.json" (String "255" "") UnicodeDecodeError init);
      [reflexivity | by vm_compute | discriminate].
Defined.

Lemma all_projects_app w pre rest file_type acc st packages st' :
  all_projects w pre file_type acc st = (Ok packages, st') →
  all_projects w (pre ++ rest) file_type acc st = all_projects w rest file_type packages st'.
Proof.
  revert acc st. induction pre as [|path pre IH]; intros acc st; simpl.
  - by intros [= -> ->].
  - intros Hrun. apply bind_inv in Hrun as [(pk & st1 & Hpath & Hrest)|(e & _ & [=])].
    rewrite (bind_ok _ _ _ _ _ Hpath). by apply IH.
Qed.

(** C8, counterexample: with no path to analyse, an ecosystem tag that is
    neither python nor node raises nothing, since the tag is only looked at
    when a file is analysed; and a missing path that comes after a path that
    fails for another reason is never reached. *)
Lemma unsupported_ecosystem_not_reported :
  analyze_multiple_projects sample_world [] "ruby" init = (Ok [], init) ∧
  path_exists sample_world "missing.txt" = false ∧
  analyze_multiple_projects sample_world ["empty.json"; "missing.txt"] "ruby" init =
    (Raise ValueError, init).
Proof. by vm_compute. Qed.

(** C8, as the code has it.  [analyze_requirements] raises
    [FileNotFoundError] for a path that does not exist, whatever the tag, and
    [ValueError] for an existing path with a tag that is neither python nor
    node.  [analyze_multiple_projects] takes the paths in order and stops at
    the first error: with an unsupported tag and at least one path it raises
    at the first path; and when the paths before a missing one are analysed
    without error it raises [FileNotFoundError].  In each case the exception
    is the outcome of the call, so no package list is returned.  With no
    path at all it returns the empty list, whatever the tag. *)
Theorem missing_path_and_unsupported_ecosystem :
  (∀ w path file_type st,
     path_exists w path = false →
     analyze_requirements w path file_type st = (Raise FileNotFoundError, st)) ∧
  (∀ w path file_type st,
     path_exists w path = true → file_type ≠ "python" → file_type ≠ "node" →
     analyze_requirements w path file_type st = (Raise ValueError, st)) ∧
  (∀ w path rest file_type st,
     file_type ≠ "python" → file_type ≠ "node" →
     analyze_multiple_projects w (path :: rest) file_type st =
       (Raise (if path_exists w path then ValueError else FileNotFoundError), st)) ∧
  (∀ w pre missing rest file_type st packages st',
     analyze_multiple_projects w pre file_type st = (Ok packages, st') →
     path_exists w missing = false →
     analyze_multiple_projects w (pre ++ missing :: rest) file_type st =
       (Raise FileNotFoundError, st')) ∧
  (∀ w file_type st, analyze_multiple_projects w [] file_type st = (Ok [], st)).
Proof.
  assert (∀ w path file_type st,
     path_exists w path = false →
     analyze_requirements w path file_type st = (Raise FileNotFoundError, st)) as Hmissing.
  { intros w path file_type st Hpath. unfold analyze_requirements. by rewrite Hpath. }
  assert (∀ w path file_type st,
     path_exists w path = true → file_type ≠ "python" → file_type ≠ "node" →
     analyze_requirements w path file_type st = (Raise ValueError, st)) as Hunsupported.
  { intros w path file_type st Hpath Hpy Hnode. unfold analyze_requirements.
    rewrite Hpath. simpl. by rewrite !bool_decide_false. }
  split_and!; [done|done| | |done].
  - intros w path rest file_type st Hpy Hnode.
    unfold analyze_multiple_projects. simpl.
    destruct (path_exists w path) eqn:Hpath.
    + by rewrite (bind_raise _ _ _ _ _ (Hunsupported w path file_type st Hpath Hpy Hnode)).
    + by rewrite (bind_raise _ _ _ _ _ (Hmissing w path file_type st Hpath)).
  - intros w pre missing rest file_type st packages st' Hpre Hpath.
    unfold analyze_multiple_projects in *.
    rewrite (all_projects_app _ _ _ _ _ _ _ _ Hpre). simpl.
    by rewrite (bind_raise _ _ _ _ _ (Hmissing w missing file_type st' Hpath)).
Qed.

Lemma missing_path_and_unsupported_ecosystem_witness :
  analyze_requirements sample_world "missing.txt" "python" init =
    (Raise FileNotFoundError, init) ∧
  analyze_requirements sample_world "empty.json" "ruby" init = (Raise ValueError, init) ∧
  analyze_multiple_projects sample_world ["empty.json"; "missing.txt"] "ruby" init =
    (Raise ValueError, init) ∧
  analyze_multiple_projects sample_world ["empty.json"; "missing.txt"; "package.json"] "node" init =
    (Raise FileNotFoundError, init).
Proof.
  split_and!.
  - apply (proj1 missing_path_and_unsupported_ecosystem). reflexivity.
  - apply (proj1 (proj2 missing_path_and_unsupported_ecosystem));
      [reflexivity | discriminate | discriminate].
  - apply (proj1 (proj2 (proj2 missing_path_and_unsupported_ecosystem))
             sample_world "empty.json" ["missing.txt"] "ruby" init); discriminate.
  - apply (proj1 (proj2 (proj2 (proj2 missing_path_and_unsupported_ecosystem)))
             sample_world ["empty.json"] "missing.txt" ["package.json"] "node" init [] init);
      reflexivity.
Defined.

(** ** Node manifests *)

Lemma clean_version_is_bare raw : clean_version_of (VStr raw) = Ok (bare_version raw).
Proof.
  unfold clean_version_of, re_sub_anchored, re_match, version_prefix_pattern.
  cbn [run]. rewrite bool_decide_true by done.
  rewrite star_accepts by eauto. done.
Qed.

Section DictFacts.

Implicit Types (d : dict) (k : string) (v : value).

Lemma dict_get_set d k v k' :
  dict_get (dict_set d k v) k' = if bool_decide (k = k') then Some v else dict_get d k'.
Proof.
  induction d as [|[k0 v0] d IH]; simpl.
  - done.
  - destruct (decide (k0 = k)) as [->|Hne].
    + rewrite bool_decide_true by done. simpl. by case_bool_decide.
    + rewrite (bool_decide_false _ Hne). simpl. rewrite IH.
      repeat case_bool_decide; congruence.
Qed.

Lemma dict_get_keys d k : is_Some (dict_get d k) ↔ k ∈ d.*1.
Proof.
  induction d as [|[k0 v0] d IH]; simpl.
  - rewrite elem_of_nil. split; [by intros [? ?]|done].
  - rewrite elem_of_cons. case_bool_decide as Hk.
    + split; [by left|by eexists].
    + rewrite IH. split; [by right|]. by intros [?|?].
Qed.

Lemma dict_set_keys d k v : NoDup d.*1 → NoDup (dict_set d k v).*1.
Proof.
  induction d as [|[k0 v0] d IH]; simpl; intros Hnd.
  - apply NoDup_singleton.
  - apply NoDup_cons in Hnd as [Hk0 Hnd]. case_bool_decide; simpl.
    + subst. by apply NoDup_cons.
    + apply NoDup_cons. split; [|by apply IH].
      rewrite <- dict_get_keys, dict_get_set, bool_decide_false by done.
      by rewrite dict_get_keys.
Qed.

Lemma foldl_dict_set_keys (l d : dict) :
  NoDup d.*1 → NoDup (foldl (λ acc kv, dict_set acc kv.1 kv.2) d l).*1.
Proof.
  revert d. induction l as [|[k v] l IH]; intros d Hnd; simpl; [done|].
  by apply IH, dict_set_keys.
Qed.

Lemma foldl_dict_set_get (l d : dict) k :
  NoDup l.*1 →
  dict_get (foldl (λ acc kv, dict_set acc kv.1 kv.2) d l) k =
    match dict_get l k with
    | Some v => Some v
    | None => dict_get d k
    end.
Proof.
  revert d. induction l as [|[k0 v0] l IH]; intros d Hnd; simpl; [done|].
  apply NoDup_cons in Hnd as [Hk0 Hnd]. rewrite (IH _ Hnd), dict_get_set.
  case_bool_decide; [|done]. subst k0.
  destruct (dict_get l k) eqn:Hget; [|done].
  destruct Hk0. apply dict_get_keys. eauto.
Qed.

(** Last write wins: an entry of the second dict hides the entry of the
    same key in the first one. *)
Lemma dict_merge_get (d1 d2 : dict) k :
  NoDup d1.*1 → NoDup d2.*1 →
  dict_get (dict_merge d1 d2) k =
    match dict_get d2 k with
    | Some v => Some v
    | None => dict_get d1 k
    end.
Proof.
  intros Hnd1 Hnd2. unfold dict_merge. rewrite foldl_app.
  rewrite (foldl_dict_set_get d2 _ k Hnd2). rewrite (foldl_dict_set_get d1 _ k Hnd1).
  by destruct (dict_get d1 k).
Qed.

Lemma dict_merge_keys (d1 d2 : dict) : NoDup (dict_merge d1 d2).*1.
Proof. apply foldl_dict_set_keys. constructor. Qed.

End DictFacts.

Lemma dict_get_text_items d k : dict_get (text_items d) k = VStr <$> lookup_text d k.
Proof.
  induction d as [|[k0 v0] d IH]; simpl; [done|]. by case_bool_decide.
Qed.

Lemma text_items_keys d : (text_items d).*1 = d.*1.
Proof. unfold text_items. induction d as [|[k0 v0] d IH]; simpl; [done|]. by f_equal. Qed.

(** What [node_package] can end with: a record carrying the name and the
    cleaned version, or an exception, which is never [JSONDecodeError]. *)
Lemma node_package_outcome w k raw st :
  ∃ st',
    (∃ p, node_package w k (VStr raw) st = (Ok p, st') ∧
          name p = k ∧ version p = bare_version raw) ∨
    (∃ e, node_package w k (VStr raw) st = (Raise e, st') ∧ e ≠ JSONDecodeError).
Proof.
  unfold node_package. rewrite clean_version_is_bare.
  rewrite (bind_ok _ _ st (bare_version raw) st) by done.
  destruct (total_get_npm_package_size w k st) as (sz & st1 & H1).
  rewrite (bind_ok _ _ _ _ _ H1).
  rewrite (bind_ok _ _ st1 (bool_decide (k ∈ ["private-module"; "enterprise-pkg"])) st1)
    by done.
  destruct (total_get_npm_package_description w k st1) as (d & st2 & H2).
  rewrite (bind_ok _ _ _ _ _ H2).
  destruct (total_get_latest_npm_version w k st2) as (lv & st3 & H3).
  rewrite (bind_ok _ _ _ _ _ H3).
  unfold _check_security_vulnerabilities.
  rewrite bool_decide_false by done. rewrite bool_decide_true by done.
  unfold bind, run_and_decode, ret.
  destruct (run_tool w (length (trace st3)) ["npm"; "audit"; "package"; k]);
    eexists; eauto.
Qed.

Lemma node_items_outcome w items : ∀ results st r st',
  node_items w (text_items items) results st = (r, st') →
  match r with
  | Ok out =>
      (λ p, (name p, version p)) <$> out =
      ((λ p, (name p, version p)) <$> results) ++
      ((λ kv, (kv.1, bare_version kv.2)) <$> items)
  | Raise e => e ≠ JSONDecodeError
  end.
Proof.
  induction items as [|[k raw] items IH]; intros results st r st'; simpl.
  - intros [= <- <-]. by rewrite app_nil_r.
  - intros Hrun.
    destruct (node_package_outcome w k raw st) as (st1 & [(p & Hp & Hn & Hv)|(e & He & Hne)]).
    + rewrite (bind_ok _ _ _ _ _ Hp) in Hrun. apply IH in Hrun.
      destruct r as [out|e]; [|done].
      rewrite Hrun, fmap_app, <- app_assoc. simpl. by rewrite Hn, Hv.
    + rewrite (bind_raise _ _ _ _ _ He) in Hrun. by injection Hrun as <- <-.
Qed.

Lemma dict_set_text_items m k raw :
  ∃ m', dict_set (text_items m) k (VStr raw) = text_items m'.
Proof.
  induction m as [|[k0 v0] m [m' IH]]; simpl.
  - by exists [(k, raw)].
  - case_bool_decide.
    + by exists ((k, raw) :: m).
    + exists ((k0, v0) :: m'). simpl. by rewrite IH.
Qed.

Lemma foldl_dict_set_text_items l : ∀ m,
  ∃ m', foldl (λ acc kv, dict_set acc kv.1 kv.2) (text_items m) (text_items l) =
        text_items m'.
Proof.
  induction l as [|[k raw] l IH]; intros m; simpl.
  - by exists m.
  - destruct (dict_set_text_items m k raw) as [m1 ->]. apply IH.
Qed.

Lemma dict_merge_text_items d1 d2 :
  ∃ m, dict_merge (text_items d1) (text_items d2) = text_items m.
Proof.
  unfold dict_merge, text_items. rewrite <- fmap_app.
  apply (foldl_dict_set_text_items (d1 ++ d2) []).
Qed.

Lemma lookup_text_elem m k raw :
  NoDup m.*1 → lookup_text m k = Some raw ↔ (k, raw) ∈ m.
Proof.
  induction m as [|[k0 v0] m IH]; simpl; intros Hnd.
  - rewrite elem_of_nil. split; [done|tauto].
  - apply NoDup_cons in Hnd as [Hk0 Hnd]. rewrite elem_of_cons. case_bool_decide.
    + subst k0. split; [by intros [= ->]; left|].
      intros [[= ->]|Hin]; [done|].
      destruct Hk0. apply list_elem_of_fmap. by exists (k, raw).
    + rewrite (IH Hnd). split; [by right|]. intros [[= ? ?]|?]; [congruence|done].
Qed.

Lemma total_node_package w k raw :
  (∀ t argv, ∃ out, run_tool w t argv = Printed out) →
  total (node_package w k (VStr raw)).
Proof.
  intros Haudit. unfold node_package. rewrite clean_version_is_bare.
  apply total_bind; [by intros st; eexists _, _|]. intros v.
  apply total_bind; [apply total_get_npm_package_size|]. intros sz.
  apply total_bind; [by intros st; eexists _, _|]. intros paid.
  apply total_bind; [apply total_get_npm_package_description|]. intros d.
  apply total_bind; [apply total_get_latest_npm_version|]. intros lv.
  apply total_bind; [|intros; apply total_ret].
  unfold _check_security_vulnerabilities.
  rewrite bool_decide_false by done. rewrite bool_decide_true by done.
  apply total_bind; [|intros; apply total_ret].
  intros st. unfold run_and_decode.
  destruct (Haudit (length (trace st)) ["npm"; "audit"; "package"; k]) as [out ->].
  by eexists _, _.
Qed.

Lemma total_node_items w items :
  (∀ t argv, ∃ out, run_tool w t argv = Printed out) →
  ∀ results, total (node_items w (text_items items) results).
Proof.
  intros Haudit. induction items as [|[k raw] items IH]; intros results; simpl.
  - apply total_ret.
  - apply total_bind; [by apply total_node_package|]. intros info. apply IH.
Qed.

(** C6: for a manifest that decodes to an object whose [dependencies] and
    [devDependencies] (each may be absent) map names to version strings,
    the records returned carry every declared name exactly once, a
    [devDependencies] entry taking the place of the [dependencies] entry of
    the same name, and each version is the declared string without its
    longest prefix of characters that are not digits.  On the sample
    manifest, [a] declared as ^1.0.0 and, for development, as 2.0.0 gives
    the single record of [a] with version 2.0.0. *)
Theorem node_manifest_merge :
  (∀ w path text data deps devs st results st',
     fs w path = Some (RegularFile text) →
     json_loads w text = Some (VDict data) →
     get_method (VDict data) "dependencies" (VDict []) = Ok (VDict (text_items deps)) →
     get_method (VDict data) "devDependencies" (VDict []) = Ok (VDict (text_items devs)) →
     NoDup deps.*1 → NoDup devs.*1 →
     _analyze_node_requirements w path st = (Ok results, st') →
     NoDup (name <$> results) ∧
     ∀ n v, (∃ p, p ∈ results ∧ name p = n ∧ version p = v) ↔
            (∃ raw, declared_version deps devs n = Some raw ∧ v = bare_version raw)) ∧
  (∀ w path text data deps devs st,
     fs w path = Some (RegularFile text) →
     json_loads w text = Some (VDict data) →
     get_method (VDict data) "dependencies" (VDict []) = Ok (VDict (text_items deps)) →
     get_method (VDict data) "devDependencies" (VDict []) = Ok (VDict (text_items devs)) →
     (∀ t argv, ∃ out, run_tool w t argv = Printed out) →
     ∃ results st', _analyze_node_requirements w path st = (Ok results, st')) ∧
  (∀ raw, clean_version_of (VStr raw) = Ok (drop_while (λ c, negb (isdigit c)) raw)) ∧
  (analyze_requirements sample_world "package.json" "node" init).1 =
    Ok [{| name := "a"; size := VInt 0; is_paid := false; version := "2.0.0";
           description := VStr "No description available"; latest_version := VStr "";
           vulnerabilities := "" |}].
Proof.
  split_and!; [| |apply clean_version_is_bare|by vm_compute]; cycle 1.
  { intros w path text data deps devs st Hfile Hjson Hdeps Hdevs Haudit.
    unfold _analyze_node_requirements, open_read, bind at 1, lift at 1.
    rewrite Hfile. unfold try_except_json, bind at 1, lift at 1, json_load.
    rewrite Hjson. unfold bind at 1, lift at 1, all_deps_of.
    rewrite Hdeps. cbn [rbind as_mapping]. rewrite Hdevs. cbn [rbind as_mapping].
    destruct (dict_merge_text_items deps devs) as [m ->].
    destruct (total_node_items w m Haudit [] st) as (results & st' & ->).
    by exists results, st'. }
  intros w path text data deps devs st results st' Hfile Hjson Hdeps Hdevs Hnd1 Hnd2.
  unfold _analyze_node_requirements, open_read, bind at 1, lift at 1.
  rewrite Hfile. unfold try_except_json, bind at 1, lift at 1, json_load.
  rewrite Hjson. unfold bind at 1, lift at 1, all_deps_of.
  rewrite Hdeps. cbn [rbind as_mapping]. rewrite Hdevs. cbn [rbind as_mapping].
  destruct (dict_merge_text_items deps devs) as [m Hm].
  pose proof (dict_merge_keys (text_items deps) (text_items devs)) as Hkeys.
  pose proof (λ k, dict_merge_get (text_items deps) (text_items devs) k) as Hget.
  rewrite !text_items_keys in Hget. specialize (λ k, Hget k Hnd1 Hnd2).
  rewrite Hm in *. rewrite text_items_keys in Hkeys.
  destruct (node_items w (text_items m) [] st) as [r st1] eqn:Hrun.
  apply node_items_outcome in Hrun.
  destruct r as [out|e]; [|by destruct e].
  intros [= -> ->]. simpl in Hrun. split.
  - replace (name <$> results) with (((λ p, (name p, version p)) <$> results).*1)
      by (by rewrite <- list_fmap_compose).
    rewrite Hrun, <- list_fmap_compose. done.
  - intros n v. transitivity ((n, v) ∈ (λ p, (name p, version p)) <$> results).
    { rewrite list_elem_of_fmap. split.
      - intros (p & Hin & <- & <-). eauto.
      - intros (p & [= -> ->] & Hin). eauto. }
    rewrite Hrun, list_elem_of_fmap. unfold declared_version.
    specialize (Hget n). rewrite !dict_get_text_items in Hget.
    split.
    + intros ([k raw] & [= -> ->] & Hin). exists raw. split; [|done].
      apply (lookup_text_elem m _ _ Hkeys) in Hin. rewrite Hin in Hget. simpl in Hget.
      destruct (lookup_text devs k); simpl in Hget; [congruence|].
      destruct (lookup_text deps k); simpl in Hget; congruence.
    + intros (raw & Hdecl & ->). exists (n, raw). split; [done|].
      apply (lookup_text_elem m _ _ Hkeys).
      destruct (lookup_text devs n); simpl in Hget.
      * destruct (lookup_text m n); simpl in Hget; congruence.
      * rewrite Hdecl in Hget. destruct (lookup_text m n); simpl in Hget; congruence.
Qed.

Lemma node_manifest_merge_witness :
  let results :=
    [{| name := "a"; size := VInt 0; is_paid := false; version := "2.0.0";
        description := VStr "No description available"; latest_version := VStr "";
        vulnerabilities := "" |}] in
  (NoDup (name <$> results) ∧
   ∀ n v, (∃ p, p ∈ results ∧ name p = n ∧ version p = v) ↔
          (∃ raw, declared_version [("a", "^1.0.0")] [("a", "2.0.0")] n = Some raw ∧
                  v = bare_version raw)) ∧
  ∃ out st', _analyze_node_requirements sample_world "package.json" init = (Ok out, st').
Proof.
  intros results. split.
  - apply (proj1 node_manifest_merge sample_world "package.json" "{a, a}"
             [("name", VStr "demo");
              ("dependencies", VDict [("a", VStr "^1.0.0")]);
              ("devDependencies", VDict [("a", VStr "2.0.0")])]
             [("a", "^1.0.0")] [("a", "2.0.0")] init results
             (_analyze_node_requirements sample_world "package.json" init).2).
    + reflexivity.
    + reflexivity.
    + reflexivity.
    + reflexivity.
    + apply NoDup_singleton.
    + apply NoDup_singleton.
    + vm_compute. reflexivity.
  - apply (proj1 (proj2 node_manifest_merge) sample_world "package.json" "{a, a}"
             [("name", VStr "demo");
              ("dependencies", VDict [("a", VStr "^1.0.0")]);
              ("devDependencies", VDict [("a", VStr "2.0.0")])]
             [("a", "^1.0.0")] [("a", "2.0.0")] init).
    + reflexivity.
    + reflexivity.
    + reflexivity.
    + reflexivity.
    + intros t argv. exists "". reflexivity.
Defined.

(** ** The size caches *)

Lemma append_length s t :
  String.length (s +:+ t) = (String.length s + String.length t)%nat.
Proof. induction s as [|c s IH]; [done|]. rewrite app_cons. simpl. by rewrite IH. Qed.

Lemma append_inj_r s s' t : s +:+ t = s' +:+ t → s = s'.
Proof.
  revert s'. induction s as [|c s IH]; intros [|c' s'] Heq.
  - done.
  - apply (f_equal String.length) in Heq. rewrite !append_length in Heq.
    simpl in Heq. lia.
  - apply (f_equal String.length) in Heq. rewrite !append_length in Heq.
    simpl in Heq. lia.
  - rewrite !app_cons in Heq. injection Heq as -> Heq. f_equal. by apply IH.
Qed.

Lemma url_of_inj r n r' n' : url_of r n = url_of r' n' → r = r' ∧ n = n'.
Proof.
  destruct r, r'; unfold url_of, pypi_url, npm_url; intros Heq.
  - split; [done|]. apply String.app_inj in Heq. by apply append_inj_r in Heq.
  - repeat rewrite app_cons in Heq. discriminate Heq.
  - repeat rewrite app_cons in Heq. discriminate Heq.
  - split; [done|]. by apply String.app_inj in Heq.
Qed.

(** A hit answers from the cache and does nothing else. *)
Lemma size_lookup_hit w r n st v :
  cache_of r st !! n = Some v → get_package_size w r n st = (Ok v, st).
Proof.
  destruct r; simpl; intros Hhit.
  - unfold _get_pypi_package_size. by rewrite Hhit.
  - unfold _get_npm_package_size. by rewrite Hhit.
Qed.

(** A miss makes one size lookup.  Its answer is stored, in the cache of
    that registry only, when it carries a size; otherwise nothing is stored
    and the result is 0. *)
Lemma size_lookup_miss w r n st :
  cache_of r st !! n = None →
  let answer := succeeded w r n (length (trace st)) in
  ∃ evs st',
    quiet evs ∧
    get_package_size w r n st = (Ok (default (VInt 0) answer), st') ∧
    cache_of r st' =
      match answer with
      | Some v => <[n := v]> (cache_of r st)
      | None => cache_of r st
      end ∧
    cache_of (other r) st' = cache_of (other r) st ∧
    trace st' = trace st ++ Request SizeLookup (url_of r n) :: evs.
Proof.
  assert (∀ message e, quiet [PrintError message e]) as Hprint.
  { intros message e. by repeat constructor. }
  assert (quiet []) as Hnil by constructor.
  destruct r; simpl; intros Hmiss; unfold succeeded, answered_size; simpl.
  - unfold _get_pypi_package_size. rewrite Hmiss.
    unfold bind, try_except, get, lift, json, pypi_cache_put, print_error, emit, ret.
    destruct (requests_get w (length (trace st)) (pypi_url n)) as [resp|e]; simpl;
      [destruct (status_code resp =? 200); simpl;
       [destruct (json_body resp) as [data|]; simpl;
        [destruct (pypi_release_size data) as [[v|]|e]; simpl|]|]|];
      first [by eexists [], _ | eexists [_], _; by rewrite <- app_assoc].
  - unfold _get_npm_package_size. rewrite Hmiss.
    unfold bind, try_except, get, lift, json, npm_cache_put, print_error, emit, ret.
    destruct (requests_get w (length (trace st)) (npm_url n)) as [resp|e]; simpl;
      [destruct (status_code resp =? 200); simpl;
       [destruct (json_body resp) as [data|]; simpl;
        [destruct (npm_version_size data) as [[v|]|e]; simpl|]|]|];
      first [by eexists [], _ | eexists [_], _; by rewrite <- app_assoc].
Qed.

Lemma quiet_lookup (tr evs : list event) t url :
  quiet evs →
  (tr ++ evs) !! t = Some (Request SizeLookup url) →
  tr !! t = Some (Request SizeLookup url).
Proof.
  intros Hq Hev. apply lookup_app_Some in Hev as [Hev|[_ Hev]]; [done|].
  apply list_elem_of_lookup_2 in Hev.
  by destruct (proj1 (Forall_forall _ _) Hq _ Hev url).
Qed.

Lemma extends_refl st : extends st st.
Proof. split; [done|]. by exists []; rewrite app_nil_r. Qed.

Lemma extends_trans st1 st2 st3 : extends st1 st2 → extends st2 st3 → extends st1 st3.
Proof.
  intros [Hc1 Ht1] [Hc2 Ht2]. split.
  - intros r. transitivity (cache_of r st2); [apply Hc1|apply Hc2].
  - by transitivity (trace st2).
Qed.

(** Steps that leave the caches alone and make no size lookup. *)
Lemma quiet_step_preserves w st st' evs :
  quiet evs →
  pypi_cache st' = pypi_cache st → npm_cache st' = npm_cache st →
  trace st' = trace st ++ evs →
  cache_invariant w st → cache_invariant w st' ∧ extends st st'.
Proof.
  intros Hq Hpy Hnpm Htr [Hsound Hcomplete Honce].
  assert (∀ r, cache_of r st' = cache_of r st) as Hcache by (by intros []).
  assert (∀ r n t, looked_up st' r n t → looked_up st r n t) as Hold.
  { intros r n t. unfold looked_up. rewrite Htr. by apply quiet_lookup. }
  split; [split|].
  - intros r n v. rewrite Hcache. intros (t & Ht & Hv)%Hsound. exists t. split; [|done].
    unfold looked_up in *. rewrite Htr. by apply lookup_app_l_Some.
  - intros r n t v Ht Hv. rewrite Hcache. eauto.
  - intros r n t t' Ht Hv Ht'. eauto.
  - split; [intros r; by rewrite Hcache|]. rewrite Htr. by apply prefix_app_r.
Qed.

(** A size lookup, hit or miss. *)
Lemma size_lookup_preserving w r n : preserving w (get_package_size w r n).
Proof.
  intros st res st' Hrun Hinv.
  destruct (cache_of r st !! n) as [v|] eqn:Hcache.
  { rewrite (size_lookup_hit _ _ _ _ _ Hcache) in Hrun. injection Hrun as <- <-.
    split; [done|apply extends_refl]. }
  destruct (size_lookup_miss w r n st Hcache) as (evs & st1 & Hq & Hrun1 & Hput & Hother & Htr).
  rewrite Hrun1 in Hrun. injection Hrun as <- <-.
  destruct Hinv as [Hsound Hcomplete Honce].
  set (t0 := length (trace st)) in *.
  assert (∀ r' n' t, looked_up st1 r' n' t →
            looked_up st r' n' t ∨ (t = t0 ∧ r' = r ∧ n' = n)) as Hcases.
  { intros r' n' t. unfold looked_up. rewrite Htr.
    intros Hev. apply lookup_app_Some in Hev as [Hev|[Hge Hev]]; [by left|right].
    destruct (t - length (trace st))%nat as [|i] eqn:Hi; simpl in Hev.
    - injection Hev as Hurl. apply url_of_inj in Hurl as [-> ->].
      split_and!; [subst t0; lia|done|done].
    - apply list_elem_of_lookup_2 in Hev.
      by destruct (proj1 (Forall_forall _ _) Hq _ Hev (url_of r' n')). }
  assert (∀ r' n' t, looked_up st r' n' t → looked_up st1 r' n' t ∧ (t < t0)%nat) as Hkeep.
  { intros r' n' t Ht. unfold looked_up in *. rewrite Htr. split.
    - by apply lookup_app_l_Some.
    - by apply lookup_lt_Some in Ht. }
  assert (looked_up st1 r n t0) as Hnew.
  { unfold looked_up. rewrite Htr. by rewrite list_lookup_middle. }
  assert (∀ r', cache_of r' st ⊆ cache_of r' st1) as Hgrow.
  { intros r'. destruct (decide (r' = r)) as [->|Hne].
    - rewrite Hput. destruct (succeeded w r n t0); [|done]. by apply insert_subseteq.
    - destruct r, r'; simpl in *; try done; by rewrite Hother. }
  split; [split|].
  - intros r' n' v Hv.
    destruct (decide (r' = r ∧ n' = n)) as [[-> ->]|Hne].
    + rewrite Hput in Hv. destruct (succeeded w r n t0) as [v0|] eqn:Hans.
      * rewrite lookup_insert_eq in Hv. injection Hv as <-. eauto.
      * congruence.
    + assert (cache_of r' st !! n' = Some v) as Hv'.
      { destruct (decide (r' = r)) as [->|Hr].
        - rewrite Hput in Hv. destruct (succeeded w r n t0); [|done].
          rewrite lookup_insert_ne in Hv; [done|]. intros ->. by apply Hne.
        - destruct r, r'; simpl in *; congruence. }
      apply Hsound in Hv' as (t & Ht & Hans). exists t. split; [|done]. by apply Hkeep.
  - intros r' n' t v Ht Hans. apply Hcases in Ht as [Ht|(-> & -> & ->)].
    + eapply lookup_weaken; [|apply Hgrow]. eauto.
    + rewrite Hput, Hans. apply lookup_insert_eq.
  - intros r' n' t t' Ht Hans Ht'.
    apply Hcases in Ht as [Ht|(Et & Er & En)];
      apply Hcases in Ht' as [Ht'|(Et' & Er' & En')].
    + eauto.
    + subst r' n'. destruct Hans as [v Hans].
      pose proof (Hcomplete _ _ _ _ Ht Hans). congruence.
    + apply Hkeep in Ht' as [_ ?]. lia.
    + lia.
  - split; [done|]. rewrite Htr. by apply prefix_app_r.
Qed.

Section Preserving.

Variable w : World.

Lemma preserving_ret {A} (a : A) : preserving w (ret a).
Proof. intros st r st' [= <- <-] Hinv. split; [done|apply extends_refl]. Qed.

Lemma preserving_lift {A} (r : result A) : preserving w (lift r).
Proof. intros st r' st' [= <- <-] Hinv. split; [done|apply extends_refl]. Qed.

Lemma preserving_bind {A B} (m : M A) (f : A → M B) :
  preserving w m → (∀ a, preserving w (f a)) → preserving w (bind m f).
Proof.
  intros Hm Hf st r st' Hrun Hinv.
  apply bind_inv in Hrun as [(a & st1 & Hrun1 & Hrun2)|(e & Hrun1 & _)].
  - destruct (Hm _ _ _ Hrun1 Hinv) as [Hinv1 Hext1].
    destruct (Hf a _ _ _ Hrun2 Hinv1) as [Hinv2 Hext2].
    split; [done|]. by apply (extends_trans _ st1).
  - by apply (Hm _ _ _ Hrun1).
Qed.

Lemma preserving_try_except {A} (m : M A) (h : exn → M A) :
  preserving w m → (∀ e, preserving w (h e)) → preserving w (try_except m h).
Proof.
  intros Hm Hh st r st' Hrun Hinv. unfold try_except in Hrun.
  destruct (m st) as [[a|e] st1] eqn:Hrun1.
  - injection Hrun as <- <-. by apply (Hm _ _ _ Hrun1).
  - destruct (Hm _ _ _ Hrun1 Hinv) as [Hinv1 Hext1].
    destruct (Hh e _ _ _ Hrun Hinv1) as [Hinv2 Hext2].
    split; [done|]. by apply (extends_trans _ st1).
Qed.

Lemma preserving_try_except_json {A} (m h : M A) :
  preserving w m → preserving w h → preserving w (try_except_json m h).
Proof.
  intros Hm Hh st r st' Hrun Hinv. unfold try_except_json in Hrun.
  destruct (m st) as [[a|e] st1] eqn:Hrun1.
  - injection Hrun as <- <-. by apply (Hm _ _ _ Hrun1).
  - destruct (Hm _ _ _ Hrun1 Hinv) as [Hinv1 Hext1].
    destruct (decide (e = JSONDecodeError)) as [->|Hne].
    + destruct (Hh _ _ _ Hrun Hinv1) as [Hinv2 Hext2].
      split; [done|]. by apply (extends_trans _ st1).
    + by destruct e; try done; injection Hrun as <- <-.
Qed.

Lemma preserving_emit ev :
  (∀ url, ev ≠ Request SizeLookup url) → preserving w (emit ev).
Proof.
  intros Hev st r st' [= <- <-]. apply (quiet_step_preserves _ _ _ [ev]); try done.
  by repeat constructor.
Qed.

Lemma preserving_get purpose url :
  purpose ≠ SizeLookup → preserving w (get w purpose url).
Proof.
  intros Hp st r st' [= <- <-].
  apply (quiet_step_preserves _ _ _ [Request purpose url]); try done.
  repeat constructor. congruence.
Qed.

Lemma preserving_run_and_decode argv : preserving w (run_and_decode w argv).
Proof.
  intros st r st' [= <- <-].
  apply (quiet_step_preserves _ _ _ [Subprocess argv]); try done.
  by repeat constructor.
Qed.

End Preserving.

(** Breaks a computation down into the steps above. *)
Ltac preserving_steps :=
  repeat first
    [ apply preserving_ret
    | apply preserving_lift
    | apply preserving_run_and_decode
    | apply preserving_get; discriminate
    | apply preserving_emit; discriminate
    | apply (size_lookup_preserving _ PyPI)
    | apply (size_lookup_preserving _ Npm)
    | apply preserving_bind; [|intros ?]
    | apply preserving_try_except; [|intros ?]
    | match goal with
      | |- preserving _ (if ?c then _ else _) => destruct c
      | |- preserving _ (match ?x with _ => _ end) => destruct x
      end ].

Section PreservingAnalysis.

Variable w : World.

Lemma preserving_python_package n v : preserving w (python_package w n v).
Proof.
  unfold python_package, _get_pypi_package_description, _get_latest_pypi_version,
    _check_security_vulnerabilities, print_error.
  preserving_steps.
Qed.

Lemma preserving_node_package n v : preserving w (node_package w n v).
Proof.
  unfold node_package, _get_npm_package_description, _get_latest_npm_version,
    _check_security_vulnerabilities, print_error.
  preserving_steps.
Qed.

Lemma preserving_python_lines lines : ∀ results, preserving w (python_lines w lines results).
Proof.
  induction lines as [|line lines IH]; intros results; simpl.
  - apply preserving_ret.
  - destruct (requirement_of_line line) as [[n v]|]; [|apply IH].
    apply preserving_bind; [apply preserving_python_package|]. intros info. apply IH.
Qed.

Lemma preserving_node_items items : ∀ results, preserving w (node_items w items results).
Proof.
  induction items as [|[n v] items IH]; intros results; simpl.
  - apply preserving_ret.
  - apply preserving_bind; [apply preserving_node_package|]. intros info. apply IH.
Qed.

Lemma preserving_analyze_requirements path file_type :
  preserving w (analyze_requirements w path file_type).
Proof.
  unfold analyze_requirements, _analyze_python_requirements, _analyze_node_requirements,
    open_read, print.
  destruct (negb (path_exists w path)); [apply preserving_lift|].
  destruct (bool_decide (file_type = "python")).
  { apply preserving_bind; [apply preserving_lift|]. intros text.
    apply preserving_python_lines. }
  destruct (bool_decide (file_type = "node")); [|apply preserving_lift].
  apply preserving_bind; [apply preserving_lift|]. intros text.
  apply preserving_try_except_json.
  - apply preserving_bind; [apply preserving_lift|]. intros data.
    apply preserving_bind; [apply preserving_lift|]. intros all_deps.
    apply preserving_node_items.
  - preserving_steps.
Qed.

Lemma preserving_all_projects paths file_type : ∀ acc,
  preserving w (all_projects w paths file_type acc).
Proof.
  induction paths as [|path paths IH]; intros acc; simpl.
  - apply preserving_ret.
  - apply preserving_bind; [apply preserving_analyze_requirements|]. intros pk. apply IH.
Qed.

End PreservingAnalysis.

Lemma cache_invariant_init w : cache_invariant w init.
Proof.
  split.
  - intros [] n v; simpl; by rewrite lookup_empty.
  - intros r n t v. unfold looked_up. simpl. by rewrite lookup_nil.
  - intros r n t t'. unfold looked_up. simpl. by rewrite lookup_nil.
Qed.

(** A requirement whose size is cached is resolved with that size. *)
Lemma python_package_cached w n ver st v info st' :
  pypi_cache st !! n = Some v →
  python_package w n ver st = (Ok info, st') → size info = v.
Proof.
  intros Hhit. unfold python_package.
  rewrite (bind_ok _ _ _ _ _ (size_lookup_hit w PyPI n st v Hhit)).
  intros Hrun.
  repeat (apply bind_inv in Hrun as [(? & ? & _ & Hrun)|(? & _ & [=])]).
  by injection Hrun as <- _.
Qed.

Lemma node_package_cached w n raw st v info st' :
  npm_cache st !! n = Some v →
  node_package w n raw st = (Ok info, st') → size info = v.
Proof.
  intros Hhit. unfold node_package. intros Hrun.
  apply bind_inv in Hrun as [(cv & st0 & Hclean & Hrun)|(? & _ & [=])].
  assert (st0 = st) as -> by (unfold lift in Hclean; congruence).
  rewrite (bind_ok _ _ _ _ _ (size_lookup_hit w Npm n st v Hhit)) in Hrun.
  repeat (apply bind_inv in Hrun as [(? & ? & _ & Hrun)|(? & _ & [=])]).
  by injection Hrun as <- _.
Qed.

(** C5: the size caches.  A size that is cached is returned as it is, with
    no interaction with the outside, and a requirement of that name is
    resolved with it.  A size that is not cached costs exactly one lookup;
    its answer is stored, in the cache of that registry only, when it
    carries a size, and nothing is stored otherwise, so that the next call
    asks the registry again.  Over any analysis that starts from a state in
    which the caches agree with the trace (a fresh analyzer is one): the
    caches still agree with the trace afterwards, so every cached size was
    answered by a lookup of the run that succeeded and every such answer is
    cached; entries are never dropped or changed; and no size lookup is made
    for a package whose size is cached. *)
Theorem size_cache_discipline :
  (∀ w r n st v,
     cache_of r st !! n = Some v → get_package_size w r n st = (Ok v, st)) ∧
  (∀ w n ver st v info st',
     pypi_cache st !! n = Some v →
     python_package w n ver st = (Ok info, st') → size info = v) ∧
  (∀ w n raw st v info st',
     npm_cache st !! n = Some v →
     node_package w n raw st = (Ok info, st') → size info = v) ∧
  (∀ w r n st,
     cache_of r st !! n = None →
     ∃ evs st',
       quiet evs ∧
       get_package_size w r n st =
         (Ok (default (VInt 0) (succeeded w r n (length (trace st)))), st') ∧
       cache_of r st' =
         match succeeded w r n (length (trace st)) with
         | Some v => <[n := v]> (cache_of r st)
         | None => cache_of r st
         end ∧
       cache_of (other r) st' = cache_of (other r) st ∧
       trace st' = trace st ++ Request SizeLookup (url_of r n) :: evs) ∧
  (∀ w, cache_invariant w init) ∧
  (∀ w paths file_type st res st',
     cache_invariant w st →
     analyze_multiple_projects w paths file_type st = (res, st') →
     cache_invariant w st' ∧
     ∀ r n v, cache_of r st !! n = Some v →
       cache_of r st' !! n = Some v ∧
       ∀ t, looked_up st' r n t → (t < length (trace st))%nat).
Proof.
  split_and!.
  - apply size_lookup_hit.
  - apply python_package_cached.
  - apply node_package_cached.
  - apply size_lookup_miss.
  - apply cache_invariant_init.
  - intros w paths file_type st res st' Hinv Hrun.
    destruct (preserving_all_projects w paths file_type [] _ _ _ Hrun Hinv)
      as [Hinv' [Hcaches Htrace]].
    split; [done|]. intros r n v Hv. split.
    + by eapply lookup_weaken; [|apply Hcaches].
    + intros t Ht.
      destruct (cached_was_fetched _ _ Hinv _ _ _ Hv) as (t0 & Ht0 & Hans).
      assert (looked_up st' r n t0) as Ht0'.
      { unfold looked_up in *. by eapply prefix_lookup_Some. }
      pose proof (no_lookup_after_success _ _ Hinv' r n t0 t Ht0' (mk_is_Some _ _ Hans) Ht).
      apply lookup_lt_Some in Ht0. lia.
Qed.

Lemma size_cache_discipline_witness :
  get_package_size sample_world PyPI "flask" warm = (Ok (VInt 101000), warm) ∧
  (∃ evs st',
     quiet evs ∧
     get_package_size sample_world Npm "flask" warm =
       (Ok (default (VInt 0) (succeeded sample_world Npm "flask" (length (trace warm)))), st') ∧
     cache_of Npm st' =
       match succeeded sample_world Npm "flask" (length (trace warm)) with
       | Some v => <["flask" := v]> (cache_of Npm warm)
       | None => cache_of Npm warm
       end ∧
     cache_of (other Npm) st' = cache_of (other Npm) warm ∧
     trace st' = trace warm ++ Request SizeLookup (url_of Npm "flask") :: evs) ∧
  let st1 := (analyze_multiple_projects sample_world ["requirements.txt"] "python" init).2 in
  let st2 := (analyze_multiple_projects sample_world ["requirements.txt"] "python" st1).2 in
  cache_invariant sample_world st2 ∧
  cache_of PyPI st2 !! "flask" = Some (VInt 101000) ∧
  ∀ t, looked_up st2 PyPI "flask" t → (t < length (trace st1))%nat.
Proof.
  destruct size_cache_discipline as (Hhit & _ & _ & Hmiss & Hinit & Hrun).
  split_and!.
  - apply Hhit. reflexivity.
  - apply Hmiss. reflexivity.
  - intros st1 st2.
    destruct (Hrun sample_world ["requirements.txt"] "python" init
                (analyze_multiple_projects sample_world ["requirements.txt"] "python" init).1
                st1 (Hinit sample_world) (surjective_pairing _)) as [Hinv1 _].
    destruct (Hrun sample_world ["requirements.txt"] "python" st1
                (analyze_multiple_projects sample_world ["requirements.txt"] "python" st1).1
                st2 Hinv1 (surjective_pairing _)) as [Hinv2 Hkept].
    split; [exact Hinv2|].
    apply (Hkept PyPI "flask" (VInt 101000)). vm_compute. reflexivity.
Defined.

(** ** Rounding to binary64 *)

Section Rounding.

(** The number of binary digits of a positive number. *)
Lemma digits2_pos_log2 p : Z.pos (digits2_pos p) = Z.succ (Z.log2 (Z.pos p)).
Proof.
  assert (∀ q, digits2_pos q = Pos.size q) as Hsize.
  { induction q as [q IH|q IH|]; simpl; congruence. }
  destruct p as [p|p|]; simpl; rewrite ?Hsize; lia.
Qed.

Lemma digits_of_bounds p d :
  1 <= d → 2 ^ (d - 1) <= Z.pos p < 2 ^ d → Z.pos (digits2_pos p) = d.
Proof.
  intros Hd Hp. rewrite digits2_pos_log2.
  rewrite (Z.log2_unique (Z.pos p) (d - 1)); [lia|lia|].
  replace (Z.succ (d - 1)) with d by lia. done.
Qed.

Lemma bounds_of_digits p :
  2 ^ (Z.pos (digits2_pos p) - 1) <= Z.pos p < 2 ^ Z.pos (digits2_pos p).
Proof.
  rewrite digits2_pos_log2. replace (Z.succ (Z.log2 (Z.pos p)) - 1) with (Z.log2 (Z.pos p)) by lia.
  apply Z.log2_spec. lia.
Qed.

Lemma iter_pos_nat {A} (f : A → A) p x :
  SpecFloat.iter_pos f p x = Nat.iter (Pos.to_nat p) f x.
Proof.
  revert x. induction p as [p IH|p IH|]; intros x; cbn [SpecFloat.iter_pos].
  - rewrite !IH, Pos2Nat.inj_xI, <- Nat.iter_add, <- Nat.iter_succ_r.
    f_equal. lia.
  - rewrite !IH, Pos2Nat.inj_xO, <- Nat.iter_add. f_equal. lia.
  - reflexivity.
Qed.

Lemma shr_1_nonneg m r s :
  0 <= m →
  shr_1 {| shr_m := m; shr_r := r; shr_s := s |} =
    {| shr_m := m / 2; shr_r := Z.odd m; shr_s := r || s |}.
Proof.
  intros Hm. rewrite <- Z.div2_div.
  destruct m as [|[p|p|]|p]; try reflexivity. lia.
Qed.


(** Shifting right by [n + 1] digits in one go: the quotient, the first
    digit shifted out, and whether a digit beyond it is set. *)
Lemma shr_iter n m :
  0 ≤ m →
  Nat.iter (S n) shr_1 {| shr_m := m; shr_r := false; shr_s := false |} =
    {| shr_m := m / 2 ^ Z.of_nat (S n);
       shr_r := Z.testbit m (Z.of_nat n);
       shr_s := negb (m mod 2 ^ Z.of_nat n =? 0) |}.
Proof.
  intros Hm. induction n as [|n IH].
  - change (Nat.iter 1 shr_1 ?x) with (shr_1 x). rewrite shr_1_nonneg by done.
    by rewrite Z.bit0_odd, Z.mod_1_r.
  - change (Nat.iter (S (S n)) shr_1 ?x) with (shr_1 (Nat.iter (S n) shr_1 x)).
    rewrite IH.
    assert (0 < 2 ^ Z.of_nat n) as Hpow by (apply Z.pow_pos_nonneg; lia).
    assert (2 ^ Z.of_nat (S n) = 2 ^ Z.of_nat n * 2) as Hs.
    { rewrite Nat2Z.inj_succ, Z.pow_succ_r by lia. lia. }
    assert (2 ^ Z.of_nat (S (S n)) = 2 ^ Z.of_nat (S n) * 2) as Hss.
    { rewrite (Nat2Z.inj_succ (S n)), Z.pow_succ_r by lia. lia. }
    rewrite shr_1_nonneg by (apply Z.div_pos; lia).
    f_equal.
    + rewrite Hss, Z.div_div by lia. done.
    + by rewrite Z.testbit_odd, Z.shiftr_div_pow2 by lia.
    + rewrite Hs, Z.rem_mul_r by lia.
      pose proof (Z.mod_pos_bound m (2 ^ Z.of_nat n) Hpow) as Hlow.
      pose proof (Z.mod_pos_bound (m / 2 ^ Z.of_nat n) 2 eq_refl) as Hbit.
      destruct (Z.testbit m (Z.of_nat n)) eqn:Htest.
      * apply Z.testbit_true in Htest; [|lia]. simpl. symmetry.
        apply negb_true_iff, Z.eqb_neq. nia.
      * assert ((m / 2 ^ Z.of_nat n) mod 2 = 0) as ->.
        { destruct (Z.eq_dec ((m / 2 ^ Z.of_nat n) mod 2) 1) as [H1|H1]; [|lia].
          apply Z.testbit_true in H1; [congruence|lia]. }
        simpl. by rewrite Z.mul_0_r, Z.add_0_r.
Qed.

(** Rounding the shifted number to nearest: the result is within half a
    unit of the exact quotient. *)
Lemma round_nearest_even_shifted n m :
  0 ≤ m →
  let h := 2 ^ Z.of_nat n in
  let q := m / (h * 2) in
  let m1 := round_nearest_even q
              (loc_of_shr_record
                 {| shr_m := q; shr_r := Z.testbit m (Z.of_nat n);
                    shr_s := negb (m mod h =? 0) |}) in
  q ≤ m1 ≤ q + 1 ∧ h * (2 * m1 - 1) ≤ m ≤ h * (2 * m1 + 1).
Proof.
  intros Hm h q m1.
  assert (0 < h) as Hpow by (apply Z.pow_pos_nonneg; lia).
  pose proof (Z.mod_pos_bound m h Hpow) as Hlow.
  pose proof (Z.mod_pos_bound (m / h) 2 eq_refl) as Hbit.
  pose proof (Z.div_mod m (h * 2) ltac:(lia)) as Hdiv. fold q in Hdiv.
  rewrite (Z.rem_mul_r m h 2) in Hdiv by lia.
  subst m1. simpl.
  destruct (Z.testbit m (Z.of_nat n)) eqn:Htest.
  - apply Z.testbit_true in Htest; [|lia]. fold h in Htest. rewrite Htest in Hdiv.
    destruct (m mod h =? 0) eqn:Hzero; simpl.
    + apply Z.eqb_eq in Hzero. destruct (Z.even q); lia.
    + apply Z.eqb_neq in Hzero. lia.
  - assert ((m / h) mod 2 = 0) as Hb.
    { destruct (Z.eq_dec ((m / h) mod 2) 1) as [H1|H1]; [|lia].
      apply Z.testbit_true in H1; [congruence|lia]. }
    rewrite Hb in Hdiv.
    destruct (m mod h =? 0) eqn:Hzero; simpl; lia.
Qed.


Lemma shr_nat mrs e n :
  shr mrs e (Z.of_nat (S n)) = (Nat.iter (S n) shr_1 mrs, e + Z.of_nat (S n)).
Proof.
  change (Z.of_nat (S n)) with (Z.pos (Pos.of_succ_nat n)). cbn [shr].
  by rewrite iter_pos_nat, SuccNat2Pos.id_succ.
Qed.

(** A mantissa of exactly 53 digits within the exponent range is kept. *)
Lemma binary_round_aux_exact s p e :
  Z.pos (digits2_pos p) = 53 → -1074 ≤ e ≤ 971 →
  binary_round_aux prec emax s (Z.pos p) e loc_Exact = S754_finite s p e.
Proof.
  intros Hd He. unfold binary_round_aux, shr_fexp, fexp, emin, prec, emax.
  cbn [Zdigits2 shr_record_of_loc]. rewrite Hd.
  replace (Z.max (53 + e - 53) (3 - 1024 - 53) - e) with 0 by lia.
  cbn [shr shr_m loc_of_shr_record round_nearest_even Zdigits2 shr_record_of_loc].
  rewrite Hd.
  replace (Z.max (53 + e - 53) (3 - 1024 - 53) - e) with 0 by lia.
  cbn [shr shr_m]. destruct (Z.leb_spec e (1024 - 53)); [done|lia].
Qed.

(** A longer mantissa is rounded to 53 digits: the result is the nearest
    multiple [m1] of [2 ^ (n + 1)], written with the exponent [e + n + 1],
    or, when [m1] has 54 digits, with half of it and one exponent more. *)
Lemma binary_round_aux_shifted s p e n :
  Z.pos (digits2_pos p) = Z.of_nat (S n) + 53 →
  -1074 ≤ e + Z.of_nat (S n) → e + Z.of_nat (S n) + 1 ≤ 971 →
  ∃ m1 m e',
    binary_round_aux prec emax s (Z.pos p) e loc_Exact = S754_finite s m e' ∧
    2 ^ Z.of_nat n * (2 * m1 - 1) ≤ Z.pos p ≤ 2 ^ Z.of_nat n * (2 * m1 + 1) ∧
    ((e' = e + Z.of_nat (S n) ∧ Z.pos m = m1) ∨
     (e' = e + Z.of_nat (S n) + 1 ∧ Z.pos m * 2 = m1)).
Proof.
  intros Hd Hlo Hhi.
  set (h := 2 ^ Z.of_nat n).
  assert (0 < h) as Hh by (apply Z.pow_pos_nonneg; lia).
  assert (2 ^ Z.of_nat (S n) = h * 2) as Hpow.
  { rewrite Nat2Z.inj_succ, Z.pow_succ_r by lia. lia. }
  pose proof (bounds_of_digits p) as Hp. rewrite Hd in Hp.
  replace (Z.of_nat (S n) + 53 - 1) with (Z.of_nat (S n) + 52) in Hp by lia.
  rewrite !Z.pow_add_r, Hpow in Hp by lia.
  pose proof (round_nearest_even_shifted n (Z.pos p) ltac:(lia)) as Hround.
  cbv zeta in Hround. fold h in Hround.
  set (q := Z.pos p / (h * 2)) in *.
  assert (2 ^ 52 ≤ q < 2 ^ 53) as Hq.
  { split; [apply Z.div_le_lower_bound; lia|apply Z.div_lt_upper_bound; lia]. }
  unfold binary_round_aux, shr_fexp, fexp, emin, prec, emax.
  cbn [Zdigits2 shr_record_of_loc]. rewrite Hd.
  replace (Z.max (Z.of_nat (S n) + 53 + e - 53) (3 - 1024 - 53) - e)
    with (Z.of_nat (S n)) by lia.
  rewrite shr_nat, shr_iter by lia. rewrite Hpow. fold h q.
  cbn [shr_m].
  set (m1 := round_nearest_even q _) in *.
  destruct Hround as [Hm1 Hnear].
  destruct m1 as [|pm|pm] eqn:Hpm; [lia| |lia].
  exists (Z.pos pm). cbn [Zdigits2 shr_record_of_loc].
  destruct (Z.eq_dec (Z.pos pm) (2 ^ 53)) as [Hcarry|Hcarry].
  - assert (Z.pos (digits2_pos pm) = 54) as ->.
    { apply digits_of_bounds; [lia|]. rewrite Hcarry. simpl. lia. }
    replace (Z.max (54 + (e + Z.of_nat (S n)) - 53) (3 - 1024 - 53) - (e + Z.of_nat (S n)))
      with 1 by lia.
    injection Hcarry as ->. cbn [shr SpecFloat.iter_pos shr_1 shr_m].
    destruct (Z.leb_spec (e + Z.of_nat (S n) + 1) (1024 - 53)); [|lia].
    eexists _, _. split; [done|]. split; [done|]. right. done.
  - assert (Z.pos (digits2_pos pm) = 53) as ->.
    { apply digits_of_bounds; [lia|]. simpl (53 - 1). lia. }
    replace (Z.max (53 + (e + Z.of_nat (S n)) - 53) (3 - 1024 - 53) - (e + Z.of_nat (S n)))
      with 0 by lia.
    cbn [shr shr_m].
    destruct (Z.leb_spec (e + Z.of_nat (S n)) (1024 - 53)); [|lia].
    eexists _, _. split; [done|]. split; [done|]. left. done.
Qed.


Lemma pos_iter_xO p k : Z.pos (Pos.iter xO p k) = Z.pos p * 2 ^ Z.pos k.
Proof.
  induction k as [|k IH] using Pos.peano_ind.
  - simpl. lia.
  - rewrite Pos.iter_succ, Pos2Z.inj_xO, IH, Pos2Z.inj_succ, Z.pow_succ_r by lia. lia.
Qed.

End Rounding.

Section Exact.

(** An integer of at most 53 digits converts to a float without rounding. *)
Lemma float_of_int_exact p :
  Z.pos p < 2 ^ 53 →
  ∃ mz, Z.pos mz = Z.pos p * 2 ^ (53 - Z.pos (digits2_pos p)) ∧
        2 ^ 52 ≤ Z.pos mz < 2 ^ 53 ∧
        float_of_int (Z.pos p) =
          Ok (S754_finite false mz (Z.pos (digits2_pos p) - 53)).
Proof.
  intros Hp. pose proof (bounds_of_digits p) as Hb.
  remember (Z.pos (digits2_pos p)) as d eqn:Hdigits.
  assert (1 ≤ d ≤ 53) as Hd.
  { split; [subst d; lia|]. destruct (Z.le_gt_cases d 53) as [|Hgt]; [done|].
    assert (2 ^ 53 ≤ 2 ^ (d - 1)) by (apply Z.pow_le_mono_r; lia). lia. }
  assert (2 ^ 52 = 2 ^ (d - 1) * 2 ^ (53 - d)) as H52.
  { rewrite <- Z.pow_add_r by lia. f_equal. lia. }
  assert (2 ^ 53 = 2 ^ d * 2 ^ (53 - d)) as H53.
  { rewrite <- Z.pow_add_r by lia. f_equal. lia. }
  assert (0 < 2 ^ (53 - d)) as Hs by (apply Z.pow_pos_nonneg; lia).
  unfold float_of_int, binary_normalize, binary_round, shl_align, fexp, emin, prec, emax.
  rewrite <- Hdigits.
  replace (Z.max (d + 0 - 53) (3 - 1024 - 53) - 0) with (d - 53) by lia.
  replace (Z.max (d + 0 - 53) (3 - 1024 - 53)) with (d - 53) by lia.
  change (binary_round_aux 53 1024) with (binary_round_aux prec emax).
  destruct (d - 53) as [|k|k] eqn:Hk; [|lia|].
  - exists p. replace (53 - d) with 0 in * by lia. rewrite Z.mul_1_r.
    split; [done|]. split; [nia|].
    rewrite binary_round_aux_exact; [done|lia|lia].
  - exists (Pos.iter xO p k). pose proof (pos_iter_xO p k) as Hmz.
    replace (53 - d) with (Z.pos k) in * by lia.
    split; [done|]. split; [nia|].
    rewrite binary_round_aux_exact; [done| |lia].
    apply digits_of_bounds; [lia|]. simpl (53 - 1). nia.
Qed.


(** The arithmetic behind the estimate: a number within half a unit [h] of
    [T * 0.15], scaled, truncates to the floor of [3 T / 20] as long as the
    unit is fine enough for the scale [K]. *)
Lemma nearest_truncates_to_floor T S h K m1 :
  0 < T → 0 < S → 0 < h → 0 < K →
  2 * h * K = S * 2 ^ 55 →
  4 * (T * S) < 20 * h →
  20 * h < 2 * h * K + 4 * (T * S) →
  h * (2 * m1 - 1) ≤ T * S * 5404319552844595 ≤ h * (2 * m1 + 1) →
  m1 / K = 3 * T / 20.
Proof.
  intros HT HS Hh HK HU Hlow Hhigh Hnear.
  set (q := 3 * T / 20).
  assert (20 * q ≤ 3 * T ≤ 20 * q + 19) as Hq.
  { pose proof (Z.div_mod (3 * T) 20 ltac:(lia)) as Hdm.
    pose proof (Z.mod_pos_bound (3 * T) 20 ltac:(lia)). fold q in Hdm. lia. }
  set (X := T * S) in *. set (U := h * K).
  assert (2 * U = S * 2 ^ 55) as HU' by (subst U; lia).
  assert (20 * (X * 5404319552844595) = 6 * (T * U) - 4 * X) as HXM.
  { replace (6 * (T * U)) with (3 * (T * (2 * U))) by lia. rewrite HU'.
    subst X. change (2 ^ 55) with 36028797018963968. lia. }
  assert (40 * (q * U) ≤ 6 * (T * U) ≤ 40 * (q * U) + 38 * U) as HTU.
  { assert (0 < U) by (subst U; nia). nia. }
  assert (20 * h < 2 * U + 4 * X) as Hhigh' by (subst U; lia).
  assert (K * q ≤ m1 < K * (q + 1)) as [Hlo Hup].
  { split.
    - destruct (Z.le_gt_cases (K * q) m1) as [|Hlt]; [done|exfalso].
      assert (h * (2 * m1 + 1) ≤ 2 * (q * U) - h) by (subst U; nia).
      lia.
    - destruct (Z.lt_ge_cases m1 (K * (q + 1))) as [|Hge]; [done|exfalso].
      assert (2 * (q * U) + 2 * U - h ≤ h * (2 * m1 - 1)) by (subst U; nia).
      lia. }
  symmetry. apply (Z.div_unique m1 K q (m1 - K * q)); lia.
Qed.

End Exact.

(** The literal is the quotient of 15 by 100 rounded to the nearest double. *)
Lemma lit_0_15_nearest :
  (x ←! float_of_int 15; y ←! float_of_int 100; Ok (SFdiv prec emax x y)) = Ok lit_0_15.
Proof. by vm_compute. Qed.

(** The overhead computed in floating point is the exact floor for every
    total below 7505999378950833, the first one for which it is not. *)
Lemma overhead_exact T :
  0 ≤ T < first_inexact_total →
  (x ←! int_times_float T lit_0_15; int_of_float x) = Ok (3 * T / 20).
Proof.
  unfold first_inexact_total. intros [HT0 HT].
  destruct (Z.le_gt_cases T 7505999378950826) as [Hgen|Hlast]; cycle 1.
  { assert (T = 7505999378950827 ∨ T = 7505999378950828 ∨ T = 7505999378950829 ∨
            T = 7505999378950830 ∨ T = 7505999378950831 ∨ T = 7505999378950832)
      as Hsix by lia.
    destruct Hsix as [->|[->|[->|[->|[->| ->]]]]]; by vm_compute. }
  destruct T as [|p|p]; [done| |lia].
  destruct (float_of_int_exact p) as (mz & Hmz & Hmzb & Hfloat).
  { change (2 ^ 53) with 9007199254740992. lia. }
  pose proof (bounds_of_digits p) as Hd.
  set (d := Z.pos (digits2_pos p)) in *.
  assert (1 ≤ d ≤ 53) as Hd53.
  { split; [subst d; lia|]. destruct (Z.le_gt_cases d 53) as [|Hgt]; [done|].
    assert (2 ^ 53 ≤ 2 ^ (d - 1)) by (apply Z.pow_le_mono_r; lia).
    change (2 ^ 53) with 9007199254740992 in *. lia. }
  unfold int_times_float. rewrite Hfloat. cbn [rbind].
  unfold float_mul, lit_0_15. cbn [SFmul xorb].
  set (P := (mz * 5404319552844595)%positive).
  assert (Z.pos P = Z.pos p * 2 ^ (53 - d) * 5404319552844595) as HP.
  { subst P. rewrite Pos2Z.inj_mul, Hmz. done. }
  pose proof (bounds_of_digits P) as HdP.
  set (dP := Z.pos (digits2_pos P)) in *.
  assert (dP = 105 ∨ dP = 106) as HdP'.
  { assert (2 ^ 104 ≤ Z.pos P < 2 ^ 106) as HPb.
    { rewrite HP, <- Hmz. change (2 ^ 104) with (2 ^ 52 * 2 ^ 52).
      change (2 ^ 106) with (2 ^ 53 * 2 ^ 53). nia. }
    destruct (Z.le_gt_cases dP 104) as [Hle|Hgt].
    { assert (2 ^ dP ≤ 2 ^ 104) by (apply Z.pow_le_mono_r; lia). lia. }
    destruct (Z.le_gt_cases 107 dP) as [Hge|Hlt]; [|lia].
    assert (2 ^ 106 ≤ 2 ^ (dP - 1)) by (apply Z.pow_le_mono_r; lia). lia. }
  assert (∃ n, (n = 51 ∨ n = 52)%nat ∧ dP = Z.of_nat (S n) + 53) as (n & Hn & HdPn).
  { destruct HdP' as [->| ->]; [exists 51%nat|exists 52%nat]; split; auto; lia. }
  destruct (binary_round_aux_shifted false P (d - 53 + -55) n HdPn)
    as (m1 & m & e' & -> & Hnear & Hcases); [lia..|].
  assert (e' < 0) as He' by lia.
  unfold int_of_float. destruct (Z.leb_spec 0 e') as [|_]; [lia|]. f_equal.
  set (k := 108 - d - Z.of_nat (S n)).
  assert (2 ≤ k) as Hk by (subst k; lia).
  assert (Z.pos m / 2 ^ (- e') = m1 / 2 ^ k) as ->.
  { destruct Hcases as [[-> <-]|[-> <-]].
    - f_equal. f_equal. subst k. lia.
    - replace (2 ^ k) with (2 ^ (- (d - 53 + -55 + Z.of_nat (S n) + 1)) * 2).
      + rewrite Z.div_mul_cancel_r; [done| |lia].
        apply Z.pow_nonzero; lia.
      + rewrite Z.mul_comm, <- Z.pow_succ_r by lia. f_equal. subst k. lia. }
  assert (0 < 2 ^ (53 - d)) as HS by (apply Z.pow_pos_nonneg; lia).
  assert (0 < 2 ^ k) as HK by (apply Z.pow_pos_nonneg; lia).
  assert (2 * 2 ^ Z.of_nat n * 2 ^ k = 2 ^ (53 - d) * 2 ^ 55) as HU.
  { rewrite <- (Z.pow_succ_r 2 (Z.of_nat n)), <- !Z.pow_add_r by lia.
    f_equal. subst k. lia. }
  rewrite HP, <- Hmz in HdP, Hnear. rewrite HdPn in HdP.
  change (2 ^ 52) with 4503599627370496 in Hmzb.
  change (2 ^ 53) with 9007199254740992 in Hmzb.
  apply (nearest_truncates_to_floor (Z.pos p) (2 ^ (53 - d)) (2 ^ Z.of_nat n));
    try done; try lia; rewrite <- ?Hmz.
  - destruct Hn as [-> | ->].
    + change (2 ^ Z.of_nat 51) with 2251799813685248. lia.
    + change (2 ^ Z.of_nat 52) with 4503599627370496. lia.
  - destruct Hn as [-> | ->].
    + assert (3 ≤ k) by (subst k; lia).
      assert (2 ^ 3 ≤ 2 ^ k) by (apply Z.pow_le_mono_r; lia).
      change (2 ^ Z.of_nat 51) with 2251799813685248 in *. nia.
    + change (Z.of_nat 53 + 53 - 1) with 105 in HdP.
      change (2 ^ 105) with 40564819207303340847894502572032 in HdP.
      assert (d ≤ 52) as Hd52.
      { destruct (Z.le_gt_cases d 52) as [|Hgt]; [done|].
        replace d with 53 in Hmz by lia. change (2 ^ (53 - 53)) with 1 in Hmz. lia. }
      assert (3 ≤ k) by (subst k; lia).
      assert (2 ^ 3 ≤ 2 ^ k) by (apply Z.pow_le_mono_r; lia).
      change (2 ^ Z.of_nat 52) with 4503599627370496 in *. nia.
Qed.

(** ** The size estimator *)

Section FloatSign.

(** Rounding keeps the sign it is given. *)
Lemma binary_round_aux_sign s m e l :
  match binary_round_aux prec emax s m e l with
  | S754_zero s' | S754_infinity s' | S754_finite s' _ _ => s' = s
  | S754_nan => True
  end.
Proof.
  unfold binary_round_aux.
  destruct (shr_fexp prec emax m e l) as [mrs' e'].
  destruct (shr_fexp prec emax _ e' loc_Exact) as [mrs'' e''].
  destruct (shr_m mrs''); [done| |done].
  by destruct (e'' <=? emax - prec).
Qed.

Lemma int_of_float_unsigned x z :
  match x with
  | S754_zero s | S754_infinity s | S754_finite s _ _ => s = false
  | S754_nan => True
  end →
  int_of_float x = Ok z → 0 ≤ z.
Proof.
  destruct x as [s|s| |s m e]; simpl; intros Hs; [by intros [= <-]|done|done|].
  subst s. intros [= <-]. destruct (0 <=? e) eqn:He.
  - apply Z.leb_le in He. apply Z.mul_nonneg_nonneg; [lia|]. by apply Z.pow_nonneg.
  - apply Z.leb_gt in He. apply Z.div_pos; [lia|]. apply Z.pow_pos_nonneg; lia.
Qed.

(** The product of a natural number and the literal is not negative. *)
Lemma overhead_nonneg T x z :
  0 ≤ T → int_times_float T lit_0_15 = Ok x → int_of_float x = Ok z → 0 ≤ z.
Proof.
  intros HT Hx. apply int_of_float_unsigned. revert Hx.
  unfold int_times_float, float_of_int, binary_normalize.
  destruct T as [|p|p]; [by intros [= <-]| |lia].
  unfold binary_round. destruct (shl_align _ _ _) as [mz ez].
  pose proof (binary_round_aux_sign false (Z.pos mz) ez loc_Exact) as Hsign.
  destruct (binary_round_aux prec emax false (Z.pos mz) ez loc_Exact) as [s|s| |s m e];
    simpl; [| done | by intros [= <-] |].
  - intros [= <-]. by subst s.
  - intros [= <-]. subst s. simpl. apply binary_round_aux_sign.
Qed.

End FloatSign.

Lemma sum_sizes_nonneg packages : ∀ acc T,
  0 ≤ acc →
  Forall (λ p, ∃ z, size p = VInt z ∧ 0 ≤ z) packages →
  sum_sizes acc packages = Ok T → 0 ≤ T.
Proof.
  induction packages as [|p packages IH]; intros acc T Hacc Hall; simpl.
  - by intros [= <-].
  - apply Forall_cons in Hall as [(z & Hz & Hpos) Hall]. rewrite Hz. simpl.
    apply IH; [lia|done].
Qed.

(** C9: when every package has a size that is a non-negative integer, each
    field of the estimate that [estimate_docker_sizes] returns is at least
    the base size of its variant for the ecosystem. *)
Theorem estimate_at_least_base packages package_type base estimate :
  Forall (λ p, ∃ z, size p = VInt z ∧ 0 ≤ z) packages →
  base_sizes package_type = Some base →
  estimate_docker_sizes packages package_type = Ok estimate →
  full base ≤ full estimate ∧ slim base ≤ slim estimate ∧ alpine base ≤ alpine estimate.
Proof.
  intros Hsizes Hbase. unfold estimate_docker_sizes.
  destruct (sum_sizes 0 packages) as [T|] eqn:Hsum; [|done]. simpl.
  pose proof (sum_sizes_nonneg packages 0 T (Z.le_refl 0) Hsizes Hsum) as HT.
  destruct (int_times_float T lit_0_15) as [x|] eqn:Hx; [|done]. simpl.
  destruct (int_of_float x) as [overhead|] eqn:Hover; [|done]. simpl.
  pose proof (overhead_nonneg T x overhead HT Hx Hover).
  rewrite Hbase. simpl. intros [= <-]. simpl. lia.
Qed.

Lemma estimate_at_least_base_witness :
  100 * MiB ≤ 100 * MiB + 101000 + 15150 ∧
  40 * MiB ≤ 40 * MiB + 101000 + 15150 ∧
  15 * MiB ≤ 15 * MiB + 101000 + 15150.
Proof.
  apply (estimate_at_least_base
           [{| name := "flask"; size := VInt 101000; is_paid := false; version := "2.0.1";
               description := VStr ""; latest_version := VStr "3.0.0";
               vulnerabilities := "" |}]
           "python"
           {| full := 100 * MiB; slim := 40 * MiB; alpine := 15 * MiB |}
           {| full := 100 * MiB + 101000 + 15150; slim := 40 * MiB + 101000 + 15150;
              alpine := 15 * MiB + 101000 + 15150 |}).
  - repeat constructor. exists 101000. split; [reflexivity | lia].
  - reflexivity.
  - vm_compute. reflexivity.
Defined.

(** C3, counterexample: the overhead is computed in binary64, and from
    about 6.67 PiB on the product can be rounded past an integer: for
    packages totalling 7505999378950833 bytes the estimate holds one byte
    more than the total plus the floor of 15 % of it. *)
Lemma estimate_beyond_float_precision :
  sum_sizes 0 [sized first_inexact_total] = Ok first_inexact_total ∧
  15 * first_inexact_total / 100 = 1125899906842624 ∧
  estimate_docker_sizes [sized first_inexact_total] "python" =
    Ok {| full := 100 * MiB + first_inexact_total + 1125899906842625;
          slim := 40 * MiB + first_inexact_total + 1125899906842625;
          alpine := 15 * MiB + first_inexact_total + 1125899906842625 |}.
Proof. by vm_compute. Qed.

(** C3, as the code has it: for packages whose sizes are integers with a
    total [T] from 0 up to, and not including, 7505999378950833 bytes, every
    variant of the estimate is its base size plus [T] plus the exact floor
    of 15 % of [T]; for python, [full] is 100 MiB + T + floor (15 T / 100).
    Whenever an estimate is returned for python, [full - slim] is 60 MiB. *)
Theorem estimate_exact_below_first_inexact_total :
  (∀ packages package_type base T,
     sum_sizes 0 packages = Ok T → 0 ≤ T < first_inexact_total →
     base_sizes package_type = Some base →
     estimate_docker_sizes packages package_type =
       Ok {| full := full base + T + 15 * T / 100;
             slim := slim base + T + 15 * T / 100;
             alpine := alpine base + T + 15 * T / 100 |}) ∧
  (∀ packages T,
     sum_sizes 0 packages = Ok T → 0 ≤ T < first_inexact_total →
     ∃ estimate,
       estimate_docker_sizes packages "python" = Ok estimate ∧
       full estimate = 100 * MiB + T + 15 * T / 100 ∧
       full estimate - slim estimate = 60 * MiB) ∧
  (∀ packages estimate,
     estimate_docker_sizes packages "python" = Ok estimate →
     full estimate - slim estimate = 60 * MiB).
Proof.
  assert (∀ packages package_type base T,
     sum_sizes 0 packages = Ok T → 0 ≤ T < first_inexact_total →
     base_sizes package_type = Some base →
     estimate_docker_sizes packages package_type =
       Ok {| full := full base + T + 15 * T / 100;
             slim := slim base + T + 15 * T / 100;
             alpine := alpine base + T + 15 * T / 100 |}) as Hexact.
  { intros packages package_type base T Hsum HT Hbase.
    unfold estimate_docker_sizes. rewrite Hsum. cbn [rbind].
    pose proof (overhead_exact T HT) as Hover.
    destruct (int_times_float T lit_0_15) as [x|e]; [|done]. cbn [rbind] in *.
    rewrite Hover. cbn [rbind]. rewrite Hbase. cbn [rbind].
    replace (15 * T / 100) with (3 * T / 20); [done|].
    replace (15 * T) with (5 * (3 * T)) by lia. change 100 with (5 * 20).
    by rewrite Z.div_mul_cancel_l. }
  split_and!.
  - done.
  - intros packages T Hsum HT. eexists. split; [by apply Hexact|]. simpl. lia.
  - intros packages estimate. unfold estimate_docker_sizes.
    destruct (sum_sizes 0 packages) as [T|]; [|done]. cbn [rbind].
    destruct (int_times_float T lit_0_15) as [x|]; [|done]. cbn [rbind].
    destruct (int_of_float x) as [overhead|]; [|done]. cbn [rbind].
    intros [= <-]. simpl. lia.
Qed.

Lemma estimate_exact_below_first_inexact_total_witness :
  estimate_docker_sizes [sized 101000; sized 64000] "python" =
    Ok {| full := 100 * MiB + 165000 + 15 * 165000 / 100;
          slim := 40 * MiB + 165000 + 15 * 165000 / 100;
          alpine := 15 * MiB + 165000 + 15 * 165000 / 100 |} ∧
  (∃ estimate,
     estimate_docker_sizes [sized 101000; sized 64000] "python" = Ok estimate ∧
     full estimate = 100 * MiB + 165000 + 15 * 165000 / 100 ∧
     full estimate - slim estimate = 60 * MiB) ∧
  104857600 + 2 ^ 60 + 172938225691027040 - (41943040 + 2 ^ 60 + 172938225691027040) =
    60 * MiB.
Proof.
  destruct estimate_exact_below_first_inexact_total as (Hexact & Hpython & Hdiff).
  split_and!.
  - apply (Hexact [sized 101000; sized 64000] "python"
             {| full := 100 * MiB; slim := 40 * MiB; alpine := 15 * MiB |} 165000).
    + reflexivity.
    + unfold first_inexact_total. lia.
    + reflexivity.
  - apply (Hpython [sized 101000; sized 64000] 165000).
    + reflexivity.
    + unfold first_inexact_total. lia.
  - apply (Hdiff [sized (2 ^ 60)]
             {| full := 104857600 + 2 ^ 60 + 172938225691027040;
                slim := 41943040 + 2 ^ 60 + 172938225691027040;
                alpine := 15728640 + 2 ^ 60 + 172938225691027040 |}).
    vm_compute. reflexivity.
Defined.

(** ** More on the conflict detector *)

Lemma check_for_conflicts_first l :
  _check_for_conflicts l =
    omap (λ p, conflict_against
                 (version <$> find (λ q, bool_decide (name q = name p)) l) p) l.
Proof.
  unfold _check_for_conflicts. rewrite conflicts_from_first_seen. simpl.
  apply omap_pointwise. intros p. unfold first_seen. by rewrite lookup_empty.
Qed.

Lemma find_name_some (l : list PackageInfo) n q :
  find (λ q, bool_decide (name q = n)) l = Some q → q ∈ l ∧ name q = n.
Proof.
  intros H. apply find_some in H as [Hin Hn].
  split; [by apply list_elem_of_In | by apply bool_decide_eq_true in Hn].
Qed.

Lemma find_name_is_some (l : list PackageInfo) p :
  p ∈ l → is_Some (find (λ q, bool_decide (name q = name p)) l).
Proof.
  intros Hp. destruct (find _ l) eqn:Hf; [by eexists|].
  apply list_elem_of_In in Hp.
  pose proof (find_none _ _ Hf _ Hp) as Hn. simpl in Hn.
  by rewrite bool_decide_true in Hn.
Qed.

Lemma find_app_some {A} (f : A → bool) (l1 l2 : list A) x :
  find f l1 = Some x → find f (l1 ++ l2) = Some x.
Proof.
  induction l1 as [|y l1 IH]; [done|]. simpl. by destruct (f y).
Qed.

Lemma omap_nil_iff {A B} (f : A → option B) (l : list A) :
  omap f l = [] ↔ ∀ x, x ∈ l → f x = None.
Proof.
  induction l as [|x l IH].
  - split; [|done]. intros _ x Hx. by apply elem_of_nil in Hx.
  - rewrite omap_cons. split.
    + intros H y Hy. destruct (f x) eqn:Hfx; [done|].
      apply elem_of_cons in Hy as [->|Hy]; [done|]. by apply IH.
    + intros H. rewrite (H x) by apply list_elem_of_here.
      apply IH. intros y Hy. apply H. by apply list_elem_of_further.
Qed.

Lemma omap_local {A B} (f g : A → option B) (l : list A) :
  (∀ x, x ∈ l → f x = g x) → omap f l = omap g l.
Proof.
  induction l as [|x l IH]; intros H; [done|].
  rewrite !omap_cons, (H x) by apply list_elem_of_here.
  rewrite IH; [done|]. intros y Hy. apply H. by apply list_elem_of_further.
Qed.

(** X1: the detector reports nothing exactly when any two packages of the
    list that have the same name also have the same version string. *)
Theorem no_conflict_iff_versions_agree (l : list PackageInfo) :
  _check_for_conflicts l = [] ↔
  ∀ p q, p ∈ l → q ∈ l → name p = name q → version p = version q.
Proof.
  rewrite check_for_conflicts_first, omap_nil_iff. split.
  - intros H.
    assert (∀ p, p ∈ l → ∃ q0, find (λ q, bool_decide (name q = name p)) l = Some q0 ∧
                              version q0 = version p) as Hfirst.
    { intros p Hp. destruct (find_name_is_some l p Hp) as [q0 Hq0].
      exists q0. split; [done|]. specialize (H p Hp). rewrite Hq0 in H. simpl in H.
      case_bool_decide as Hv; [done|]. by destruct (decide (version q0 = version p)). }
    intros p q Hp Hq Hn.
    destruct (Hfirst p Hp) as (p0 & Hp0 & <-).
    destruct (Hfirst q Hq) as (q0 & Hq0 & <-).
    rewrite Hn in Hp0. congruence.
  - intros H p Hp. destruct (find _ l) as [q0|] eqn:Hq0; [|done].
    apply find_name_some in Hq0 as [Hin Hn]. simpl.
    rewrite bool_decide_false; [done|]. intros Hne. apply Hne. by apply H.
Qed.

(** X2: analysing more packages never removes or changes a conflict that
    was already reported: the conflicts of a list are a prefix of the
    conflicts of any longer list that starts with it, and every record that
    comes after concerns a package of the added part, set against a
    different version. *)
Theorem conflicts_grow_with_the_list (l1 l2 : list PackageInfo) :
  ∃ more,
    _check_for_conflicts (l1 ++ l2) = _check_for_conflicts l1 ++ more ∧
    ∀ n v1 v2, (n, v1, v2) ∈ more →
      v1 ≠ v2 ∧ ∃ p, p ∈ l2 ∧ name p = n ∧ version p = v2.
Proof.
  exists (omap (λ p, conflict_against
                       (version <$> find (λ q, bool_decide (name q = name p)) (l1 ++ l2)) p) l2).
  split.
  - rewrite !check_for_conflicts_first, omap_app. f_equal.
    apply omap_local. intros p Hp.
    destruct (find_name_is_some l1 p Hp) as [q0 Hq0].
    by rewrite Hq0, (find_app_some _ _ _ _ Hq0).
  - intros n v1 v2 Hc. apply list_elem_of_omap in Hc as (p & Hp & Hc).
    destruct (find _ (l1 ++ l2)) as [q0|]; [|done]. simpl in Hc.
    case_bool_decide as Hv; [|done]. injection Hc as <- <- <-.
    split; [done|]. by exists p.
Qed.
(** ** More on requirement lines *)

Section MoreTextFacts.

Implicit Types (s t : string) (p : ascii → bool).

Lemma all_chars_take_while p s : all_chars p (take_while p s) = true.
Proof.
  induction s as [|c s IH]; simpl; [done|].
  destruct (p c) eqn:Hc; simpl; [|done]. by rewrite Hc.
Qed.

Lemma startswith_take_while p s : startswith (take_while p s) s = true.
Proof.
  induction s as [|c s IH]; simpl; [done|].
  destruct (p c); simpl; [|done]. by rewrite bool_decide_true.
Qed.

Lemma take_while_all p s : all_chars p s = true → take_while p s = s.
Proof.
  induction s as [|c s IH]; simpl; [done|].
  destruct (p c); simpl; [|done]. intros H. by rewrite IH.
Qed.

Lemma append_assoc s t u : (s +:+ t) +:+ u = s +:+ t +:+ u.
Proof. induction s as [|c s IH]; [done|]. by rewrite !app_cons, IH. Qed.

Lemma append_nil_r s : s +:+ "" = s.
Proof. induction s as [|c s IH]; [done|]. by rewrite app_cons, IH. Qed.

Lemma all_chars_app p s t :
  all_chars p (s +:+ t) = all_chars p s && all_chars p t.
Proof.
  induction s as [|c s IH]; [done|]. rewrite app_cons. simpl.
  by rewrite IH, andb_assoc.
Qed.

Lemma all_chars_impl p q s :
  (∀ c, p c = true → q c = true) → all_chars p s = true → all_chars q s = true.
Proof.
  intros Hpq. induction s as [|c s IH]; simpl; [done|].
  intros [Hc Hs]%andb_true_iff. by rewrite (Hpq c Hc), IH.
Qed.

(** A run followed by a text that does not continue it. *)
Lemma take_while_app p s t :
  all_chars p s = true →
  match t with String c _ => p c = false | "" => True end →
  take_while p (s +:+ t) = s ∧ drop_while p (s +:+ t) = t.
Proof.
  intros Hs Ht. induction s as [|c s IH].
  - change ("" +:+ t) with t. destruct t as [|c t]; [done|]. simpl. by rewrite Ht.
  - rewrite app_cons. simpl in *. apply andb_true_iff in Hs as [Hc Hs].
    rewrite Hc. destruct (IH Hs) as [-> ->]. done.
Qed.

Lemma drop_while_app_all p s t :
  all_chars p s = true → drop_while p (s +:+ t) = drop_while p t.
Proof.
  induction s as [|c s IH]; [done|]. rewrite app_cons. simpl.
  intros [Hc Hs]%andb_true_iff. rewrite Hc. by apply IH.
Qed.

Lemma drop_while_none p s :
  all_chars (λ c, negb (p c)) s = true → drop_while p s = s.
Proof.
  destruct s as [|c s]; simpl; [done|].
  intros [Hc _]%andb_true_iff. apply negb_true_iff in Hc. by rewrite Hc.
Qed.

Lemma rev_onto_append s t acc : rev_onto (s +:+ t) acc = rev_onto t (rev_onto s acc).
Proof.
  revert acc. induction s as [|c s IH]; intros acc; [done|].
  rewrite app_cons. simpl. apply IH.
Qed.

Lemma reverse_app s t : reverse (s +:+ t) = reverse t +:+ reverse s.
Proof. unfold reverse at 1. by rewrite rev_onto_append, rev_onto_app. Qed.

Lemma reverse_involutive s : reverse (reverse s) = s.
Proof.
  induction s as [|c s IH]; [done|].
  change (reverse (String c s)) with (rev_onto s (String c "")).
  rewrite rev_onto_app, reverse_app, IH. done.
Qed.

Lemma all_chars_rev_onto p s acc :
  all_chars p s = true → all_chars p acc = true → all_chars p (rev_onto s acc) = true.
Proof.
  revert acc. induction s as [|c s IH]; intros acc; simpl; [done|].
  intros [Hc Hs]%andb_true_iff Hacc. apply IH; [done|]. simpl. by rewrite Hc.
Qed.

Lemma all_chars_reverse p s : all_chars p s = true → all_chars p (reverse s) = true.
Proof. intros H. by apply all_chars_rev_onto. Qed.

(** Stripping removes the white space around a text that contains none. *)
Lemma strip_padded pre s post :
  all_chars isspace pre = true → all_chars isspace post = true →
  all_chars (λ c, negb (isspace c)) s = true →
  strip (pre +:+ s +:+ post) = s.
Proof.
  intros Hpre Hpost Hs. unfold strip, lstrip, rstrip.
  rewrite (drop_while_app_all _ _ _ Hpre).
  destruct s as [|c s].
  - change ("" +:+ post) with post. by rewrite (drop_while_all _ _ Hpost).
  - rewrite app_cons. simpl in Hs. apply andb_true_iff in Hs as [Hc Hs].
    cbn [drop_while]. apply negb_true_iff in Hc as Hc'. rewrite Hc'.
    rewrite <- app_cons, reverse_app.
    rewrite drop_while_app_all by by apply all_chars_reverse.
    rewrite drop_while_none; [apply reverse_involutive|].
    apply all_chars_reverse. simpl. by rewrite Hc, Hs.
Qed.

End MoreTextFacts.

Lemma name_char_not_space c : is_name_char c = true → isspace c = false.
Proof. by destruct c as [[] [] [] [] [] [] [] []]. Qed.

Lemma cmp_char_not_space c : is_cmp_char c = true → isspace c = false.
Proof. by destruct c as [[] [] [] [] [] [] [] []]. Qed.

Lemma name_char_not_cmp c : is_name_char c = true → is_cmp_char c = false.
Proof. by destruct c as [[] [] [] [] [] [] [] []]. Qed.

Lemma nonempty_true s : s ≠ "" → nonempty s = true.
Proof. by destruct s. Qed.

(** X3: every record read from a requirements file has a name that is not
    empty and is made of the characters [a-zA-Z0-9-._] only, and a version
    made of the same characters (possibly empty); the name is the start of
    the stripped line. *)
Theorem requirement_records_well_formed :
  (∀ line n v,
     requirement_of_line line = Some (n, v) →
     n ≠ "" ∧ all_chars is_name_char n = true ∧ all_chars is_name_char v = true ∧
     startswith n (strip line) = true) ∧
  (∀ w path st out st',
     _analyze_python_requirements w path st = (Ok out, st') →
     Forall (λ p, name p ≠ "" ∧ all_chars is_name_char (name p) = true ∧
                  all_chars is_name_char (version p) = true) out).
Proof.
  assert (∀ line n v,
     requirement_of_line line = Some (n, v) →
     n ≠ "" ∧ all_chars is_name_char n = true ∧ all_chars is_name_char v = true ∧
     startswith n (strip line) = true) as Hline.
  { intros line n v. rewrite requirement_of_line_runs. cbv zeta.
    destruct (nonempty (take_while _ _)) eqn:Hn; [|done].
    intros [= <- <-]. split_and!.
    - intros Heq. by rewrite Heq in Hn.
    - apply all_chars_take_while.
    - destruct (_ && _); [apply all_chars_take_while|done].
    - apply startswith_take_while. }
  split; [done|].
  intros w path st out st' Hrun. unfold _analyze_python_requirements in Hrun.
  apply bind_inv in Hrun as [(text & st1 & Hopen & Hlines)|(e & _ & ?)]; [|done].
  unfold open_read, lift in Hopen.
  destruct (fs w path) as [[text'|]|] eqn:Hfs; try done.
  injection Hopen as <- <-.
  apply python_lines_records in Hlines. simpl in Hlines.
  apply Forall_forall. intros p Hp.
  assert ((name p, version p) ∈ omap requirement_of_line (readlines text')) as Hin.
  { rewrite <- Hlines. apply list_elem_of_fmap. by exists p. }
  apply list_elem_of_omap in Hin as (line & _ & Hline').
  by destruct (Hline _ _ _ Hline') as (? & ? & ? & _).
Qed.

Lemma requirement_records_well_formed_witness :
  "flask" ≠ "" ∧ all_chars is_name_char "flask" = true ∧
  all_chars is_name_char "2.0.1" = true ∧
  startswith "flask" (strip "  flask>=2.0.1 ; python_version > '3'") = true.
Proof.
  apply (proj1 requirement_records_well_formed "  flask>=2.0.1 ; python_version > '3'").
  reflexivity.
Defined.

(** X4: writing a requirement and reading it back: a name, a run of
    comparison characters and a version, with white space around, is read as
    that name and that version; a name alone, as the name and no version. *)
Theorem requirement_line_round_trip (pre n ops v post : string) :
  all_chars isspace pre = true → all_chars isspace post = true →
  n ≠ "" → all_chars is_name_char n = true →
  ops ≠ "" → all_chars is_cmp_char ops = true →
  v ≠ "" → all_chars is_name_char v = true →
  requirement_of_line (pre +:+ (n +:+ ops +:+ v) +:+ post) = Some (n, v) ∧
  requirement_of_line (pre +:+ n +:+ post) = Some (n, "").
Proof.
  intros Hpre Hpost Hn Hnc Hops Hopsc Hv Hvc.
  assert (all_chars (λ c, negb (isspace c)) n = true) as Hn_sp.
  { apply (all_chars_impl is_name_char); [|done].
    intros c Hc. by rewrite (name_char_not_space c Hc). }
  assert (all_chars (λ c, negb (isspace c)) ops = true) as Hops_sp.
  { apply (all_chars_impl is_cmp_char); [|done].
    intros c Hc. by rewrite (cmp_char_not_space c Hc). }
  assert (all_chars (λ c, negb (isspace c)) v = true) as Hv_sp.
  { apply (all_chars_impl is_name_char); [|done].
    intros c Hc. by rewrite (name_char_not_space c Hc). }
  split.
  - rewrite requirement_of_line_runs. cbv zeta.
    rewrite strip_padded; [|done|done|].
    2:{ by rewrite !all_chars_app, Hn_sp, Hops_sp, Hv_sp. }
    destruct (take_while_app is_name_char n (ops +:+ v) Hnc) as [-> ->].
    { destruct ops as [|c ops]; [done|]. rewrite app_cons.
      simpl in Hopsc. apply andb_true_iff in Hopsc as [Hc _].
      by apply cmp_char_not_name. }
    destruct (take_while_app is_cmp_char ops v Hopsc) as [-> ->].
    { destruct v as [|c v]; [done|].
      simpl in Hvc. apply andb_true_iff in Hvc as [Hc _].
      by apply name_char_not_cmp. }
    rewrite (take_while_all _ _ Hvc), !nonempty_true by done. done.
  - rewrite requirement_of_line_runs. cbv zeta.
    rewrite strip_padded by done.
    rewrite (take_while_all _ _ Hnc), (drop_while_all _ _ Hnc), nonempty_true by done.
    done.
Qed.

Lemma requirement_line_round_trip_witness :
  requirement_of_line (" " +:+ ("Django" +:+ ">=" +:+ "4.2") +:+ String "010" "") =
    Some ("Django", "4.2") ∧
  requirement_of_line (" " +:+ "Django" +:+ String "010" "") = Some ("Django", "").
Proof.
  apply (requirement_line_round_trip " " "Django" ">=" "4.2" (String "010" ""));
    first [reflexivity | discriminate].
Defined.
(** ** More on the size estimator *)

Lemma sum_sizes_raise packages : ∀ acc e,
  sum_sizes acc packages = Raise e →
  e = TypeError ∧ Exists (λ p, as_index (size p) = None) packages.
Proof.
  induction packages as [|p packages IH]; intros acc e; [done|].
  cbn [sum_sizes]. unfold int_add.
  destruct (as_index (size p)) as [z|] eqn:Hz; cbn [rbind].
  - intros H. destruct (IH _ _ H) as [-> Hex]. split; [done|]. by apply Exists_cons_tl.
  - intros [= <-]. split; [done|]. by apply Exists_cons_hd.
Qed.

Lemma sum_sizes_perm l1 l2 :
  l1 ≡ₚ l2 → ∀ acc, sum_sizes acc l1 = sum_sizes acc l2.
Proof.
  induction 1 as [|p l1 l2 _ IH|p q l|l1 l2 l3 _ IH1 _ IH2]; intros acc.
  - done.
  - cbn [sum_sizes]. destruct (int_add acc (size p)); cbn [rbind]; [apply IH|done].
  - cbn [sum_sizes]. unfold int_add.
    destruct (as_index (size p)) as [x|], (as_index (size q)) as [y|]; cbn [rbind]; try done.
    by replace (acc + y + x) with (acc + x + y) by lia.
  - by rewrite IH1, IH2.
Qed.

Lemma estimate_not_type_error T package_type :
  (product ←! int_times_float T lit_0_15;
   overhead ←! int_of_float product;
   base ←! match base_sizes package_type with
           | Some sizes => Ok sizes
           | None => Raise KeyError
           end;
   Ok {| full := full base + T + overhead;
         slim := slim base + T + overhead;
         alpine := alpine base + T + overhead |}) ≠ Raise TypeError.
Proof.
  unfold int_times_float, float_of_int.
  destruct (binary_normalize prec emax T 0 false); cbn [rbind]; try done;
    (destruct (int_of_float _) as [z|err] eqn:Hz; cbn [rbind];
     [destruct (base_sizes package_type); cbn [rbind]; done|]);
    intros [= ->]; revert Hz; unfold int_of_float;
    match goal with |- context [match ?x with _ => _ end] => by destruct x end.
Qed.

Lemma not_a_number_index v : not_a_number v = true ↔ as_index v = None.
Proof. by destruct v. Qed.

Lemma integral_index v : integral v = true ↔ is_Some (as_index v).
Proof. destruct v; simpl; split; try done; try by intros []. all: by eexists. Qed.

Lemma sum_sizes_integral packages : ∀ acc,
  Forall (λ p, integral (size p) = true) packages →
  ∃ T, sum_sizes acc packages = Ok T.
Proof.
  induction packages as [|p packages IH]; intros acc Hall; [by eexists|].
  apply Forall_cons in Hall as [[z Hz]%integral_index Hall].
  cbn [sum_sizes]. unfold int_add. rewrite Hz. cbn [rbind]. by apply IH.
Qed.

Lemma sum_sizes_app l1 l2 acc :
  sum_sizes acc (l1 ++ l2) = (T ←! sum_sizes acc l1; sum_sizes T l2).
Proof.
  revert acc. induction l1 as [|p l1 IH]; intros acc; [done|].
  cbn [sum_sizes app]. destruct (int_add acc (size p)); cbn [rbind]; [apply IH|done].
Qed.

(** X5: how the estimator fails.  A TypeError of the estimator means that
    the size of some package is not a number: it is [None], a string, a
    list or an object.  Conversely, when such a size comes after sizes that
    are all ints or bools, the estimator raises TypeError, whatever the
    ecosystem and whatever sizes follow: the sum is taken before the base
    sizes are looked up.  For an ecosystem without base sizes the estimator
    never returns an estimate; and for such an ecosystem, with sizes that
    are ints or bools and a total below the first inexact one, the failure
    is the KeyError of the missing base sizes. *)
Theorem estimate_failures :
  (∀ packages package_type,
     estimate_docker_sizes packages package_type = Raise TypeError →
     Exists (λ p, not_a_number (size p) = true) packages) ∧
  (∀ pre p rest package_type,
     Forall (λ q, integral (size q) = true) pre →
     not_a_number (size p) = true →
     estimate_docker_sizes (pre ++ p :: rest) package_type = Raise TypeError) ∧
  (∀ packages package_type,
     package_type ≠ "python" → package_type ≠ "node" →
     ∃ e, estimate_docker_sizes packages package_type = Raise e) ∧
  (∀ packages package_type T,
     Forall (λ q, integral (size q) = true) packages →
     sum_sizes 0 packages = Ok T → 0 ≤ T < first_inexact_total →
     package_type ≠ "python" → package_type ≠ "node" →
     estimate_docker_sizes packages package_type = Raise KeyError).
Proof.
  split_and!.
  - intros packages t. unfold estimate_docker_sizes.
    destruct (sum_sizes 0 packages) as [T|e] eqn:Hsum; cbn [rbind].
    + intros H. by apply estimate_not_type_error in H.
    + intros _. apply sum_sizes_raise in Hsum as [_ Hex].
      eapply Exists_impl; [exact Hex|]. intros q Hq. by apply not_a_number_index.
  - intros pre p rest t Hpre Hp. unfold estimate_docker_sizes.
    rewrite sum_sizes_app. destruct (sum_sizes_integral pre 0 Hpre) as [T ->].
    cbn [rbind sum_sizes]. unfold int_add.
    apply not_a_number_index in Hp. by rewrite Hp.
  - intros packages t Hp Hn. unfold estimate_docker_sizes.
    assert (base_sizes t = None) as Hbase.
    { unfold base_sizes. by rewrite !bool_decide_false. }
    rewrite Hbase.
    destruct (sum_sizes 0 packages); cbn [rbind]; [|by eexists].
    destruct (int_times_float _ _); cbn [rbind]; [|by eexists].
    destruct (int_of_float _); cbn [rbind]; by eexists.
  - intros packages t T _ Hsum HT Hp Hn. unfold estimate_docker_sizes.
    rewrite Hsum. cbn [rbind].
    pose proof (overhead_exact T HT) as Hover.
    destruct (int_times_float T lit_0_15) as [x|]; cbn [rbind] in *; [|done].
    rewrite Hover. cbn [rbind].
    unfold base_sizes. by rewrite !bool_decide_false.
Qed.

Lemma estimate_failures_witness :
  estimate_docker_sizes
    ([sized 101000] ++
     {| name := "a"; size := VNone; is_paid := false; version := "1.0.0";
        description := VStr ""; latest_version := VStr ""; vulnerabilities := "" |} ::
     [sized 64000]) "python" = Raise TypeError ∧
  (∃ e, estimate_docker_sizes [sized 101000] "ruby" = Raise e) ∧
  estimate_docker_sizes [sized 101000] "ruby" = Raise KeyError.
Proof.
  split_and!.
  - apply (proj1 (proj2 estimate_failures)); [|reflexivity].
    repeat constructor.
  - apply (proj1 (proj2 (proj2 estimate_failures)) [sized 101000] "ruby"); discriminate.
  - apply (proj2 (proj2 (proj2 estimate_failures)) [sized 101000] "ruby" 101000);
      [repeat constructor | reflexivity | unfold first_inexact_total; lia
      | discriminate | discriminate].
Defined.

(** X6: for packages whose sizes are ints or bools, the estimate depends on
    the packages through the total of their sizes only: listing the same
    packages in another order gives the same outcome (the same estimate, or
    the same exception), and the three variants of an estimate differ by
    the differences of the base sizes. *)
Theorem estimate_depends_on_total_only :
  (∀ l1 l2 package_type,
     Forall (λ q, integral (size q) = true) l1 →
     l1 ≡ₚ l2 →
     estimate_docker_sizes l1 package_type = estimate_docker_sizes l2 package_type) ∧
  (∀ packages package_type base estimate,
     Forall (λ q, integral (size q) = true) packages →
     base_sizes package_type = Some base →
     estimate_docker_sizes packages package_type = Ok estimate →
     full estimate - slim estimate = full base - slim base ∧
     slim estimate - alpine estimate = slim base - alpine base) ∧
  (∀ packages estimate,
     Forall (λ q, integral (size q) = true) packages →
     estimate_docker_sizes packages "node" = Ok estimate →
     full estimate - slim estimate = 50 * MiB ∧
     slim estimate - alpine estimate = 23 * MiB).
Proof.
  assert (∀ packages package_type base estimate,
     base_sizes package_type = Some base →
     estimate_docker_sizes packages package_type = Ok estimate →
     full estimate - slim estimate = full base - slim base ∧
     slim estimate - alpine estimate = slim base - alpine base) as Hgap.
  { intros packages t base est Hbase. unfold estimate_docker_sizes. rewrite Hbase.
    destruct (sum_sizes 0 packages); cbn [rbind]; [|done].
    destruct (int_times_float _ _); cbn [rbind]; [|done].
    destruct (int_of_float _); cbn [rbind]; [|done].
    intros [= <-]. cbn [full slim alpine]. lia. }
  split_and!.
  - intros l1 l2 t _ Hperm. unfold estimate_docker_sizes.
    by rewrite (sum_sizes_perm _ _ Hperm).
  - intros packages t base est _. apply Hgap.
  - intros packages est _ Hest.
    by destruct (Hgap packages "node" _ est eq_refl Hest) as [-> ->].
Qed.

Lemma estimate_depends_on_total_only_witness :
  estimate_docker_sizes [sized 101000; sized 64000] "node" =
    estimate_docker_sizes [sized 64000; sized 101000] "node" ∧
  85 * MiB + 165000 + 24750 - (35 * MiB + 165000 + 24750) = 50 * MiB ∧
  35 * MiB + 165000 + 24750 - (12 * MiB + 165000 + 24750) = 23 * MiB.
Proof.
  split.
  - apply (proj1 estimate_depends_on_total_only); [repeat constructor|].
    apply Permutation_swap.
  - apply (proj2 (proj2 estimate_depends_on_total_only) [sized 101000; sized 64000]
             {| full := 85 * MiB + 165000 + 24750;
                slim := 35 * MiB + 165000 + 24750;
                alpine := 12 * MiB + 165000 + 24750 |}); [repeat constructor|].
    vm_compute. reflexivity.
Defined.

(** ** The size in a registry answer *)

Lemma of_packagetype_filter packagetype files :
  Forall (λ f, is_Some (packagetype_of f)) files →
  of_packagetype packagetype files = Ok (List.filter (is_kind packagetype) files).
Proof.
  induction 1 as [|f files [t Ht] _ IH]; [done|].
  cbn [of_packagetype List.filter]. unfold is_kind. rewrite Ht.
  destruct f as [| | | | |d]; try done. simpl in Ht.
  unfold getitem. rewrite Ht. cbn [rbind]. rewrite IH. done.
Qed.

Lemma of_packagetype_raises packagetype files :
  Exists (λ f, packagetype_of f = None) files →
  ∃ e, of_packagetype packagetype files = Raise e.
Proof.
  induction 1 as [f files Hf|f files _ [e IH]]; cbn [of_packagetype].
  - assert (∃ e, getitem f (VStr "packagetype") = Raise e) as [e ->]; [|by eexists].
    destruct f as [| | | | |d]; try by eexists.
    simpl in *. rewrite Hf. by eexists.
  - destruct (getitem f _); cbn [rbind]; [|by eexists].
    rewrite IH. by eexists.
Qed.

Lemma filter_head_find {A} (f : A → bool) (l : list A) :
  head (List.filter f l) = find f l.
Proof. induction l as [|x l IH]; [done|]. simpl. by destruct (f x). Qed.

(** X7: the size read from a PyPI answer.  In a document whose latest
    version is listed among the releases, with release files that all carry
    a [packagetype], the size is that of the first wheel when there is one,
    wherever it stands among the files; else that of the first source
    distribution; else 0.  A file without [packagetype] makes the whole
    walk raise, even when a wheel is listed.  A document without [info], or
    whose latest version is not among the releases, gives no size. *)
Theorem pypi_size_prefers_wheel :
  (∀ d info ver rel files,
     dict_get d "info" = Some (VDict info) →
     dict_get info "version" = Some (VStr ver) →
     dict_get d "releases" = Some (VDict rel) →
     dict_get rel ver = Some (VList files) →
     Forall (λ f, is_Some (packagetype_of f)) files →
     pypi_release_size (VDict d) =
       match find (is_kind "bdist_wheel") files with
       | Some wheel => size ←! getitem wheel (VStr "size"); Ok (Some size)
       | None =>
           match find (is_kind "sdist") files with
           | Some sdist => size ←! getitem sdist (VStr "size"); Ok (Some size)
           | None => Ok (Some (VInt 0))
           end
       end) ∧
  (∀ d info ver rel files,
     dict_get d "info" = Some (VDict info) →
     dict_get info "version" = Some (VStr ver) →
     dict_get d "releases" = Some (VDict rel) →
     dict_get rel ver = Some (VList files) →
     Exists (λ f, packagetype_of f = None) files →
     ∃ e, pypi_release_size (VDict d) = Raise e) ∧
  (∀ d, dict_get d "info" = None → pypi_release_size (VDict d) = Ok None) ∧
  (∀ d info ver rel,
     dict_get d "info" = Some (VDict info) →
     dict_get info "version" = Some (VStr ver) →
     dict_get d "releases" = Some (VDict rel) →
     dict_get rel ver = None →
     pypi_release_size (VDict d) = Ok None).
Proof.
  assert (∀ d info ver rel,
     dict_get d "info" = Some (VDict info) →
     dict_get info "version" = Some (VStr ver) →
     dict_get d "releases" = Some (VDict rel) →
     pypi_release_size (VDict d) =
       match dict_get rel ver with
       | Some files =>
           items ←! iterate files;
           wheel_files ←! of_packagetype "bdist_wheel" items;
           size ←!
             match wheel_files with
             | wheel :: _ => getitem wheel (VStr "size")
             | [] =>
                 sdist_files ←! of_packagetype "sdist" items;
                 match sdist_files with
                 | sdist :: _ => getitem sdist (VStr "size")
                 | [] => Ok (VInt 0)
                 end
             end;
           Ok (Some size)
       | None => Ok None
       end) as Hwalk.
  { intros d info ver rel Hinfo Hver Hrel. unfold pypi_release_size.
    cbn [contains_value getitem rbind]. rewrite Hinfo. cbn [rbind contains_value].
    rewrite Hver, Hrel. rewrite !bool_decide_true by eauto.
    cbn [rbind contains_value getitem]. rewrite Hver. cbn [rbind contains_value getitem].
    destruct (dict_get rel ver) as [files|]; [|by rewrite bool_decide_false by by intros []].
    by rewrite bool_decide_true by eauto. }
  split_and!.
  - intros d info ver rel files Hinfo Hver Hrel Hfiles Hkinds.
    rewrite (Hwalk _ _ _ _ Hinfo Hver Hrel), Hfiles. cbn [iterate rbind].
    rewrite !of_packagetype_filter by done. cbn [rbind].
    rewrite <- !filter_head_find.
    destruct (List.filter (is_kind "bdist_wheel") files) as [|wheel ?]; cbn [head]; [|done].
    destruct (List.filter (is_kind "sdist") files) as [|sdist ?]; cbn [head]; done.
  - intros d info ver rel files Hinfo Hver Hrel Hfiles Hbad.
    rewrite (Hwalk _ _ _ _ Hinfo Hver Hrel), Hfiles. cbn [iterate rbind].
    destruct (of_packagetype_raises "bdist_wheel" files Hbad) as [e ->]. by eexists.
  - intros d Hinfo. unfold pypi_release_size. cbn [contains_value rbind].
    rewrite Hinfo. by rewrite bool_decide_false by by intros [].
  - intros d info ver rel Hinfo Hver Hrel Hnone.
    by rewrite (Hwalk _ _ _ _ Hinfo Hver Hrel), Hnone.
Qed.

Lemma pypi_size_prefers_wheel_witness :
  pypi_release_size
    (VDict [("info", VDict [("version", VStr "3.0.0")]);
            ("releases", VDict
               [("3.0.0", VList
                   [VDict [("packagetype", VStr "sdist"); ("size", VInt 680000)];
                    VDict [("packagetype", VStr "bdist_wheel"); ("size", VInt 101000)];
                    VDict [("packagetype", VStr "bdist_wheel"); ("size", VInt 99000)]])])]) =
    Ok (Some (VInt 101000)) ∧
  (∃ e, pypi_release_size
    (VDict [("info", VDict [("version", VStr "3.0.0")]);
            ("releases", VDict
               [("3.0.0", VList
                   [VDict [("packagetype", VStr "bdist_wheel"); ("size", VInt 101000)];
                    VDict [("size", VInt 680000)]])])]) = Raise e) ∧
  pypi_release_size (VDict [("message", VStr "Not Found")]) = Ok None ∧
  pypi_release_size
    (VDict [("info", VDict [("version", VStr "3.0.0")]);
            ("releases", VDict [("2.0.0", VList [])])]) = Ok None.
Proof.
  split_and!.
  - apply (proj1 pypi_size_prefers_wheel _ [("version", VStr "3.0.0")] "3.0.0"
             [("3.0.0", VList
                 [VDict [("packagetype", VStr "sdist"); ("size", VInt 680000)];
                  VDict [("packagetype", VStr "bdist_wheel"); ("size", VInt 101000)];
                  VDict [("packagetype", VStr "bdist_wheel"); ("size", VInt 99000)]])]
             [VDict [("packagetype", VStr "sdist"); ("size", VInt 680000)];
              VDict [("packagetype", VStr "bdist_wheel"); ("size", VInt 101000)];
              VDict [("packagetype", VStr "bdist_wheel"); ("size", VInt 99000)]]);
      [reflexivity | reflexivity | reflexivity | reflexivity |].
    repeat constructor; by eexists.
  - apply (proj1 (proj2 pypi_size_prefers_wheel) _ [("version", VStr "3.0.0")] "3.0.0"
             [("3.0.0", VList
                 [VDict [("packagetype", VStr "bdist_wheel"); ("size", VInt 101000)];
                  VDict [("size", VInt 680000)]])]
             [VDict [("packagetype", VStr "bdist_wheel"); ("size", VInt 101000)];
              VDict [("size", VInt 680000)]]);
      [reflexivity | reflexivity | reflexivity | reflexivity |].
    apply Exists_cons_tl, Exists_cons_hd. reflexivity.
  - apply (proj1 (proj2 (proj2 pypi_size_prefers_wheel))). reflexivity.
  - apply (proj2 (proj2 (proj2 pypi_size_prefers_wheel)) _ [("version", VStr "3.0.0")] "3.0.0"
             [("2.0.0", VList [])]); reflexivity.
Defined.

(** X8: the size read from an npm answer.  In a document whose [latest]
    tag is a non-empty string listed among the versions, with a [dist]
    entry, the size is [unpackedSize] when [dist] has that key, else [size]
    when it has that one, else 0.  A document without [dist-tags] makes the
    walk raise KeyError; a missing or empty [latest] tag, or one that is not
    among the versions, gives no size. *)
Theorem npm_size_prefers_unpacked :
  (∀ d tags ver vs vd dist,
     dict_get d "dist-tags" = Some (VDict tags) →
     dict_get tags "latest" = Some (VStr ver) → ver ≠ "" →
     dict_get d "versions" = Some (VDict vs) →
     dict_get vs ver = Some (VDict vd) →
     dict_get vd "dist" = Some (VDict dist) →
     npm_version_size (VDict d) =
       Ok (Some match dict_get dist "unpackedSize" with
                | Some unpacked => unpacked
                | None => default (VInt 0) (dict_get dist "size")
                end)) ∧
  (∀ d, dict_get d "dist-tags" = None → npm_version_size (VDict d) = Raise KeyError) ∧
  (∀ d tags,
     dict_get d "dist-tags" = Some (VDict tags) →
     dict_get tags "latest" = None ∨ dict_get tags "latest" = Some (VStr "") →
     npm_version_size (VDict d) = Ok None) ∧
  (∀ d tags ver vs,
     dict_get d "dist-tags" = Some (VDict tags) →
     dict_get tags "latest" = Some (VStr ver) →
     dict_get d "versions" = Some (VDict vs) →
     dict_get vs ver = None →
     npm_version_size (VDict d) = Ok None).
Proof.
  split_and!.
  - intros d tags ver vs vd dist Htags Hlatest Hver Hvs Hvd Hdist.
    unfold npm_version_size. cbn [getitem rbind]. rewrite Htags. cbn [rbind get_method].
    rewrite Hlatest. cbn [from_option id truthy]. rewrite (nonempty_true _ Hver).
    rewrite Hvs. cbn [rbind contains_value getitem]. rewrite Hvd.
    rewrite bool_decide_true by eauto. cbn [rbind getitem]. rewrite Hdist.
    cbn [rbind get_method]. by destruct (dict_get dist "unpackedSize"), (dict_get dist "size").
  - intros d Htags. unfold npm_version_size. cbn [getitem]. by rewrite Htags.
  - intros d tags Htags Hlatest. unfold npm_version_size.
    cbn [getitem rbind]. rewrite Htags. cbn [rbind get_method].
    by destruct Hlatest as [-> | ->].
  - intros d tags ver vs Htags Hlatest Hvs Hnone.
    unfold npm_version_size. cbn [getitem rbind]. rewrite Htags. cbn [rbind get_method].
    rewrite Hlatest. cbn [from_option id truthy].
    destruct (nonempty ver); [|done].
    rewrite Hvs. cbn [rbind contains_value]. rewrite Hnone.
    by rewrite bool_decide_false by by intros [].
Qed.

Lemma npm_size_prefers_unpacked_witness :
  npm_version_size
    (VDict [("dist-tags", VDict [("latest", VStr "4.17.21")]);
            ("versions", VDict
               [("4.17.21", VDict
                   [("dist", VDict [("size", VInt 300000);
                                    ("unpackedSize", VInt 1412415)])])])]) =
    Ok (Some (VInt 1412415)) ∧
  npm_version_size (VDict [("error", VStr "Not found")]) = Raise KeyError ∧
  npm_version_size (VDict [("dist-tags", VDict [("next", VStr "5.0.0")])]) = Ok None ∧
  npm_version_size
    (VDict [("dist-tags", VDict [("latest", VStr "4.17.21")]);
            ("versions", VDict [])]) = Ok None.
Proof.
  split_and!.
  - apply (proj1 npm_size_prefers_unpacked _ [("latest", VStr "4.17.21")] "4.17.21"
             [("4.17.21", VDict
                 [("dist", VDict [("size", VInt 300000); ("unpackedSize", VInt 1412415)])])]
             [("dist", VDict [("size", VInt 300000); ("unpackedSize", VInt 1412415)])]
             [("size", VInt 300000); ("unpackedSize", VInt 1412415)]);
      first [reflexivity | discriminate].
  - apply (proj1 (proj2 npm_size_prefers_unpacked)). reflexivity.
  - apply (proj1 (proj2 (proj2 npm_size_prefers_unpacked)) _ [("next", VStr "5.0.0")]);
      [reflexivity | left; reflexivity].
  - apply (proj2 (proj2 (proj2 npm_size_prefers_unpacked)) _
             [("latest", VStr "4.17.21")] "4.17.21" []); reflexivity.
Defined.

(** ** The lookups of one resolution *)

Ltac run_lookup :=
  unfold bind, try_except, get, lift, ret, print_error, emit, json,
    pypi_cache_put, npm_cache_put;
  repeat first
    [ progress cbn [pypi_cache npm_cache trace fst snd from_option default id]
    | match goal with
      | |- context [match requests_get ?w ?t ?u with _ => _ end] =>
          destruct (requests_get w t u) as [?|?] eqn:?
      | |- context [if status_code ?r =? 200 then _ else _] =>
          destruct (status_code r =? 200) eqn:?
      | |- context [match json_body ?r with _ => _ end] =>
          destruct (json_body r) eqn:?
      | |- context [match getitem ?a ?b with _ => _ end] =>
          destruct (getitem a b) eqn:?
      | |- context [match get_method ?a ?b ?c with _ => _ end] =>
          destruct (get_method a b c) eqn:?
      | |- context [match pypi_release_size ?a with _ => _ end] =>
          destruct (pypi_release_size a) as [[?|]|?] eqn:?
      | |- context [match npm_version_size ?a with _ => _ end] =>
          destruct (npm_version_size a) as [[?|]|?] eqn:?
      end ].

Lemma size_lookup_events w r n st :
  match cache_of r st !! n with
  | Some v => get_package_size w r n st = (Ok v, st)
  | None =>
      ∃ v evs st',
        get_package_size w r n st = (Ok v, st') ∧
        trace st' = trace st ++ Request SizeLookup (url_of r n) :: evs ∧
        forallb is_report evs = true
  end.
Proof.
  destruct r; cbn [cache_of get_package_size url_of];
    [unfold _get_pypi_package_size; destruct (pypi_cache st !! n) eqn:Hc
    |unfold _get_npm_package_size; destruct (npm_cache st !! n) eqn:Hc]; try done;
    run_lookup.
  all: eexists _, _, _; split; [reflexivity|];
       cbn [trace]; rewrite <- ?app_assoc; split; reflexivity.
Qed.

Lemma interactions_app evs1 evs2 :
  interactions (evs1 ++ evs2) = interactions evs1 ++ interactions evs2.
Proof. apply List.filter_app. Qed.

Lemma interactions_request purpose url evs :
  interactions (Request purpose url :: evs) = Request purpose url :: interactions evs.
Proof. done. Qed.

Lemma interactions_reports evs : forallb is_report evs = true → interactions evs = [].
Proof.
  induction evs as [|ev evs IH]; [done|]. simpl.
  intros [Hev Hevs]%andb_true_iff. destruct ev; try done. by apply IH.
Qed.

Lemma reports_not_print evs :
  forallb is_report evs = true → Forall (λ ev, ∀ m, ev ≠ Print m) evs.
Proof.
  induction evs as [|ev evs IH]; [done|]. simpl.
  intros [Hev Hevs]%andb_true_iff. constructor; [|by apply IH]. by destruct ev.
Qed.

Lemma detail_lookup_events w r d n st :
  ∃ v evs st',
    get_detail w r d n st = (Ok v, st') ∧
    trace st' = trace st ++ Request (purpose_of d) (url_of r n) :: evs ∧
    forallb is_report evs = true.
Proof.
  destruct r, d; cbn [get_detail purpose_of url_of];
    [unfold _get_pypi_package_description | unfold _get_latest_pypi_version
    |unfold _get_npm_package_description | unfold _get_latest_npm_version];
    run_lookup.
  all: eexists _, _, _; split; [reflexivity|];
       cbn [trace]; rewrite <- ?app_assoc; split; reflexivity.
Qed.

Lemma bind_lift_ok {A B} (a : A) (f : A → M B) st : bind (lift (Ok a)) f st = f a st.
Proof. done. Qed.

Lemma is_paid_known r n :
  _is_paid_package n (ecosystem r) =
    Ok (bool_decide (n ∈ default [] (known_paid_services (ecosystem r)))).
Proof. by destruct r. Qed.

(** One resolution up to the audit: the size, description and version
    lookups have been made, nothing has been printed but reports of
    failures, and what is left is the run of the audit tool. *)
Lemma resolve_steps w r n ver st :
  ∃ sz d lv evs st3,
    trace st3 = trace st ++ evs ∧
    interactions evs =
      (if bool_decide (is_Some (cache_of r st !! n)) then []
       else [Request SizeLookup (url_of r n)]) ++
      [Request DescriptionLookup (url_of r n); Request VersionLookup (url_of r n)] ∧
    Forall (λ ev, ∀ m, ev ≠ Print m) evs ∧
    resolve w r n ver st =
      bind (run_and_decode w (audit_argv r n))
        (λ out, ret {| name := n; size := sz;
                       is_paid := bool_decide (n ∈ default [] (known_paid_services (ecosystem r)));
                       version := recorded_version r ver;
                       description := d; latest_version := lv;
                       vulnerabilities := strip out |}) st3.
Proof.
  assert (∃ sz evs0 st0,
            get_package_size w r n st = (Ok sz, st0) ∧
            trace st0 = trace st ++ evs0 ∧
            interactions evs0 =
              (if bool_decide (is_Some (cache_of r st !! n)) then []
               else [Request SizeLookup (url_of r n)]) ∧
            Forall (λ ev, ∀ m, ev ≠ Print m) evs0) as (sz & evs0 & st0 & Hsz & Htr0 & Hint0 & Hnp0).
  { pose proof (size_lookup_events w r n st) as Hsize.
    destruct (cache_of r st !! n) as [v|].
    - exists v, [], st. rewrite app_nil_r. by rewrite bool_decide_true by eauto.
    - destruct Hsize as (v & evs & st' & Hrun & Htr & Hrep).
      exists v, (Request SizeLookup (url_of r n) :: evs), st'.
      rewrite bool_decide_false by by intros [].
      split_and!; [done|done| |].
      + by rewrite interactions_request, (interactions_reports _ Hrep).
      + constructor; [done|]. by apply reports_not_print. }
  destruct (detail_lookup_events w r Description n st0) as (d & evs1 & st1 & Hd & Htr1 & Hrep1).
  destruct (detail_lookup_events w r LatestVersion n st1) as (lv & evs2 & st2 & Hlv & Htr2 & Hrep2).
  exists sz, d, lv,
    (evs0 ++ (Request DescriptionLookup (url_of r n) :: evs1) ++
             (Request VersionLookup (url_of r n) :: evs2)), st2.
  split_and!.
  - rewrite Htr2, Htr1, Htr0. cbn [purpose_of]. by rewrite <- !app_assoc.
  - rewrite !interactions_app, Hint0, !interactions_request.
    by rewrite (interactions_reports _ Hrep1), (interactions_reports _ Hrep2).
  - rewrite !Forall_app. split_and!; [done| |].
    + constructor; [done|]. by apply reports_not_print.
    + constructor; [done|]. by apply reports_not_print.
  - destruct r; cbn [resolve get_package_size get_detail recorded_version audit_argv] in *.
    + unfold python_package.
      rewrite (bind_ok _ _ _ _ _ Hsz).
      change (_is_paid_package n "python") with (_is_paid_package n (ecosystem PyPI)).
      rewrite (is_paid_known PyPI n), bind_lift_ok.
      rewrite (bind_ok _ _ _ _ _ Hd), (bind_ok _ _ _ _ _ Hlv).
      unfold _check_security_vulnerabilities. rewrite bool_decide_true by done.
      unfold bind, ret. by destruct (run_and_decode _ _ _) as [[]].
    + unfold node_package.
      rewrite clean_version_is_bare, bind_lift_ok.
      rewrite (bind_ok _ _ _ _ _ Hsz).
      change (_is_paid_package n "node") with (_is_paid_package n (ecosystem Npm)).
      rewrite (is_paid_known Npm n), bind_lift_ok.
      rewrite (bind_ok _ _ _ _ _ Hd), (bind_ok _ _ _ _ _ Hlv).
      unfold _check_security_vulnerabilities.
      rewrite bool_decide_false by done. rewrite bool_decide_true by done.
      unfold bind, ret. by destruct (run_and_decode _ _ _) as [[]].
Qed.

(** X9: the description and latest-version lookups of both registries
    absorb every failure.  Whatever the registry does, such a lookup
    returns, leaves both size caches as they were, and makes exactly one
    request; it prints at most one report, and then returns its fallback
    ("No description available", or the empty version); a request that
    raises, or an answer whose status is not 200, gives the fallback (the
    second without any report). *)
Theorem detail_lookups_absorb_failures :
  ∀ w r d n st,
  ∃ v evs,
    get_detail w r d n st =
      (Ok v, {| pypi_cache := pypi_cache st; npm_cache := npm_cache st;
                trace := trace st ++ Request (purpose_of d) (url_of r n) :: evs |}) ∧
    match requests_get w (length (trace st)) (url_of r n) with
    | Raise e => v = fallback_of d ∧ ∃ message, evs = [PrintError message e]
    | Ok resp =>
        if status_code resp =? 200
        then evs = [] ∨ v = fallback_of d ∧ ∃ message e, evs = [PrintError message e]
        else v = fallback_of d ∧ evs = []
    end.
Proof.
  intros w r d n st.
  destruct r, d; cbn [get_detail purpose_of url_of fallback_of];
    [unfold _get_pypi_package_description | unfold _get_latest_pypi_version
    |unfold _get_npm_package_description | unfold _get_latest_npm_version];
    run_lookup.
  all: eexists _, _; (split; [rewrite <- ?app_assoc; reflexivity|]); eauto 10.
Qed.

(** X10: what one resolution asks of the outside.  Resolving a declared
    package sends the same registry URL a size request (unless the size is
    cached), a description request and a version request, then runs the
    audit tool once, in this order and nothing else, whether the resolution
    returns a record or the audit tool makes it raise; it prints nothing
    but reports of failed lookups. *)
Theorem resolution_interactions w r n ver st res st' :
  resolve w r n ver st = (res, st') →
  ∃ evs,
    trace st' = trace st ++ evs ∧
    interactions evs =
      (if bool_decide (is_Some (cache_of r st !! n)) then []
       else [Request SizeLookup (url_of r n)]) ++
      [Request DescriptionLookup (url_of r n); Request VersionLookup (url_of r n);
       Subprocess (audit_argv r n)] ∧
    Forall (λ ev, ∀ m, ev ≠ Print m) evs.
Proof.
  destruct (resolve_steps w r n ver st) as (sz & d & lv & evs & st3 & Htr & Hint & Hnp & ->).
  intros Hrun. exists (evs ++ [Subprocess (audit_argv r n)]).
  assert (trace st' = trace st3 ++ [Subprocess (audit_argv r n)]) as ->.
  { unfold bind, run_and_decode, ret in Hrun.
    destruct (run_tool _ _ _); by injection Hrun as <- <-. }
  split_and!.
  - by rewrite Htr, <- app_assoc.
  - rewrite interactions_app, Hint. by rewrite <- app_assoc.
  - apply Forall_app. split; [done|]. by constructor.
Qed.

Lemma resolution_interactions_witness :
  ∃ evs,
    trace (resolve sample_world PyPI "flask" "2.0.1" warm).2 = trace warm ++ evs ∧
    interactions evs =
      (if bool_decide (is_Some (cache_of PyPI warm !! "flask")) then []
       else [Request SizeLookup (url_of PyPI "flask")]) ++
      [Request DescriptionLookup (url_of PyPI "flask");
       Request VersionLookup (url_of PyPI "flask");
       Subprocess (audit_argv PyPI "flask")] ∧
    Forall (λ ev, ∀ m, ev ≠ Print m) evs.
Proof.
  apply (resolution_interactions sample_world PyPI "flask" "2.0.1" warm
           (resolve sample_world PyPI "flask" "2.0.1" warm).1).
  vm_compute. reflexivity.
Defined.

(** X11: where the fields of a resolved record come from.  The name is the
    declared one; the version is the declared one (for a manifest entry,
    without its leading characters that are not digits); [is_paid] is what
    [_is_paid_package] says for the name, that is, whether the name is
    enterprise-pkg or the private package of the ecosystem, whatever the
    registry answers; and [vulnerabilities] is the stripped output of the
    audit tool, run for that name as the last interaction. *)
Theorem resolved_record w r n ver st info st' :
  resolve w r n ver st = (Ok info, st') →
  name info = n ∧
  version info = recorded_version r ver ∧
  _is_paid_package n (ecosystem r) = Ok (is_paid info) ∧
  (is_paid info = true ↔
   n = "enterprise-pkg" ∨
   n = match r with PyPI => "private-package" | Npm => "private-module" end) ∧
  ∃ tr out,
    trace st' = tr ++ [Subprocess (audit_argv r n)] ∧
    run_tool w (length tr) (audit_argv r n) = Printed out ∧
    vulnerabilities info = strip out.
Proof.
  destruct (resolve_steps w r n ver st) as (sz & d & lv & evs & st3 & Htr & Hint & Hnp & ->).
  unfold bind, run_and_decode, ret.
  destruct (run_tool _ _ _) as [out| | |] eqn:Htool; try done.
  intros [= <- <-]. cbn [name version is_paid vulnerabilities trace].
  split_and!; [done|done|apply is_paid_known| |by exists (trace st3), out].
  rewrite bool_decide_eq_true.
  destruct r;
    [change (default [] (known_paid_services (ecosystem PyPI)))
       with ["private-package"; "enterprise-pkg"]
    |change (default [] (known_paid_services (ecosystem Npm)))
       with ["private-module"; "enterprise-pkg"]];
    rewrite !elem_of_cons, elem_of_nil; tauto.
Qed.

Lemma resolved_record_witness :
  let info := {| name := "flask"; size := VInt 101000; is_paid := false;
                 version := "2.0.1"; description := VStr "A microframework";
                 latest_version := VStr "3.0.0"; vulnerabilities := "" |} in
  name info = "flask" ∧
  version info = recorded_version PyPI "2.0.1" ∧
  _is_paid_package "flask" (ecosystem PyPI) = Ok (is_paid info) ∧
  (is_paid info = true ↔ "flask" = "enterprise-pkg" ∨ "flask" = "private-package") ∧
  ∃ tr out,
    trace (resolve sample_world PyPI "flask" "2.0.1" init).2 =
      tr ++ [Subprocess (audit_argv PyPI "flask")] ∧
    run_tool sample_world (length tr) (audit_argv PyPI "flask") = Printed out ∧
    vulnerabilities info = strip out.
Proof.
  apply (resolved_record sample_world PyPI "flask" "2.0.1" init).
  vm_compute. reflexivity.
Defined.

(** ** More on node manifests *)

Section DictOrder.

Implicit Types (d : dict) (k : string) (v : value).

Lemma dict_set_key_order d k v :
  (dict_set d k v).*1 = if bool_decide (k ∈ d.*1) then d.*1 else d.*1 ++ [k].
Proof.
  induction d as [|[k0 v0] d IH].
  - case_bool_decide as Hin; [by apply elem_of_nil in Hin|done].
  - cbn [dict_set]. destruct (decide (k0 = k)) as [->|Hne].
    + rewrite bool_decide_true by done.
      rewrite (bool_decide_true (k ∈ _)); [done|]. apply list_elem_of_here.
    + rewrite (bool_decide_false _ Hne). rewrite !fmap_cons, IH. cbn [fst].
      destruct (decide (k ∈ d.*1)) as [Hin|Hout].
      * rewrite !bool_decide_true; [done| |done]. by apply list_elem_of_further.
      * rewrite !bool_decide_false; [done| |done].
        rewrite elem_of_cons. intros [?|?]; congruence.
Qed.

Lemma filter_local {A} (P Q : A → Prop) `{∀ x, Decision (P x)} `{∀ x, Decision (Q x)}
    (l : list A) :
  (∀ x, x ∈ l → P x ↔ Q x) → filter P l = filter Q l.
Proof.
  induction l as [|x l IH]; intros Hpq; [done|].
  rewrite !filter_cons.
  assert (filter P l = filter Q l) as ->.
  { apply IH. intros y Hy. apply Hpq. by apply list_elem_of_further. }
  pose proof (Hpq x (list_elem_of_here _ _)) as Hx.
  destruct (decide (P x)), (decide (Q x)); tauto.
Qed.

Lemma filter_all {A} (P : A → Prop) `{∀ x, Decision (P x)} (l : list A) :
  (∀ x, P x) → filter P l = l.
Proof.
  intros HP. induction l as [|x l IH]; [done|].
  by rewrite filter_cons_True, IH.
Qed.

(** Writing the items of [l] into [d] one after the other leaves the keys
    of [d] in place and appends the new keys in the order of [l]. *)
Lemma foldl_dict_set_key_order (l d : dict) :
  NoDup l.*1 →
  (foldl (λ acc kv, dict_set acc kv.1 kv.2) d l).*1 =
    d.*1 ++ filter (λ k, k ∉ d.*1) l.*1.
Proof.
  revert d. induction l as [|[k v] l IH]; intros d Hnd; simpl.
  - by rewrite filter_nil, app_nil_r.
  - apply NoDup_cons in Hnd as [Hk Hnd]. rewrite (IH _ Hnd), dict_set_key_order.
    destruct (decide (k ∈ d.*1)) as [Hin|Hout].
    + rewrite bool_decide_true by done. by rewrite filter_cons_False by tauto.
    + rewrite bool_decide_false by done. rewrite filter_cons_True by done.
      rewrite <- app_assoc. simpl. do 2 f_equal.
      apply filter_local. intros x Hx. rewrite elem_of_app, list_elem_of_singleton.
      split; [tauto|]. intros Hxd [?| ->]; done.
Qed.

Lemma dict_merge_key_order (d1 d2 : dict) :
  NoDup d1.*1 → NoDup d2.*1 →
  (dict_merge d1 d2).*1 = d1.*1 ++ filter (λ k, k ∉ d1.*1) d2.*1.
Proof.
  intros Hnd1 Hnd2. unfold dict_merge. rewrite foldl_app.
  rewrite (foldl_dict_set_key_order d2 _ Hnd2), (foldl_dict_set_key_order d1 _ Hnd1).
  simpl. rewrite (filter_all (λ k, k ∉ [])) by (intros k; apply not_elem_of_nil).
  done.
Qed.

End DictOrder.

Lemma bare_version_starts_with_digit raw :
  match bare_version raw with
  | "" => True
  | String c _ => isdigit c = true
  end.
Proof.
  unfold bare_version.
  destruct (drop_while _ raw) as [|c s] eqn:Hdrop; [done|].
  apply drop_while_stops in Hdrop. by apply negb_false_iff in Hdrop.
Qed.

(** X12: the order and the shape of the records of a manifest.  For a
    manifest whose [dependencies] and [devDependencies] map names to
    version strings, the records follow the names of [dependencies] in
    their order, then the names that only [devDependencies] declares, in
    theirs; and the version of every record is empty or starts with a
    digit. *)
Theorem node_manifest_order w path text data deps devs st results st' :
  fs w path = Some (RegularFile text) →
  json_loads w text = Some (VDict data) →
  get_method (VDict data) "dependencies" (VDict []) = Ok (VDict (text_items deps)) →
  get_method (VDict data) "devDependencies" (VDict []) = Ok (VDict (text_items devs)) →
  NoDup deps.*1 → NoDup devs.*1 →
  _analyze_node_requirements w path st = (Ok results, st') →
  name <$> results = deps.*1 ++ filter (λ k, k ∉ deps.*1) devs.*1 ∧
  Forall (λ p, match version p with
               | "" => True
               | String c _ => isdigit c = true
               end) results.
Proof.
  intros Hfile Hjson Hdeps Hdevs Hnd1 Hnd2.
  unfold _analyze_node_requirements, open_read, bind at 1, lift at 1.
  rewrite Hfile. unfold try_except_json, bind at 1, lift at 1, json_load.
  rewrite Hjson. unfold bind at 1, lift at 1, all_deps_of.
  rewrite Hdeps. cbn [rbind as_mapping]. rewrite Hdevs. cbn [rbind as_mapping].
  pose proof (dict_merge_key_order (text_items deps) (text_items devs)) as Horder.
  rewrite !text_items_keys in Horder. specialize (Horder Hnd1 Hnd2).
  destruct (dict_merge_text_items deps devs) as [m Hm].
  rewrite Hm in *. rewrite text_items_keys in Horder.
  destruct (node_items w (text_items m) [] st) as [r st1] eqn:Hrun.
  apply node_items_outcome in Hrun.
  destruct r as [out|e]; [|by destruct e].
  intros [= -> ->]. simpl in Hrun. split.
  - replace (name <$> results) with (((λ p, (name p, version p)) <$> results).*1)
      by (by rewrite <- list_fmap_compose).
    rewrite Hrun, <- list_fmap_compose. exact Horder.
  - apply Forall_forall. intros p Hp.
    assert ((name p, version p) ∈ (λ kv, (kv.1, bare_version kv.2)) <$> m) as Hin.
    { rewrite <- Hrun. apply list_elem_of_fmap. by exists p. }
    apply list_elem_of_fmap in Hin as ([k raw] & [= _ ->] & _).
    apply bare_version_starts_with_digit.
Qed.

Lemma node_manifest_order_witness :
  let results :=
    [{| name := "a"; size := VInt 0; is_paid := false; version := "2.0.0";
        description := VStr "No description available"; latest_version := VStr "";
        vulnerabilities := "" |}] in
  name <$> results = ["a"] ++ filter (λ k, k ∉ ["a"]) ["a"] ∧
  Forall (λ p, match version p with
               | "" => True
               | String c _ => isdigit c = true
               end) results.
Proof.
  intros results.
  apply (node_manifest_order sample_world "package.json" "{a, a}"
           [("name", VStr "demo");
            ("dependencies", VDict [("a", VStr "^1.0.0")]);
            ("devDependencies", VDict [("a", VStr "2.0.0")])]
           [("a", "^1.0.0")] [("a", "2.0.0")] init results
           (_analyze_node_requirements sample_world "package.json" init).2).
  - reflexivity.
  - reflexivity.
  - reflexivity.
  - reflexivity.
  - apply NoDup_singleton.
  - apply NoDup_singleton.
  - vm_compute. reflexivity.
Defined.

(** What resolving one manifest entry can do, whatever the declared version
    is: it never raises [JSONDecodeError] and never prints but to report a
    failed lookup. *)
Lemma node_package_events w k v st r st' :
  node_package w k v st = (r, st') →
  r ≠ Raise JSONDecodeError ∧
  ∃ evs, trace st' = trace st ++ evs ∧ Forall (λ ev, ∀ m, ev ≠ Print m) evs.
Proof.
  assert ((∃ raw, v = VStr raw) ∨ clean_version_of v = Raise TypeError) as [[raw ->]|Hother].
  { destruct v; eauto. }
  - change (node_package w k (VStr raw)) with (resolve w Npm k raw).
    destruct (resolve_steps w Npm k raw st)
      as (sz & d & lv & evs & st3 & Htr & _ & Hnp & ->).
    unfold bind, run_and_decode, ret.
    destruct (run_tool _ _ _); intros [= <- <-]; (split; [done|]);
      exists (evs ++ [Subprocess (audit_argv Npm k)]); cbn [trace];
      (split; [by rewrite Htr, <- app_assoc|]);
      (apply Forall_app; split; [done|by constructor]).
  - unfold node_package, bind at 1, lift at 1. rewrite Hother.
    intros [= <- <-]. split; [done|]. exists []. by rewrite app_nil_r.
Qed.

Lemma node_items_events w items : ∀ results st r st',
  node_items w items results st = (r, st') →
  r ≠ Raise JSONDecodeError ∧
  ∃ evs, trace st' = trace st ++ evs ∧ Forall (λ ev, ∀ m, ev ≠ Print m) evs.
Proof.
  induction items as [|[k v] items IH]; intros results st r st'; cbn [node_items].
  - intros [= <- <-]. split; [done|]. exists []. by rewrite app_nil_r.
  - intros Hrun. apply bind_inv in Hrun as [(info & st1 & Hp & Hrest)|(e & Hp & ->)].
    + apply node_package_events in Hp as [_ (evs1 & Htr1 & Hnp1)].
      apply IH in Hrest as [Hr (evs2 & Htr2 & Hnp2)]. split; [done|].
      exists (evs1 ++ evs2). split; [by rewrite Htr2, Htr1, <- app_assoc|].
      by apply Forall_app.
    + apply node_package_events in Hp as [Hne Hevs]. split; [congruence|done].
Qed.

Lemma try_except_json_pass {A} (m h : M A) st r st' :
  m st = (r, st') → r ≠ Raise JSONDecodeError → try_except_json m h st = (r, st').
Proof. intros Hm Hr. unfold try_except_json. rewrite Hm. by destruct r as [?|[]]. Qed.

(** X13: how the analysis of a manifest fails.  The message "Error: Invalid
    package.json file" is printed exactly when [json.load] raises
    [JSONDecodeError] on the manifest, and the analysis never raises
    [JSONDecodeError]: an answer of the registry that does not decode is not
    taken for a broken manifest.  Every other failure escapes: the
    exception of a manifest that fails to load in another way (a content
    that is not text, an integer literal that is too long, a nesting that is
    too deep); AttributeError for a manifest that loads to something else
    than an object; TypeError for a [dependencies] entry that is not an
    object; all three before any lookup and without the message. *)
Theorem manifest_failures w path text st res st' :
  fs w path = Some (RegularFile text) →
  _analyze_node_requirements w path st = (res, st') →
  res ≠ Raise JSONDecodeError ∧
  (∃ evs, trace st' = trace st ++ evs ∧
          (Print "Error: Invalid package.json file" ∈ evs ↔
           json_load w text = Raise JSONDecodeError)) ∧
  (∀ e, json_load w text = Raise e → e ≠ JSONDecodeError →
        res = Raise e ∧ st' = st) ∧
  (∀ data, json_load w text = Ok data → (∀ d, data ≠ VDict d) →
           res = Raise AttributeError ∧ st' = st) ∧
  (∀ d v, json_load w text = Ok (VDict d) →
          dict_get d "dependencies" = Some v → (∀ m, v ≠ VDict m) →
          res = Raise TypeError ∧ st' = st).
Proof.
  intros Hfile.
  unfold _analyze_node_requirements, open_read, bind at 1, lift at 1.
  rewrite Hfile.
  destruct (json_load w text) as [data|e] eqn:Hload.
  - destruct (all_deps_of data) as [all_deps|e] eqn:Hdeps.
    + destruct (node_items w all_deps [] st) as [r st1] eqn:Hrun.
      pose proof Hrun as Hevents.
      apply node_items_events in Hevents as [Hr (evs & Htr & Hnp)].
      rewrite (try_except_json_pass _ _ st r st1);
        [|by unfold bind, lift; rewrite Hdeps|done].
      intros [= <- <-]. split_and!; [done| |done| |].
      * exists evs. split; [done|]. split; [|done].
        intros Hin. rewrite Forall_forall in Hnp.
        by destruct (Hnp _ Hin "Error: Invalid package.json file").
      * intros data' [= <-] Hshape. destruct data; try done. by destruct (Hshape d).
      * intros d v [= ->] Hget Hshape. unfold all_deps_of in Hdeps.
        cbn [get_method rbind] in Hdeps. rewrite Hget in Hdeps. cbn in Hdeps.
        destruct v; try done. by destruct (Hshape d0).
    + assert (e = AttributeError ∨ e = TypeError) as He.
      { unfold all_deps_of in Hdeps.
        destruct data as [| | | | |d]; try (injection Hdeps as <-; by left).
        cbn [get_method rbind] in Hdeps.
        destruct (from_option id (VDict []) (dict_get d "dependencies"));
          try (injection Hdeps as <-; by right).
        cbn [as_mapping rbind] in Hdeps.
        destruct (from_option id (VDict []) (dict_get d "devDependencies"));
          try (injection Hdeps as <-; by right).
        done. }
      rewrite (try_except_json_pass _ _ st (Raise e) st);
        [|by unfold bind, lift; rewrite Hdeps
         |by destruct He as [-> | ->]].
      intros [= <- <-]. split_and!.
      * by destruct He as [-> | ->].
      * exists []. rewrite app_nil_r. split; [done|]. split; [|done].
        by intros ?%elem_of_nil.
      * done.
      * intros data' [= <-] Hshape. split; [|done]. f_equal.
        unfold all_deps_of in Hdeps.
        destruct data as [| | | | |d]; try (by injection Hdeps as <-).
        by destruct (Hshape d).
      * intros d v [= ->] Hget Hshape. split; [|done]. f_equal.
        unfold all_deps_of in Hdeps. cbn [get_method rbind] in Hdeps.
        rewrite Hget in Hdeps. cbn in Hdeps.
        destruct v; try (by injection Hdeps as <-). by destruct (Hshape d0).
  - destruct (decide (e = JSONDecodeError)) as [->|Hother].
    + unfold try_except_json, bind, lift, print, emit, ret.
      intros [= <- <-]. split_and!; [done| |by intros e [= <-]|done|done].
      eexists. cbn [trace]. split; [done|]. split; [done|].
      intros _. apply list_elem_of_here.
    + rewrite (try_except_json_pass _ _ st (Raise e) st); [|done|congruence].
      intros [= <- <-]. split_and!; [congruence| |by intros e' [= <-]|done|done].
      exists []. rewrite app_nil_r. split; [done|]. split.
      * by intros ?%elem_of_nil.
      * intros [= ->]. done.
Qed.

Lemma manifest_failures_witness :
  (∃ evs, trace (_analyze_node_requirements sample_world "broken.json" init).2 =
            trace init ++ evs ∧
          (Print "Error: Invalid package.json file" ∈ evs ↔
           json_load sample_world "{" = Raise JSONDecodeError)) ∧
  ((_analyze_node_requirements manifest_world "long.json" init).1 = Raise ValueError ∧
   (_analyze_node_requirements manifest_world "long.json" init).2 = init) ∧
  ((_analyze_node_requirements manifest_world "array.json" init).1 = Raise AttributeError ∧
   (_analyze_node_requirements manifest_world "array.json" init).2 = init) ∧
  ((_analyze_node_requirements manifest_world "deps.json" init).1 = Raise TypeError ∧
   (_analyze_node_requirements manifest_world "deps.json" init).2 = init).
Proof.
  refine (conj _ (conj _ (conj _ _))).
  - apply (proj1 (proj2
      (manifest_failures sample_world "broken.json" "{" init
         (_analyze_node_requirements sample_world "broken.json" init).1
         (_analyze_node_requirements sample_world "broken.json" init).2
         eq_refl eq_refl))).
  - apply (proj1 (proj2 (proj2
      (manifest_failures manifest_world "long.json" (digits 4301 "9") init
         (_analyze_node_requirements manifest_world "long.json" init).1
         (_analyze_node_requirements manifest_world "long.json" init).2
         eq_refl eq_refl))) ValueError); [by vm_compute | discriminate].
  - apply (proj1 (proj2 (proj2 (proj2
      (manifest_failures manifest_world "array.json" "[]" init
         (_analyze_node_requirements manifest_world "array.json" init).1
         (_analyze_node_requirements manifest_world "array.json" init).2
         eq_refl eq_refl)))) (VList [])); [reflexivity | discriminate].
  - apply (proj2 (proj2 (proj2 (proj2
      (manifest_failures manifest_world "deps.json" "{dependencies: []}" init
         (_analyze_node_requirements manifest_world "deps.json" init).1
         (_analyze_node_requirements manifest_world "deps.json" init).2
         eq_refl eq_refl)))) [("dependencies", VList [])] (VList []));
      [reflexivity | reflexivity | discriminate].
Defined.

(** ** Paid packages *)

(** X14: the two ways of asking whether a package is a paid one agree on
    the ecosystems the analyzer knows, and differ on every other tag: there
    [_is_paid_package] raises KeyError, while
    [_get_package_cost_estimation] answers that the package is free.  The
    private package of one ecosystem is not a paid package of the other. *)
Theorem paid_package_answers :
  (∀ n r,
     _get_package_cost_estimation n (ecosystem r) = "This package is free." ↔
     _is_paid_package n (ecosystem r) = Ok false) ∧
  (∀ n package_type,
     package_type ≠ "python" → package_type ≠ "node" →
     _is_paid_package n package_type = Raise KeyError ∧
     _get_package_cost_estimation n package_type = "This package is free.") ∧
  (∀ n r,
     _is_paid_package n (ecosystem r) = Ok true ↔
     n = "enterprise-pkg" ∨
     n = match r with PyPI => "private-package" | Npm => "private-module" end).
Proof.
  split_and!.
  - intros n r. rewrite is_paid_known. unfold _get_package_cost_estimation.
    case_bool_decide; split; done.
  - intros n t Hp Hn. unfold _is_paid_package, _get_package_cost_estimation,
      known_paid_services.
    rewrite !bool_decide_false by done. split; [done|]. cbn [default].
    by rewrite bool_decide_false by apply not_elem_of_nil.
  - intros n r. rewrite is_paid_known.
    transitivity (n ∈ default [] (known_paid_services (ecosystem r))).
    { case_bool_decide; split; done. }
    destruct r;
      [change (default [] (known_paid_services (ecosystem PyPI)))
         with ["private-package"; "enterprise-pkg"]
      |change (default [] (known_paid_services (ecosystem Npm)))
         with ["private-module"; "enterprise-pkg"]];
      rewrite !elem_of_cons, elem_of_nil; tauto.
Qed.

Lemma paid_package_answers_witness :
  _is_paid_package "private-module" "ruby" = Raise KeyError ∧
  _get_package_cost_estimation "private-module" "ruby" = "This package is free.".
Proof.
  apply (proj1 (proj2 paid_package_answers) "private-module" "ruby"); discriminate.
Defined.

(** ** Several files *)

Lemma all_projects_acc w paths file_type : ∀ acc st,
  all_projects w paths file_type acc st =
    match all_projects w paths file_type [] st with
    | (Ok out, st') => (Ok (acc ++ out), st')
    | (Raise e, st') => (Raise e, st')
    end.
Proof.
  induction paths as [|path paths IH]; intros acc st; cbn [all_projects].
  - unfold ret. by rewrite app_nil_r.
  - unfold bind. destruct (analyze_requirements w path file_type st) as [[packages|e] st1];
      [|done].
    rewrite (IH (acc ++ packages)), (IH ([] ++ packages)).
    destruct (all_projects w paths file_type [] st1) as [[out|e] st2]; [|done].
    by rewrite app_assoc.
Qed.

(** X15: analysing several files is analysing them one after the other
    with the same analyzer: the analysis of a list of paths followed by
    another is the analysis of the first list, then, from the state it
    leaves, that of the second, and the result is the first result followed
    by the second; it stops at the first exception.  The analysis of one
    path is [analyze_requirements] on it. *)
Theorem analysis_of_several_files :
  (∀ w paths1 paths2 file_type st,
     analyze_multiple_projects w (paths1 ++ paths2) file_type st =
       (packages1 ←$ analyze_multiple_projects w paths1 file_type;
        packages2 ←$ analyze_multiple_projects w paths2 file_type;
        ret (packages1 ++ packages2)) st) ∧
  (∀ w path file_type st,
     analyze_multiple_projects w [path] file_type st =
       analyze_requirements w path file_type st).
Proof.
  split.
  - intros w paths1 paths2 file_type st. unfold analyze_multiple_projects.
    unfold bind at 1.
    destruct (all_projects w paths1 file_type [] st) as [[packages1|e] st1] eqn:H1.
    + rewrite (all_projects_app _ _ _ _ _ _ _ _ H1), all_projects_acc.
      unfold bind, ret.
      by destruct (all_projects w paths2 file_type [] st1) as [[packages2|e] st2].
    + revert H1. generalize (@nil PackageInfo) as acc. revert st.
      induction paths1 as [|path paths1 IH]; intros st acc; cbn [all_projects app].
      * done.
      * unfold bind.
        destruct (analyze_requirements w path file_type st) as [[packages|e'] st0];
          [apply IH|done].
  - intros w path file_type st. unfold analyze_multiple_projects. cbn [all_projects].
    unfold bind, ret.
    by destruct (analyze_requirements w path file_type st) as [[packages|e] st1].
Qed.
(** ** The command line *)

Lemma analyze_missing w path file_type st :
  path_exists w path = false →
  analyze_requirements w path file_type st = (Raise FileNotFoundError, st).
Proof. intros Hpath. unfold analyze_requirements. by rewrite Hpath. Qed.

Lemma analyze_unsupported w path file_type st :
  path_exists w path = true → file_type ≠ "python" → file_type ≠ "node" →
  analyze_requirements w path file_type st = (Raise ValueError, st).
Proof.
  intros Hpath Hpy Hnode. unfold analyze_requirements.
  rewrite Hpath. simpl. by rewrite !bool_decide_false.
Qed.

Lemma analyze_directory w path file_type st :
  fs w path = Some Directory → file_type = "python" ∨ file_type = "node" →
  analyze_requirements w path file_type st = (Raise IsADirectoryError, st).
Proof.
  intros Hfs Htype. unfold analyze_requirements, path_exists.
  rewrite Hfs, bool_decide_true by eauto. cbn [negb].
  destruct Htype as [-> | ->].
  - rewrite bool_decide_true by done.
    unfold _analyze_python_requirements, open_read, bind, lift. by rewrite Hfs.
  - rewrite bool_decide_false by done. rewrite bool_decide_true by done.
    unfold _analyze_node_requirements, open_read, bind, lift. by rewrite Hfs.
Qed.

Lemma first_analysis_raises w path rest file_type st e st' :
  analyze_requirements w path file_type st = (Raise e, st') →
  analyze_multiple_projects w (path :: rest) file_type st = (Raise e, st').
Proof.
  intros H. unfold analyze_multiple_projects. cbn [all_projects].
  by rewrite (bind_raise _ _ _ _ _ H).
Qed.

(** X16: which failures [main] reports and which it lets through.  No
    execution of [main] ends with an exception of the classes it handles
    (FileNotFoundError, ValueError and its subclasses).  A first path that
    does not exist, or an unsupported ecosystem with a first path that
    exists, ends the execution normally with one line, "Error" followed by
    the exception, and with no result file.  A first path that is a
    directory makes [main] end with IsADirectoryError, uncaught, with
    nothing printed and no result file. *)
Theorem main_error_handling :
  (∀ h file_paths file_type e,
     ended (main h file_paths file_type) = Uncaught e → caught_by_main e = false) ∧
  (∀ h path rest file_type,
     path_exists (world h) path = false →
     main h (path :: rest) file_type =
       {| ended := Finished; console := [PrintError "Error" FileNotFoundError];
          saved := None |}) ∧
  (∀ h path rest file_type,
     path_exists (world h) path = true → file_type ≠ "python" → file_type ≠ "node" →
     main h (path :: rest) file_type =
       {| ended := Finished; console := [PrintError "Error" ValueError];
          saved := None |}) ∧
  (∀ h path rest file_type,
     fs (world h) path = Some Directory → file_type = "python" ∨ file_type = "node" →
     main h (path :: rest) file_type =
       {| ended := Uncaught IsADirectoryError; console := []; saved := None |}).
Proof.
  split_and!.
  - intros h paths file_type e. unfold main.
    assert (∀ e' st sv, ended (handled e' st sv) = Uncaught e → caught_by_main e = false)
      as Hhandled.
    { intros e' st sv. unfold handled.
      destruct (caught_by_main e') eqn:Hc; [done|]. by intros [= <-]. }
    destruct (analyze_multiple_projects _ _ _ _) as [[packages|e0] st]; [|by apply Hhandled].
    destruct (open_for_writing h _) as [?|e0]; [|by apply Hhandled].
    destruct (after_saving h packages file_type st) as [[?|e0] st']; [done|by apply Hhandled].
  - intros h path rest file_type Hpath. unfold main.
    by rewrite (first_analysis_raises _ _ _ _ _ _ _ (analyze_missing _ _ _ _ Hpath)).
  - intros h path rest file_type Hpath Hpy Hnode. unfold main.
    by rewrite (first_analysis_raises _ _ _ _ _ _ _
                  (analyze_unsupported _ _ _ _ Hpath Hpy Hnode)).
  - intros h path rest file_type Hfs Htype. unfold main.
    by rewrite (first_analysis_raises _ _ _ _ _ _ _ (analyze_directory _ _ _ _ Hfs Htype)).
Qed.

Lemma main_error_handling_witness :
  main (host_of sample_world) ["missing.txt"; "requirements.txt"] "python" =
    {| ended := Finished; console := [PrintError "Error" FileNotFoundError];
       saved := None |} ∧
  main (host_of sample_world) ["requirements.txt"] "ruby" =
    {| ended := Finished; console := [PrintError "Error" ValueError]; saved := None |}.
Proof.
  split.
  - apply (proj1 (proj2 main_error_handling) (host_of sample_world)). reflexivity.
  - apply (proj1 (proj2 (proj2 main_error_handling)) (host_of sample_world));
      [reflexivity | discriminate | discriminate].
Defined.

Lemma resolve_without_tool w r n ver st :
  (∀ t, run_tool w t (audit_argv r n) = MissingExecutable) →
  ∃ st', resolve w r n ver st = (Raise FileNotFoundError, st').
Proof.
  intros Htool.
  destruct (resolve_steps w r n ver st) as (sz & d & lv & evs & st3 & _ & _ & _ & ->).
  unfold bind, run_and_decode. rewrite Htool. by eexists.
Qed.

Lemma python_lines_without_tool w lines :
  (∀ t n, run_tool w t (audit_argv PyPI n) = MissingExecutable) →
  Exists (λ line, is_Some (requirement_of_line line)) lines →
  ∀ results st, ∃ st', python_lines w lines results st = (Raise FileNotFoundError, st').
Proof.
  intros Htool. induction lines as [|line lines IH]; intros Hex results st.
  - by inversion Hex.
  - cbn [python_lines]. destruct (requirement_of_line line) as [[n v]|] eqn:Hline.
    + destruct (resolve_without_tool w PyPI n v st (λ t, Htool t n)) as [st' Hraise].
      exists st'. by rewrite (bind_raise _ _ _ _ _ Hraise).
    + apply IH. inversion Hex as [? ? [? Hsome]|]; [congruence|done].
Qed.

(** X17: without the audit tool, nothing is analysed.  When [safety] cannot
    be started, [main] on a requirements file that declares at least one
    package ends normally after printing "Error" with the
    FileNotFoundError of the tool, as it does for a file that does not
    exist, and writes no result file, whatever the registry answers and
    whatever paths follow. *)
Theorem main_without_audit_tool h path text rest :
  fs (world h) path = Some (RegularFile text) →
  Exists (λ line, is_Some (requirement_of_line line)) (readlines text) →
  (∀ t n, run_tool (world h) t (audit_argv PyPI n) = MissingExecutable) →
  ∃ tr,
    main h (path :: rest) "python" =
      {| ended := Finished; console := tr ++ [PrintError "Error" FileNotFoundError];
         saved := None |}.
Proof.
  intros Hfs Hlines Htool.
  destruct (python_lines_without_tool (world h) (readlines text) Htool Hlines [] init)
    as [st' Hraise].
  assert (analyze_requirements (world h) path "python" init = (Raise FileNotFoundError, st'))
    as Hanalysis.
  { unfold analyze_requirements, path_exists.
    rewrite Hfs, bool_decide_true by eauto. cbn [negb].
    rewrite bool_decide_true by done.
    unfold _analyze_python_requirements, open_read, bind at 1, lift. by rewrite Hfs. }
  exists (trace st'). unfold main.
  by rewrite (first_analysis_raises _ _ _ _ _ _ _ Hanalysis).
Qed.

Lemma main_without_audit_tool_witness :
  ∃ tr,
    main (host_of world_without_safety) ["requirements.txt"; "package.json"] "python" =
      {| ended := Finished; console := tr ++ [PrintError "Error" FileNotFoundError];
         saved := None |}.
Proof.
  apply (main_without_audit_tool (host_of world_without_safety) "requirements.txt"
           ("flask==2.0.1" +:+ String "010" ("requests" +:+ String "010" ""))).
  - reflexivity.
  - apply Exists_cons_hd. vm_compute. by eexists.
  - reflexivity.
Defined.

Lemma estimate_of_nothing package_type :
  package_type ≠ "python" → package_type ≠ "node" →
  estimate_docker_sizes [] package_type = Raise KeyError.
Proof.
  intros Hp Hn. unfold estimate_docker_sizes, base_sizes.
  by rewrite !bool_decide_false.
Qed.

(** X18: the result file is written before the estimate is made.  Once the
    analysis has returned and the file could be opened, the file holds the
    packages whatever happens next.  With no path and an ecosystem that is
    neither python nor node, [main] writes an empty result, prints the
    overview and ends with the KeyError of the estimator, uncaught; and
    when the registry gave some package a size that is not a number
    ([None], a string, a list or an object), the sizes before it being ints
    or bools, it ends with the TypeError of the sum, uncaught, the file
    written. *)
Theorem result_file_precedes_estimate :
  (∀ h file_paths file_type packages st,
     analyze_multiple_projects (world h) file_paths file_type init = (Ok packages, st) →
     open_for_writing h "analysis_output.json" = Ok tt →
     saved (main h file_paths file_type) = Some packages) ∧
  (∀ h file_type,
     file_type ≠ "python" → file_type ≠ "node" →
     open_for_writing h "analysis_output.json" = Ok tt →
     main h [] file_type =
       {| ended := Uncaught KeyError;
          console := [Print "Analysis details saved to: analysis_output.json";
                      Print (String "010" "Dependency Overview:");
                      Print (to_string h [])];
          saved := Some [] |}) ∧
  (∀ h file_paths file_type pre p rest st,
     analyze_multiple_projects (world h) file_paths file_type init =
       (Ok (pre ++ p :: rest), st) →
     open_for_writing h "analysis_output.json" = Ok tt →
     Forall (λ q, integral (size q) = true) pre →
     not_a_number (size p) = true →
     ended (main h file_paths file_type) = Uncaught TypeError ∧
     saved (main h file_paths file_type) = Some (pre ++ p :: rest)).
Proof.
  split_and!.
  - intros h paths file_type packages st Hrun Hopen. unfold main.
    rewrite Hrun, Hopen.
    destruct (after_saving h packages file_type st) as [[?|e] st']; [done|].
    unfold handled. by destruct (caught_by_main e).
  - intros h file_type Hp Hn Hopen. unfold main.
    change (analyze_multiple_projects (world h) [] file_type init) with (Ok (@nil PackageInfo), init).
    rewrite Hopen. unfold after_saving, bind, print, emit, lift.
    by rewrite (estimate_of_nothing _ Hp Hn).
  - intros h paths file_type pre p rest st Hrun Hopen Hpre Hbad. unfold main.
    rewrite Hrun, Hopen. unfold after_saving, bind, print, emit, lift.
    unfold estimate_docker_sizes.
    rewrite sum_sizes_app. destruct (sum_sizes_integral pre 0 Hpre) as [T ->].
    cbn [rbind sum_sizes]. unfold int_add.
    apply not_a_number_index in Hbad. by rewrite Hbad.
Qed.

Lemma result_file_precedes_estimate_witness :
  main (host_of sample_world) [] "ruby" =
    {| ended := Uncaught KeyError;
       console := [Print "Analysis details saved to: analysis_output.json";
                   Print (String "010" "Dependency Overview:");
                   Print (to_string (host_of sample_world) [])];
       saved := Some [] |} ∧
  (ended (main (host_of manifest_world) ["a.json"] "node") = Uncaught TypeError ∧
   saved (main (host_of manifest_world) ["a.json"] "node") =
     Some ([] ++
           {| name := "a"; size := VNone; is_paid := false; version := "1.0.0";
              description := VStr "No description available";
              latest_version := VStr "1.0.0"; vulnerabilities := "" |} :: [])).
Proof.
  split.
  - apply (proj1 (proj2 result_file_precedes_estimate) (host_of sample_world) "ruby");
      [discriminate | discriminate | reflexivity].
  - apply (proj2 (proj2 result_file_precedes_estimate) (host_of manifest_world)
             ["a.json"] "node" []
             {| name := "a"; size := VNone; is_paid := false; version := "1.0.0";
                description := VStr "No description available";
                latest_version := VStr "1.0.0"; vulnerabilities := "" |} []
             (analyze_multiple_projects manifest_world ["a.json"] "node" init).2);
      [by vm_compute | reflexivity | constructor | reflexivity].
Defined.

Lemma split_from_first sep cur s :
  ∃ rest,
    split_from sep cur s =
      (reverse cur +:+ take_while (λ c, negb (bool_decide (c = sep))) s) :: rest.
Proof.
  revert cur. induction s as [|c s IH]; intros cur; cbn [split_from take_while].
  - exists []. by rewrite append_nil_r.
  - case_bool_decide as Hc; cbn [negb].
    + eexists. by rewrite append_nil_r.
    + destruct (IH (String c cur)) as [rest ->]. exists rest. f_equal.
      change (reverse (String c cur)) with (rev_onto cur (String c "")).
      by rewrite rev_onto_app, append_assoc.
Qed.

(** X19: the script.  With fewer than two arguments after the program name
    it prints the usage line and exits with status 1, without touching
    anything.  Otherwise the first argument is cut at its commas, which
    never gives an empty list of paths; so with an ecosystem that is
    neither python nor node the script always ends normally after one
    "Error" line and writes nothing: the error is that of a missing file
    when the text before the first comma is not an existing path, and that
    of the unsupported type when it is. *)
Theorem script_behaviour :
  (∀ h argv,
     (length argv < 3)%nat →
     script h argv =
       {| ended := Exit 1;
          console := [Print "Usage: python script.py <file_paths> <file_type>"];
          saved := None |}) ∧
  (∀ files, ∃ rest, split "," files = first_path files :: rest) ∧
  (∀ h prog files file_type more,
     file_type ≠ "python" → file_type ≠ "node" →
     script h (prog :: files :: file_type :: more) =
       {| ended := Finished;
          console := [PrintError "Error"
                        (if path_exists (world h) (first_path files)
                         then ValueError else FileNotFoundError)];
          saved := None |}).
Proof.
  assert (∀ files, ∃ rest, split "," files = first_path files :: rest) as Hsplit.
  { intros files. apply (split_from_first "," "" files). }
  split_and!; [|done|].
  - intros h argv Hlen. destruct argv as [|? [|? [|? ?]]]; try done. simpl in Hlen. lia.
  - intros h prog files file_type more Hp Hn. cbn [script].
    destruct (Hsplit files) as [rest ->]. unfold main.
    destruct (path_exists (world h) (first_path files)) eqn:Hpath.
    + by rewrite (first_analysis_raises _ _ _ _ _ _ _
                    (analyze_unsupported _ _ _ _ Hpath Hp Hn)).
    + by rewrite (first_analysis_raises _ _ _ _ _ _ _ (analyze_missing _ _ _ _ Hpath)).
Qed.

Lemma script_behaviour_witness :
  script (host_of sample_world) ["fsize.py"; "requirements.txt"] =
    {| ended := Exit 1;
       console := [Print "Usage: python script.py <file_paths> <file_type>"];
       saved := None |} ∧
  script (host_of sample_world) ["fsize.py"; "requirements.txt,package.json"; "ruby"] =
    {| ended := Finished; console := [PrintError "Error" ValueError]; saved := None |}.
Proof.
  split.
  - apply (proj1 script_behaviour). simpl. lia.
  - apply (proj2 (proj2 script_behaviour) (host_of sample_world) "fsize.py"
             "requirements.txt,package.json" "ruby" []); discriminate.
Defined.

(** ** The range of the estimator *)

Section FloatRange.

(** Beyond the largest exponent, rounding gives an infinity. *)
Lemma binary_round_aux_overflow s p e n :
  Z.pos (digits2_pos p) = Z.of_nat (S n) + 53 →
  971 < e + Z.of_nat (S n) →
  binary_round_aux prec emax s (Z.pos p) e loc_Exact = S754_infinity s.
Proof.
  intros Hd Hhi.
  set (h := 2 ^ Z.of_nat n).
  assert (0 < h) as Hh by (apply Z.pow_pos_nonneg; lia).
  assert (2 ^ Z.of_nat (S n) = h * 2) as Hpow.
  { rewrite Nat2Z.inj_succ, Z.pow_succ_r by lia. lia. }
  pose proof (bounds_of_digits p) as Hp. rewrite Hd in Hp.
  replace (Z.of_nat (S n) + 53 - 1) with (Z.of_nat (S n) + 52) in Hp by lia.
  rewrite !Z.pow_add_r, Hpow in Hp by lia.
  pose proof (round_nearest_even_shifted n (Z.pos p) ltac:(lia)) as Hround.
  cbv zeta in Hround. fold h in Hround.
  set (q := Z.pos p / (h * 2)) in *.
  assert (2 ^ 52 ≤ q < 2 ^ 53) as Hq.
  { split; [apply Z.div_le_lower_bound; lia|apply Z.div_lt_upper_bound; lia]. }
  unfold binary_round_aux, shr_fexp, fexp, emin, prec, emax.
  cbn [Zdigits2 shr_record_of_loc]. rewrite Hd.
  replace (Z.max (Z.of_nat (S n) + 53 + e - 53) (3 - 1024 - 53) - e)
    with (Z.of_nat (S n)) by lia.
  rewrite shr_nat, shr_iter by lia. rewrite Hpow. fold h q.
  cbn [shr_m].
  set (m1 := round_nearest_even q _) in *.
  destruct Hround as [Hm1 Hnear].
  destruct m1 as [|pm|pm] eqn:Hpm; [lia| |lia].
  cbn [Zdigits2 shr_record_of_loc].
  destruct (Z.eq_dec (Z.pos pm) (2 ^ 53)) as [Hcarry|Hcarry].
  - assert (Z.pos (digits2_pos pm) = 54) as ->.
    { apply digits_of_bounds; [lia|]. rewrite Hcarry. simpl. lia. }
    replace (Z.max (54 + (e + Z.of_nat (S n)) - 53) (3 - 1024 - 53) - (e + Z.of_nat (S n)))
      with 1 by lia.
    injection Hcarry as ->. cbn [shr SpecFloat.iter_pos shr_1 shr_m].
    destruct (Z.leb_spec (e + Z.of_nat (S n) + 1) (1024 - 53)); [lia|done].
  - assert (Z.pos (digits2_pos pm) = 53) as ->.
    { apply digits_of_bounds; [lia|]. simpl (53 - 1). lia. }
    replace (Z.max (53 + (e + Z.of_nat (S n)) - 53) (3 - 1024 - 53) - (e + Z.of_nat (S n)))
      with 0 by lia.
    cbn [shr shr_m].
    destruct (Z.leb_spec (e + Z.of_nat (S n)) (1024 - 53)); [lia|done].
Qed.

(** The conversion of an integer with more than 53 digits rounds it as it
    stands. *)
Lemma float_of_int_long p :
  53 < Z.pos (digits2_pos p) →
  binary_normalize prec emax (Z.pos p) 0 false =
    binary_round_aux prec emax false (Z.pos p) 0 loc_Exact.
Proof.
  intros Hd. unfold binary_normalize, binary_round, shl_align, fexp, emin, prec, emax.
  replace (Z.max (Z.pos (digits2_pos p) + 0 - 53) (3 - 1024 - 53) - 0)
    with (Z.pos (digits2_pos p) - 53) by lia.
  destruct (Z.pos (digits2_pos p) - 53) as [|k|k] eqn:Hk; [lia| |lia]. done.
Qed.

Lemma float_of_int_overflow T : 2 ^ 1024 ≤ T → float_of_int T = Raise OverflowError.
Proof.
  intros HT. assert (0 < 2 ^ 1024) as Hpos by (by apply Z.pow_pos_nonneg).
  destruct T as [|p|p]; [lia| |lia].
  pose proof (bounds_of_digits p) as Hb.
  set (d := Z.pos (digits2_pos p)) in *.
  assert (1025 ≤ d) as Hd.
  { destruct (Z.le_gt_cases 1025 d) as [|Hlt]; [done|].
    assert (2 ^ d ≤ 2 ^ 1024) by (apply Z.pow_le_mono_r; lia). lia. }
  unfold float_of_int. rewrite float_of_int_long by (fold d; lia).
  rewrite (binary_round_aux_overflow false p 0 (Z.to_nat (d - 54))); [done| |].
  - fold d. rewrite Nat2Z.inj_succ, Z2Nat.id by lia. lia.
  - rewrite Nat2Z.inj_succ, Z2Nat.id by lia. lia.
Qed.

(** Below [2 ^ 1023] the conversion gives a finite float, with an exponent
    of at most 971 and a mantissa of at most [2 ^ 53]. *)
Lemma float_of_int_finite p :
  Z.pos p < 2 ^ 1023 →
  ∃ m e, float_of_int (Z.pos p) = Ok (S754_finite false m e) ∧
         -52 ≤ e ≤ 971 ∧ Z.pos m ≤ 2 ^ 53.
Proof.
  intros Hp. pose proof (bounds_of_digits p) as Hb.
  set (d := Z.pos (digits2_pos p)) in *.
  assert (1 ≤ d ≤ 1023) as Hd.
  { split; [subst d; lia|]. destruct (Z.le_gt_cases d 1023) as [|Hgt]; [done|].
    assert (2 ^ 1023 ≤ 2 ^ (d - 1)) by (apply Z.pow_le_mono_r; lia). lia. }
  destruct (Z.le_gt_cases d 53) as [Hshort|Hlong].
  - destruct (float_of_int_exact p) as (mz & _ & Hmz & ->).
    { assert (2 ^ d ≤ 2 ^ 53) by (apply Z.pow_le_mono_r; lia). lia. }
    exists mz, (d - 53). split; [done|]. lia.
  - unfold float_of_int. rewrite float_of_int_long by (fold d; lia).
    destruct (binary_round_aux_shifted false p 0 (Z.to_nat (d - 54)))
      as (m1 & m & e' & -> & Hnear & Hcases).
    { fold d. rewrite Nat2Z.inj_succ, Z2Nat.id by lia. lia. }
    { rewrite Nat2Z.inj_succ, Z2Nat.id by lia. lia. }
    { rewrite Nat2Z.inj_succ, Z2Nat.id by lia. lia. }
    exists m, e'. split; [done|].
    rewrite Nat2Z.inj_succ, Z2Nat.id in Hcases by lia.
    set (h := 2 ^ Z.of_nat (Z.to_nat (d - 54))) in *.
    assert (0 < h) as Hh by (apply Z.pow_pos_nonneg; lia).
    assert (Z.pos p < h * 2 ^ 54) as Hup.
    { replace (h * 2 ^ 54) with (2 ^ d); [lia|].
      subst h. rewrite Z2Nat.id by lia. rewrite <- Z.pow_add_r by lia. f_equal. lia. }
    assert (m1 ≤ 2 ^ 53) as Hm1.
    { destruct (Z.le_gt_cases m1 (2 ^ 53)) as [|Hgt]; [done|exfalso].
      change (2 ^ 54) with (2 * 2 ^ 53) in Hup.
      assert (h * (2 * 2 ^ 53) < h * (2 * m1 - 1)); [|lia].
      apply Z.mul_lt_mono_pos_l; lia. }
    destruct Hcases as [[-> ->]|[-> Hhalf]]; split; lia.
Qed.

(** The product with the literal is finite too, so the overhead is
    computed. *)
Lemma overhead_computed T :
  0 ≤ T < 2 ^ 1023 →
  ∃ z, (x ←! int_times_float T lit_0_15; int_of_float x) = Ok z.
Proof.
  intros [HT0 HT]. destruct T as [|p|p]; [by eexists| |lia].
  destruct (float_of_int_finite p HT) as (m & e & Hfloat & He & Hm).
  unfold int_times_float. rewrite Hfloat. cbn [rbind].
  unfold float_mul, lit_0_15. cbn [SFmul xorb].
  set (P := (m * 5404319552844595)%positive).
  pose proof (bounds_of_digits P) as HdP.
  set (dP := Z.pos (digits2_pos P)) in *.
  assert (Z.pos P = Z.pos m * 5404319552844595) as HP by (subst P; lia).
  assert (53 ≤ dP ≤ 106) as HdPb.
  { split.
    - destruct (Z.le_gt_cases 53 dP) as [|Hlt]; [done|].
      assert (2 ^ dP ≤ 2 ^ 52) by (apply Z.pow_le_mono_r; lia).
      change (2 ^ 52) with 4503599627370496 in *. lia.
    - destruct (Z.le_gt_cases dP 106) as [|Hgt]; [done|].
      assert (2 ^ 106 ≤ 2 ^ (dP - 1)) by (apply Z.pow_le_mono_r; lia).
      change (2 ^ 106) with (2 ^ 53 * 2 ^ 53) in *.
      change (2 ^ 53) with 9007199254740992 in *. nia. }
  destruct (Z.eq_dec dP 53) as [Heq|Hne].
  - rewrite binary_round_aux_exact by (fold dP; lia). by eexists.
  - destruct (binary_round_aux_shifted false P (e + -55) (Z.to_nat (dP - 54)))
      as (m1 & m' & e' & -> & _ & _).
    { fold dP. rewrite Nat2Z.inj_succ, Z2Nat.id by lia. lia. }
    { rewrite Nat2Z.inj_succ, Z2Nat.id by lia. lia. }
    { rewrite Nat2Z.inj_succ, Z2Nat.id by lia. lia. }
    by eexists.
Qed.

End FloatRange.

(** X20: the range of the estimator.  For a supported ecosystem and
    packages whose sizes add up to a total from 0 to below [2 ^ 1023], the
    estimator returns an estimate; from [2 ^ 1024] on it raises
    OverflowError, for every ecosystem, as the total does not convert to a
    float. *)
Theorem estimator_range :
  (∀ packages package_type T,
     sum_sizes 0 packages = Ok T → 0 ≤ T < 2 ^ 1023 →
     package_type = "python" ∨ package_type = "node" →
     ∃ estimate, estimate_docker_sizes packages package_type = Ok estimate) ∧
  (∀ packages package_type T,
     sum_sizes 0 packages = Ok T → 2 ^ 1024 ≤ T →
     estimate_docker_sizes packages package_type = Raise OverflowError).
Proof.
  split.
  - intros packages t T Hsum HT Ht. unfold estimate_docker_sizes.
    rewrite Hsum. cbn [rbind].
    destruct (overhead_computed T HT) as [z Hz].
    destruct (int_times_float T lit_0_15) as [x|]; cbn [rbind] in *; [|done].
    rewrite Hz. cbn [rbind]. destruct Ht as [-> | ->]; by eexists.
  - intros packages t T Hsum HT. unfold estimate_docker_sizes.
    rewrite Hsum. cbn [rbind]. unfold int_times_float.
    by rewrite (float_of_int_overflow T HT).
Qed.

Lemma estimator_range_witness :
  (∃ estimate, estimate_docker_sizes [sized (2 ^ 100)] "node" = Ok estimate) ∧
  estimate_docker_sizes [sized (2 ^ 1024)] "node" = Raise OverflowError.
Proof.
  split.
  - apply (proj1 estimator_range [sized (2 ^ 100)] "node" (2 ^ 100)).
    + reflexivity.
    + split; [by apply Z.pow_nonneg|by apply Z.pow_lt_mono_r].
    + by right.
  - apply (proj2 estimator_range [sized (2 ^ 1024)] "node" (2 ^ 1024)).
    + reflexivity.
    + reflexivity.
Defined.

(** ** Release notes *)

(** X21: the release notes.  Unlike the lookups of a resolution,
    [_get_release_notes] lets the failure of its request through, and the
    failure of decoding the answer; it does not look at the status of the
    answer.  It looks up the literal key "latest" among the versions of
    the document, not the latest version: for a document that lists its
    versions under their numbers it answers that no release notes are
    available, and so it does when the list of versions is missing; when
    "latest" is there and is not an object, it raises AttributeError.  For
    an ecosystem that is neither python nor node it returns the empty
    text without any request. *)
Theorem release_notes_lookup :
  (∀ get r n e,
     get (url_of r n) = Raise e →
     _get_release_notes get n (ecosystem r) = Raise e) ∧
  (∀ get r n resp,
     get (url_of r n) = Ok resp → json_body resp = None →
     _get_release_notes get n (ecosystem r) = Raise JSONDecodeError) ∧
  (∀ get r n resp d,
     get (url_of r n) = Ok resp → json_body resp = Some (VDict d) →
     match dict_get d (versions_key r) with
     | None => True
     | Some (VDict listed) => dict_get listed "latest" = None
     | Some _ => False
     end →
     _get_release_notes get n (ecosystem r) = Ok no_release_notes) ∧
  (∀ get r n resp d listed files,
     get (url_of r n) = Ok resp → json_body resp = Some (VDict d) →
     dict_get d (versions_key r) = Some (VDict listed) →
     dict_get listed "latest" = Some (VList files) →
     _get_release_notes get n (ecosystem r) = Raise AttributeError) ∧
  (∀ get n package_type,
     package_type ≠ "python" → package_type ≠ "node" →
     _get_release_notes get n package_type = Ok (VStr "")).
Proof.
  assert (∀ get r n,
    _get_release_notes get n (ecosystem r) =
      (response ←! get (url_of r n);
       data ←! json response;
       listed ←! get_method data (versions_key r) (VDict []);
       latest ←! get_method listed "latest" (VDict []);
       get_method latest "changelog" no_release_notes)) as Hnotes.
  { intros get r n. destruct r; unfold _get_release_notes; cbn [ecosystem].
    - by rewrite bool_decide_true by done.
    - rewrite bool_decide_false by done. by rewrite bool_decide_true by done. }
  split_and!.
  - intros get r n e Hget. by rewrite Hnotes, Hget.
  - intros get r n resp Hget Hbody. rewrite Hnotes, Hget. cbn [rbind].
    unfold json. by rewrite Hbody.
  - intros get r n resp d Hget Hbody Hlisted. rewrite Hnotes, Hget. cbn [rbind].
    unfold json. rewrite Hbody. cbn [rbind get_method].
    destruct (dict_get d (versions_key r)) as [[| | | | |listed]|]; try done;
      cbn [from_option id rbind get_method]; by rewrite ?Hlisted.
  - intros get r n resp d listed files Hget Hbody Hlisted Hlatest.
    rewrite Hnotes, Hget. cbn [rbind]. unfold json. rewrite Hbody.
    cbn [rbind get_method]. rewrite Hlisted. cbn [from_option id rbind get_method].
    by rewrite Hlatest.
  - intros get n t Hp Hn. unfold _get_release_notes. by rewrite !bool_decide_false.
Qed.

Lemma release_notes_lookup_witness :
  _get_release_notes (requests_get sample_world 0) "requests" (ecosystem PyPI) =
    Raise Timeout ∧
  _get_release_notes (requests_get sample_world 0) "flask" (ecosystem PyPI) =
    Ok no_release_notes ∧
  _get_release_notes (requests_get sample_world 0) "flask" "ruby" = Ok (VStr "").
Proof.
  split_and!.
  - apply (proj1 release_notes_lookup (requests_get sample_world 0) PyPI "requests").
    reflexivity.
  - apply (proj1 (proj2 (proj2 release_notes_lookup)) (requests_get sample_world 0)
             PyPI "flask" flask_answer
             [("info", VDict [("version", VStr "3.0.0");
                              ("description", VStr "A microframework")]);
              ("releases", VDict
                 [("3.0.0", VList
                     [VDict [("packagetype", VStr "sdist"); ("size", VInt 680000)];
                      VDict [("packagetype", VStr "bdist_wheel");
                             ("size", VInt 101000)]])])]);
      reflexivity.
  - apply (proj2 (proj2 (proj2 (proj2 release_notes_lookup)))); discriminate.
Defined.

(** ** The interactions of a requirements file *)

Lemma size_requests_interactions evs :
  List.filter is_size_request (interactions evs) = List.filter is_size_request evs.
Proof.
  induction evs as [|ev evs IH]; [done|]. unfold interactions in *. simpl.
  destruct ev as [[] ?| | |]; simpl; by rewrite IH.
Qed.

(** One resolution that returns: its record, and what it asked. *)
Lemma resolve_returns w r n ver st info st' :
  resolve w r n ver st = (Ok info, st') →
  name info = n ∧
  ∃ evs,
    trace st' = trace st ++ evs ∧
    List.filter (λ ev, negb (is_size_request ev)) (interactions evs) = lookups_of r n ∧
    (length (List.filter is_size_request evs) ≤ 1)%nat ∧
    Forall (λ ev, ∀ m, ev ≠ Print m) evs.
Proof.
  destruct (resolve_steps w r n ver st) as (sz & d & lv & evs & st3 & Htr & Hint & Hnp & ->).
  unfold bind, run_and_decode, ret.
  destruct (run_tool _ _ _) as [out| | |]; try done.
  intros [= <- <-]. split; [done|].
  exists (evs ++ [Subprocess (audit_argv r n)]). cbn [trace]. split_and!.
  - by rewrite Htr, <- app_assoc.
  - rewrite interactions_app, Hint. by case_bool_decide.
  - rewrite List.filter_app, <- size_requests_interactions, Hint.
    case_bool_decide; simpl; lia.
  - apply Forall_app. split; [done|]. by constructor.
Qed.

Lemma python_lines_interactions w lines : ∀ results st out st',
  python_lines w lines results st = (Ok out, st') →
  ∃ new evs,
    out = results ++ new ∧
    trace st' = trace st ++ evs ∧
    List.filter (λ ev, negb (is_size_request ev)) (interactions evs) =
      concat ((λ p, lookups_of PyPI (name p)) <$> new) ∧
    (length (List.filter is_size_request evs) ≤ length new)%nat ∧
    Forall (λ ev, ∀ m, ev ≠ Print m) evs.
Proof.
  induction lines as [|line lines IH]; intros results st out st'; cbn [python_lines].
  - intros [= <- <-]. exists [], []. by rewrite !app_nil_r.
  - destruct (requirement_of_line line) as [[n v]|]; [|apply IH].
    intros Hrun. apply bind_inv in Hrun as [(info & st1 & Hinfo & Hrest)|(e & _ & ?)]; [|done].
    apply (resolve_returns w PyPI) in Hinfo as (Hname & evs1 & Htr1 & Hint1 & Hsz1 & Hnp1).
    apply IH in Hrest as (new & evs2 & -> & Htr2 & Hint2 & Hsz2 & Hnp2).
    exists (info :: new), (evs1 ++ evs2). split_and!.
    + by rewrite <- app_assoc.
    + by rewrite Htr2, Htr1, <- app_assoc.
    + rewrite interactions_app, List.filter_app, Hint1, Hint2, fmap_cons. cbn [concat].
      by rewrite Hname.
    + rewrite List.filter_app, length_app. cbn [length]. lia.
    + by apply Forall_app.
Qed.

(** X22: what the analysis of a requirements file asks of the outside.
    When the analysis of a file returns, it has asked, for each record in
    turn, the description and the latest version of the package from PyPI
    and an audit from [safety], and besides these nothing but size
    requests, at most one per record; it has printed nothing but reports
    of failed lookups.  A file that declares no package is analysed
    without any interaction. *)
Theorem python_file_interactions w path st out st' :
  _analyze_python_requirements w path st = (Ok out, st') →
  ∃ evs,
    trace st' = trace st ++ evs ∧
    List.filter (λ ev, negb (is_size_request ev)) (interactions evs) =
      concat ((λ p, lookups_of PyPI (name p)) <$> out) ∧
    (length (List.filter is_size_request evs) ≤ length out)%nat ∧
    Forall (λ ev, ∀ m, ev ≠ Print m) evs ∧
    (out = [] → interactions evs = []).
Proof.
  intros Hrun. unfold _analyze_python_requirements in Hrun.
  apply bind_inv in Hrun as [(text & st1 & Hopen & Hlines)|(e & _ & ?)]; [|done].
  assert (st1 = st) as ->.
  { unfold open_read, lift in Hopen. by injection Hopen as _ <-. }
  apply python_lines_interactions in Hlines as (new & evs & -> & Htr & Hint & Hsz & Hnp).
  exists evs. cbn [app] in *. split_and!; try done.
  intros ->. cbn in Hint, Hsz.
  assert (List.filter is_size_request (interactions evs) = []) as Hnone.
  { rewrite size_requests_interactions.
    destruct (List.filter is_size_request evs); [done|simpl in Hsz; lia]. }
  revert Hint Hnone. generalize (interactions evs) as l. intros l.
  induction l as [|ev l IH]; [done|]. cbn [List.filter].
  by destruct (is_size_request ev).
Qed.

Lemma python_file_interactions_witness :
  ∃ evs,
    trace (_analyze_python_requirements sample_world "requirements.txt" warm).2 =
      trace warm ++ evs ∧
    List.filter (λ ev, negb (is_size_request ev)) (interactions evs) =
      concat ((λ p, lookups_of PyPI (name p)) <$>
                [{| name := "flask"; size := VInt 101000; is_paid := false;
                    version := "2.0.1"; description := VStr "A microframework";
                    latest_version := VStr "3.0.0"; vulnerabilities := "" |};
                 {| name := "requests"; size := VInt 0; is_paid := false;
                    version := ""; description := VStr "No description available";
                    latest_version := VStr ""; vulnerabilities := "" |}]) ∧
    (length (List.filter is_size_request evs) ≤ 2)%nat ∧
    Forall (λ ev, ∀ m, ev ≠ Print m) evs ∧
    ([{| name := "flask"; size := VInt 101000; is_paid := false;
         version := "2.0.1"; description := VStr "A microframework";
         latest_version := VStr "3.0.0"; vulnerabilities := "" |};
      {| name := "requests"; size := VInt 0; is_paid := false;
         version := ""; description := VStr "No description available";
         latest_version := VStr ""; vulnerabilities := "" |}] = [] →
     interactions evs = []).
Proof.
  apply (python_file_interactions sample_world "requirements.txt" warm).
  vm_compute. reflexivity.
Defined.
